(** * An HTTP-like file server: request processor and its two hosting engines

    Shallow embedding of [progjar5/http.py] (class [AdvancedHttpProcessor]),
    of the read loops of [server_thread_pool_http.py] and
    [server_process_pool_http.py], and of the queue protocol of the
    process-pool engine.

    Python values are modelled as follows.
    - [bytes]: a list of [Byte.byte].
    - [str]: a list of code points ([N]); a lone surrogate is a legal element
      of a [str] and makes [encode('utf-8')] raise.
    - [dict] of request headers: a [gmap str str].
    - exceptions: a [result] type carrying the exception class and its
      [str()] text; [try]/[except] is a match on it.
    - the file system and the clock are explicit arguments; the file system
      is threaded through the handlers as state. *)

From Stdlib Require Import ZArith NArith List Bool Lia.
From Stdlib Require Import Strings.Ascii Strings.String Strings.Byte.
From Stdlib Require Import DecimalString.
From stdpp Require Import base option list gmap.
Import ListNotations.

Local Open Scope list_scope.
Local Open Scope N_scope.

(** ** Python values *)

Abbreviation bytes := (list byte).
Abbreviation str := (list N).

Global Instance byte_eq_dec : EqDecision byte := Byte.byte_eq_dec.

(** [b'...'] and ['...'] literals (ASCII text only). *)
Definition bs (s : string) : bytes := list_byte_of_string s.
Definition st (s : string) : str := map N_of_ascii (list_ascii_of_string s).
Arguments bs s%_string : simpl never.
Arguments st s%_string : simpl never.

Definition CR : N := 13.
Definition LF : N := 10.
Definition CRLF : str := [CR; LF].
Definition bCRLF : bytes := [x0d; x0a].
Definition bCRLFCRLF : bytes := [x0d; x0a; x0d; x0a].
Definition QUOTE : N := 34.
Definition bQUOTE : byte := x22.

(** ** Exceptions *)

Inductive exc_class :=
| IndexError
| ValueError
| UnicodeDecodeError
| UnicodeEncodeError
| OSError
| AttributeError
| OtherException
| KeyboardInterrupt.   (* a BaseException that is not an Exception *)

Record exn := mk_exn { exn_class : exc_class; exn_str : str }.

Inductive result (A : Type) :=
| Ok (a : A)
| Raise (e : exn).
Arguments Ok {A} a.
Arguments Raise {A} e.

(** [isinstance(e, Exception)] *)
Definition is_Exception (c : exc_class) : bool :=
  match c with KeyboardInterrupt => false | _ => true end.

(** [isinstance(e, (IndexError, ValueError, UnicodeDecodeError))]; both
    Unicode errors are subclasses of [ValueError]. *)
Definition is_parse_error (c : exc_class) : bool :=
  match c with
  | IndexError | ValueError | UnicodeDecodeError | UnicodeEncodeError => true
  | _ => false
  end.

(** Sequencing of statements that may raise: [x ← r; k]. *)
Global Instance result_ret : MRet result := @Ok.
Global Instance result_bind : MBind result := fun A B k r =>
  match r with Ok a => k a | Raise e => Raise e end.
Global Instance result_fmap : FMap result := fun A B f r =>
  match r with Ok a => Ok (f a) | Raise e => Raise e end.

(** ** Sequence operations shared by [bytes] and [str] *)

Section Seq.
Context {A : Type} `{EqDecision A}.

  (** [l.startswith(pre)] *)
Fixpoint startswith (pre l : list A) : bool :=
    match pre, l with
    | [], _ => true
    | _ :: _, [] => false
    | p :: pre', x :: l' => bool_decide (p = x) && startswith pre' l'
    end.

  (** [l.endswith(suf)] *)
Definition endswith (suf l : list A) : bool :=
    startswith (rev suf) (rev l).

  (** [l.find(pat)]: index of the first occurrence, [None] for -1. *)
Fixpoint find (pat l : list A) : option nat :=
    if startswith pat l then Some 0%nat
    else match l with
         | [] => None
         | _ :: l' => S <$> find pat l'
         end.

  (** [pat in l] *)
Definition contains (pat l : list A) : bool :=
    match find pat l with Some _ => true | None => false end.

  (** [l.split(sep)] for a non-empty separator.  [skip] counts the elements
      of a separator still to be passed over, [cur] is the current piece in
      reverse. *)
Fixpoint split_go (sep l : list A) (skip : nat) (cur : list A)
    : list (list A) :=
    match l with
    | [] => [rev cur]
    | x :: l' =>
        match skip with
        | S k => split_go sep l' k cur
        | O =>
            if startswith sep l
            then rev cur :: split_go sep l' (length sep - 1) []
            else split_go sep l' 0 (x :: cur)
        end
    end.

Definition split (sep l : list A) : list (list A) := split_go sep l 0 [].

  (** [sep.join(ls)] *)
Fixpoint join (sep : list A) (ls : list (list A)) : list A :=
    match ls with
    | [] => []
    | [l] => l
    | l :: ls' => l ++ sep ++ join sep ls'
    end.

Fixpoint take_while (p : A -> bool) (l : list A) : list A :=
    match l with
    | [] => []
    | x :: l' => if p x then x :: take_while p l' else []
    end.

Fixpoint drop_while (p : A -> bool) (l : list A) : list A :=
    match l with
    | [] => []
    | x :: l' => if p x then drop_while p l' else l
    end.
End Seq.


(** [l.rfind(c)] for a one-element pattern. *)
Fixpoint rfind1 {A} `{EqDecision A} (c : A) (l : list A) : option nat :=
  match l with
  | [] => None
  | x :: l' =>
      match rfind1 c l' with
      | Some i => Some (S i)
      | None => if decide (x = c) then Some 0%nat else None
      end
  end.

(** ** The UTF-8 codec *)

Definition in_range (lo hi n : N) : bool := (lo <=? n) && (n <=? hi).

Definition byte_of (n : N) : byte := default x00 (Byte.of_N n).

(** Admissible range of the second byte of a multi-byte sequence, by lead
    byte (no overlong forms, no surrogates, nothing above U+10FFFF). *)
Definition second_lo (lead : N) : N :=
  if lead =? 0xE0 then 0xA0 else if lead =? 0xF0 then 0x90 else 0x80.
Definition second_hi (lead : N) : N :=
  if lead =? 0xED then 0x9F else if lead =? 0xF4 then 0x8F else 0xBF.
Definition is_cont (n : N) : bool := in_range 0x80 0xBF n.

(** [b.decode('utf-8')], strict; [None] stands for [UnicodeDecodeError]. *)
Fixpoint utf8_decode (l : bytes) : option str :=
  match l with
  | [] => Some []
  | b0 :: r0 =>
      let n0 := Byte.to_N b0 in
      if n0 <? 0x80 then cons n0 <$> utf8_decode r0
      else if in_range 0xC2 0xDF n0 then
        match r0 with
        | b1 :: r1 =>
            let n1 := Byte.to_N b1 in
            if is_cont n1
            then cons ((n0 - 0xC0) * 64 + (n1 - 0x80)) <$> utf8_decode r1
            else None
        | _ => None
        end
      else if in_range 0xE0 0xEF n0 then
        match r0 with
        | b1 :: b2 :: r2 =>
            let n1 := Byte.to_N b1 in
            let n2 := Byte.to_N b2 in
            if in_range (second_lo n0) (second_hi n0) n1 && is_cont n2
            then cons ((n0 - 0xE0) * 4096 + (n1 - 0x80) * 64 + (n2 - 0x80))
                   <$> utf8_decode r2
            else None
        | _ => None
        end
      else if in_range 0xF0 0xF4 n0 then
        match r0 with
        | b1 :: b2 :: b3 :: r3 =>
            let n1 := Byte.to_N b1 in
            let n2 := Byte.to_N b2 in
            let n3 := Byte.to_N b3 in
            if in_range (second_lo n0) (second_hi n0) n1
               && is_cont n2 && is_cont n3
            then cons ((n0 - 0xF0) * 262144 + (n1 - 0x80) * 4096
                       + (n2 - 0x80) * 64 + (n3 - 0x80))
                   <$> utf8_decode r3
            else None
        | _ => None
        end
      else None
  end.

Definition is_surrogate (c : N) : bool := in_range 0xD800 0xDFFF c.

Definition utf8_encode_cp (c : N) : option bytes :=
  if c <? 0x80 then Some [byte_of c]
  else if c <? 0x800 then
    Some [byte_of (0xC0 + c / 64); byte_of (0x80 + c mod 64)]
  else if c <? 0x10000 then
    if is_surrogate c then None
    else Some [byte_of (0xE0 + c / 4096); byte_of (0x80 + (c / 64) mod 64);
               byte_of (0x80 + c mod 64)]
  else if c <? 0x110000 then
    Some [byte_of (0xF0 + c / 262144); byte_of (0x80 + (c / 4096) mod 64);
          byte_of (0x80 + (c / 64) mod 64); byte_of (0x80 + c mod 64)]
  else None.

(** [s.encode('utf-8')]; [None] stands for [UnicodeEncodeError]. *)
Fixpoint utf8_encode (s : str) : option bytes :=
  match s with
  | [] => Some []
  | c :: s' =>
      match utf8_encode_cp c, utf8_encode s' with
      | Some b, Some bs' => Some (b ++ bs')
      | _, _ => None
      end
  end.

(** ** Text helpers *)

(** [str(n)] for an [int]. *)
Definition str_of_Z (z : Z) : str := st (NilZero.string_of_int (Z.to_int z)).
Definition str_of_nat (n : nat) : str := str_of_Z (Z.of_nat n).

(** [c.isspace()]: the characters removed by [str.strip()]. *)
Definition isspace (c : N) : bool :=
  in_range 9 13 c || in_range 28 32 c || (c =? 0x85) || (c =? 0xA0)
  || (c =? 0x1680) || in_range 0x2000 0x200A c || (c =? 0x2028)
  || (c =? 0x2029) || (c =? 0x202F) || (c =? 0x205F) || (c =? 0x3000).

(** [s.strip()] *)
Definition strip (s : str) : str :=
  rev (drop_while isspace (rev (drop_while isspace s))).

(** ** [posixpath] *)

Definition SLASH : N := 47.
Definition DOT : N := 46.

(** [os.path.basename(p)]: [p[p.rfind('/') + 1:]] *)
Definition os_path_basename (p : str) : str :=
  match rfind1 SLASH p with
  | Some i => drop (S i) p
  | None => p
  end.

(** [os.path.join(a, b)] *)
Definition os_path_join (a b : str) : str :=
  if startswith [SLASH] b then b
  else if bool_decide (a = []) || endswith [SLASH] a then a ++ b
  else a ++ [SLASH] ++ b.

(** [os.path.splitext(p)[1]]: the extension starts at the last dot, provided
    that dot lies in the last path segment and is preceded there by a
    character other than a dot. *)
Definition os_path_splitext_ext (p : str) : str :=
  match rfind1 DOT p with
  | None => []
  | Some dotIndex =>
      let filenameIndex :=
        match rfind1 SLASH p with Some i => S i | None => 0%nat end in
      if (filenameIndex <=? dotIndex)%nat
         && existsb (fun c => negb (c =? DOT))
              (take (dotIndex - filenameIndex) (drop filenameIndex p))
      then drop dotIndex p
      else []
  end.

(** ** The two regular expressions of the source *)

(** Group 1 of [re.search] for the pattern "filename=", an opening quote,
    any run of non-quote characters, a closing quote.  [key] is the literal
    prefix up to and including the opening quote and [q] the quote.  The
    leftmost occurrence of [key] that is followed by a closing quote is the
    first occurrence of [key], because a quote after a later occurrence also
    lies after the first one. *)
Definition re_search_filename {A} `{EqDecision A}
    (key : list A) (q : A) (l : list A) : option (list A) :=
  match find key l with
  | None => None
  | Some i =>
      let rest := drop (i + length key) l in
      if contains [q] rest
      then Some (take_while (fun c => negb (bool_decide (c = q))) rest)
      else None
  end.

Definition SEMICOLON : N := 59.

(** [re.search('boundary=([^;]+)', l).group(1)]: the leftmost occurrence of
    [boundary=] followed by at least one character other than [;]. *)
Fixpoint re_search_boundary (l : str) : option str :=
  match l with
  | [] => None
  | _ :: l' =>
      if startswith (st "boundary=") l then
        match take_while (fun c => negb (c =? SEMICOLON)) (drop 9 l) with
        | [] => re_search_boundary l'
        | g => Some g
        end
      else re_search_boundary l'
  end.

(** ** What the interpreter and the operating system supply *)

(** Unicode case mapping and the text of codec errors are the interpreter's;
    they are taken as given.  [PyRuntimeLaws] below states what is used of
    them. *)
Class PyRuntime := {
  str_upper : str -> str;            (* s.upper() *)
  str_lower : str -> str;            (* s.lower() *)
  decode_error_str : bytes -> str;   (* str(e) for the error of b.decode('utf-8') *)
  encode_error_str : str -> str;     (* str(e) for the error of s.encode('utf-8') *)
}.

(** The calls made on the file system.  A call that raises returns the
    exception; [write_file] is [open(p, 'wb')] followed by [write], which may
    leave the file system changed even when it raises. *)
Class FileSystem := {
  fs : Type;
  os_path_exists : fs -> str -> bool;
  os_path_isfile : fs -> str -> bool;
  os_path_getsize : fs -> str -> result Z;
  os_listdir : fs -> str -> result (list str);
  read_file : fs -> str -> result bytes;
  write_file : fs -> str -> bytes -> fs * result unit;
  os_remove : fs -> str -> fs * result unit;
}.

(** [datetime.now()]: its rendering by
    [strftime('%a, %d %b %Y %H:%M:%S GMT')] and [int(timestamp())]. *)
Record clock := { now_strftime : str; now_timestamp : Z }.

(** An argument that is either [bytes] or [str]. *)
Inductive bytes_or_str :=
| Bytes (b : bytes)
| Str (s : str).

(** [len(content)]: bytes of a [bytes], code points of a [str]. *)
Definition len (content : bytes_or_str) : nat :=
  match content with
  | Bytes b => length b
  | Str s => length s
  end.

Section Codec.
Context `{PyRuntime}.

Definition bytes_decode (b : bytes) : result str :=
    match utf8_decode b with
    | Some s => Ok s
    | None => Raise (mk_exn UnicodeDecodeError (decode_error_str b))
    end.

Definition str_encode (s : str) : result bytes :=
    match utf8_encode s with
    | Some b => Ok b
    | None => Raise (mk_exn UnicodeEncodeError (encode_error_str s))
    end.
End Codec.

(** [try: body except Exception as e: handler(e)] and the variant with a
    tuple of classes; the state reached when the exception was raised is
    kept. *)
Definition try_except {S A} (catches : exc_class -> bool)
    (body : S * result A) (handler : exn -> result A) : S * result A :=
  match body with
  | (s, Raise e) => if catches (exn_class e) then (s, handler e) else body
  | _ => body
  end.

(** The same for code that does not touch the state. *)
Definition try_except_pure {A} (catches : exc_class -> bool)
    (body : result A) (handler : exn -> result A) : result A :=
  match body with
  | Raise e => if catches (exn_class e) then handler e else body
  | _ => body
  end.

(** [not x] for an optional [str]: [None] and the empty string are falsy. *)
Definition falsy (x : option str) : bool :=
  match x with
  | None | Some [] => true
  | Some (_ :: _) => false
  end.

(** ** class AdvancedHttpProcessor *)

Record AdvancedHttpProcessor := { storage_directory : str }.

(** [AdvancedHttpProcessor()], with the default [storage_path]. *)
Definition server_files : AdvancedHttpProcessor :=
  {| storage_directory := st "server_files" |}.

Definition content_type_mappings : gmap str str :=
  list_to_map
    [ (st ".pdf", st "application/pdf");
      (st ".jpg", st "image/jpeg");
      (st ".jpeg", st "image/jpeg");
      (st ".png", st "image/png");
      (st ".gif", st "image/gif");
      (st ".txt", st "text/plain");
      (st ".html", st "text/html");
      (st ".htm", st "text/html");
      (st ".css", st "text/css");
      (st ".js", st "application/javascript");
      (st ".json", st "application/json");
      (st ".xml", st "application/xml");
      (st ".zip", st "application/zip");
      (st ".rar", st "application/x-rar-compressed");
      (st ".doc", st "application/msword");
      (st ".docx",
       st "application/vnd.openxmlformats-officedocument.wordprocessingml.document");
      (st ".bin", st "application/octet-stream") ].

Section Processor.
Context `{PyRuntime} `{FileSystem}.
Variable self : AdvancedHttpProcessor.
Variable now : clock.

  (** [build_response]: the Content-Length line is formatted from
      [len(content)] before [content] is encoded. *)
Definition build_response (status_code : Z) (status_text : str)
      (content : bytes_or_str) (extra_headers : list (str * str))
    : result bytes :=
    let current_time := now_strftime now in
    let response_headers :=
      [ st "HTTP/1.1 " ++ str_of_Z status_code ++ st " " ++ status_text ++ CRLF;
        st "Date: " ++ current_time ++ CRLF;
        st "Connection: close" ++ CRLF;
        st "Server: AdvancedHttpServer/1.5" ++ CRLF;
        st "Content-Length: " ++ str_of_nat (len content) ++ CRLF ]
      ++ map (fun '(header_name, header_value) =>
                header_name ++ st ": " ++ header_value ++ CRLF) extra_headers
      ++ [CRLF] in
    let header_section := concat response_headers in
    content ← match content with
               | Bytes b => Ok b
               | Str s => str_encode s
               end;
    header ← str_encode header_section;
    Ok (header ++ content).

  (** The loop of [parse_form_data] over the parts. *)
Fixpoint scan_parts (form_parts : list bytes)
    : result (option str * option bytes) :=
    match form_parts with
    | [] => Ok (None, None)
    | part :: rest =>
        if contains (bs "Content-Disposition") part
           && contains (bs "filename=") part
        then
          match re_search_filename (bs "filename=" ++ [bQUOTE]) bQUOTE part with
          | None => scan_parts rest
          | Some m =>
              filename ← bytes_decode m;
              let filename := os_path_basename filename in
              match find bCRLFCRLF part with
              | None => scan_parts rest
              | Some content_start_pos =>
                  let file_content := drop (content_start_pos + 4) part in
                  let file_content :=
                    if endswith bCRLF file_content
                    then take (length file_content - 2) file_content
                    else file_content in
                  Ok (Some filename, Some file_content)
              end
          end
        else scan_parts rest
    end.

Definition parse_form_data (request_body : bytes)
      (boundary_string : bytes_or_str)
    : result (option str * option bytes) :=
    try_except_pure is_Exception
      (boundary_string ← match boundary_string with
                          | Str s => str_encode s
                          | Bytes b => Ok b
                          end;
       let form_parts := split (bs "--" ++ boundary_string) request_body in
       scan_parts form_parts)
      (fun parse_error => Ok (None, None)).

  (** Lines 162-189 of [handle_upload]: where the filename and the data come
      from.  [inl] is a response returned early. *)
Definition upload_source (request_body : bytes)
      (headers_dict : gmap str str)
    : result (bytes + option str * bytes) :=
    let content_type := default [] (headers_dict !! st "content-type") in
    if contains (st "multipart/form-data") content_type then
      match re_search_boundary content_type with
      | None =>
          inl <$> build_response 400 (st "Bad Request")
                    (Str (st "Boundary not found in multipart request")) []
      | Some boundary =>
          r ← parse_form_data request_body (Str boundary);
          let '(filename, file_data) := r in
          if falsy filename || bool_decide (file_data = None) then
            inl <$> build_response 400 (st "Bad Request")
                      (Str (st "No valid file found in request")) []
          else Ok (inr (filename, default [] file_data))
      end
    else
      let filename := headers_dict !! st "x-upload-filename" in
      let filename :=
        if falsy filename then
          let content_disposition :=
            default [] (headers_dict !! st "content-disposition") in
          match re_search_filename (st "filename=" ++ [QUOTE]) QUOTE
                  content_disposition with
          | Some m => Some m
          | None => filename
          end
        else filename in
      let filename :=
        if falsy filename
        then Some (st "uploaded_file_" ++ str_of_Z (now_timestamp now))
        else filename in
      let file_data := request_body in
      Ok (inr (filename, file_data)).

  (** Lines 196-198: the name a file is stored under. *)
Definition safe_filename (filename : str) : str :=
    let safe_filename := os_path_basename filename in
    if bool_decide (safe_filename = []) || startswith [DOT] safe_filename
    then st "file_" ++ str_of_Z (now_timestamp now)
    else safe_filename.

Definition handle_upload (request_body : bytes)
      (headers_dict : gmap str str) (s : fs) : fs * result bytes :=
    try_except is_Exception
      (match upload_source request_body headers_dict with
       | Raise e => (s, Raise e)
       | Ok (inl response) => (s, Ok response)
       | Ok (inr (filename, file_data)) =>
           if falsy filename then
             (s, build_response 400 (st "Bad Request")
                   (Str (st "Filename is required")) [])
           else
             let safe_filename := safe_filename (default [] filename) in
             let file_path :=
               os_path_join (storage_directory self) safe_filename in
             match write_file s file_path file_data with
             | (s', Raise e) => (s', Raise e)
             | (s', Ok _) =>
                 let success_msg :=
                   st "File " ++ safe_filename
                   ++ st " uploaded successfully ("
                   ++ str_of_nat (length file_data) ++ st " bytes)" in
                 (s', build_response 201 (st "Created") (Str success_msg) [])
             end
       end)
      (fun upload_error =>
         build_response 500 (st "Internal Server Error")
           (Str (st "Upload failed: " ++ exn_str upload_error)) []).

  (** The loop of the [/directory] branch of [handle_get]. *)
Fixpoint directory_entries (s : fs) (items : list str) : result (list str) :=
    match items with
    | [] => Ok []
    | item :: rest =>
        let item_path := os_path_join (storage_directory self) item in
        if os_path_isfile s item_path then
          file_size ← os_path_getsize s item_path;
          file_entries ← directory_entries s rest;
          Ok ((item ++ st " (" ++ str_of_Z file_size ++ st " bytes)")
                :: file_entries)
        else directory_entries s rest
    end.

Definition handle_get (request_path : str) (headers_dict : gmap str str)
      (s : fs) : fs * result bytes :=
    if bool_decide (request_path = st "/") then
      let welcome_message :=
        st "Advanced HTTP File Server - Upload files to /file-upload" in
      (s, build_response 200 (st "OK") (Str welcome_message) [])
    else if bool_decide (request_path = st "/redirect") then
      (s, build_response 302 (st "Found") (Str [])
            [(st "Location", st "https://youtu.be/dQw4w9WgXcQ")])
    else if bool_decide (request_path = st "/status") then
      (s, build_response 200 (st "OK") (Str (st "Server is running normally")) [])
    else if bool_decide (request_path = st "/directory") then
      (s, try_except_pure is_Exception
            (items ← os_listdir s (storage_directory self);
             file_entries ← directory_entries s items;
             let file_listing :=
               match file_entries with
               | [] => st "No files in directory"
               | _ => join [LF] file_entries
               end in
             build_response 200 (st "OK") (Str file_listing)
               [(st "Content-Type", st "text/plain")])
            (fun listing_error =>
               build_response 500 (st "Server Error")
                 (Str (exn_str listing_error)) []))
    else
      let requested_file := drop 1 request_path in
      let full_file_path :=
        os_path_join (storage_directory self) requested_file in
      if bool_decide (requested_file = [])
         || negb (os_path_isfile s full_file_path)
      then
        (s, build_response 404 (st "Not Found")
              (Str (st "File " ++ requested_file ++ st " not found")) [])
      else
        (s, try_except_pure is_Exception
              (file_content ← read_file s full_file_path;
               let file_extension :=
                 str_lower (os_path_splitext_ext requested_file) in
               let mime_type :=
                 default (st "application/octet-stream")
                   (content_type_mappings !! file_extension) in
               build_response 200 (st "OK") (Bytes file_content)
                 [(st "Content-Type", mime_type)])
              (fun serve_error =>
                 build_response 500 (st "Internal Server Error")
                   (Str (exn_str serve_error)) [])).

Definition handle_delete (request_path : str) (headers_dict : gmap str str)
      (s : fs) : fs * result bytes :=
    let requested_file := drop 1 request_path in
    let full_file_path :=
      os_path_join (storage_directory self) requested_file in
    if bool_decide (requested_file = [])
       || negb (os_path_exists s full_file_path)
    then
      (s, build_response 404 (st "Not Found")
            (Str (st "File " ++ requested_file ++ st " not found")) [])
    else
      try_except is_Exception
        (match os_remove s full_file_path with
         | (s', Raise e) => (s', Raise e)
         | (s', Ok _) =>
             let success_msg :=
               st "File " ++ requested_file ++ st " deleted successfully" in
             (s', build_response 200 (st "OK") (Str success_msg) [])
         end)
        (fun delete_error =>
           build_response 500 (st "Internal Server Error")
             (Str (exn_str delete_error)) []).
End Processor.

(** ** [handle_request] *)

Definition SPACE : N := 32.
Definition COLON : N := 58.

Inductive route :=
| ToUpload
| ToGet
| ToDelete
| NotAllowed.

(** The [if]/[elif] chain of lines 143-150, on the upper-cased method. *)
Definition route_of (http_method request_path : str) : route :=
  if bool_decide (http_method = st "POST")
     && bool_decide (request_path = st "/file-upload") then ToUpload
  else if bool_decide (http_method = st "GET") then ToGet
  else if bool_decide (http_method = st "DELETE") then ToDelete
  else NotAllowed.

Section Request.
Context `{PyRuntime} `{FileSystem}.
Variable now : clock.

  (** The handler methods, looked up on [self] when called. *)
Record handlers := {
    self_handle_upload : bytes -> gmap str str -> fs -> fs * result bytes;
    self_handle_get : str -> gmap str str -> fs -> fs * result bytes;
    self_handle_delete : str -> gmap str str -> fs -> fs * result bytes;
  }.

  (** Lines 134-138: a line with a colon is split at the first one, the key
      is stripped and lower-cased, a repeated key overwrites. *)
Definition parse_headers (header_lines : list str) : gmap str str :=
    fold_left
      (fun request_headers header =>
         match find [COLON] header with
         | Some i =>
             let key := take i header in
             let value := drop (S i) header in
             <[ str_lower (strip key) := strip value ]> request_headers
         | None => request_headers
         end)
      header_lines ∅.

  (** Lines 124-138: the request line and the headers.  [Ok None] is a
      request line of fewer than three parts. *)
Definition parse_head (header_section : bytes)
    : result (option (str * str * str * gmap str str)) :=
    header_text ← bytes_decode header_section;
    let header_lines := split CRLF header_text in
    match header_lines with
    | [] => Raise (mk_exn IndexError (st "list index out of range"))
    | request_line :: header_lines' =>
        let request_line_parts := split [SPACE] request_line in
        match request_line_parts with
        | http_method :: request_path :: http_version :: _ =>
            let http_method := str_upper http_method in
            Ok (Some (http_method, request_path, http_version,
                      parse_headers header_lines'))
        | _ => Ok None
        end
    end.

  (** [handle_request], for an argument that is a [bytes] (the [isinstance]
      test of line 111 holds by typing); the [print] calls are left out. *)
Definition handle_request_with (self : handlers) (request_data : bytes)
      (s : fs) : fs * result bytes :=
    try_except is_Exception
      (match find bCRLFCRLF request_data with
       | None =>
           (s, build_response now 400 (st "Bad Request")
                 (Str (st "Malformed HTTP request")) [])
       | Some header_boundary =>
           let header_section := take header_boundary request_data in
           let request_body := drop (header_boundary + 4) request_data in
           try_except is_parse_error
             (match parse_head header_section with
              | Raise e => (s, Raise e)
              | Ok None =>
                  (s, build_response now 400 (st "Bad Request")
                        (Str (st "Invalid HTTP request line")) [])
              | Ok (Some (http_method, request_path, http_version,
                          request_headers)) =>
                  match route_of http_method request_path with
                  | ToUpload =>
                      self_handle_upload self request_body request_headers s
                  | ToGet =>
                      self_handle_get self request_path request_headers s
                  | ToDelete =>
                      self_handle_delete self request_path request_headers s
                  | NotAllowed =>
                      (s, build_response now 405 (st "Method Not Allowed")
                            (Str (st "HTTP method not supported")) [])
                  end
              end)
             (fun decode_error =>
                build_response now 400 (st "Bad Request")
                  (Str (st "Request parsing error: " ++ exn_str decode_error))
                  [])
       end)
      (fun handler_error =>
         build_response now 500 (st "Internal Server Error")
           (Str (exn_str handler_error)) []).

Definition handle_request (self : AdvancedHttpProcessor)
    : bytes -> fs -> fs * result bytes :=
    handle_request_with
      {| self_handle_upload := handle_upload self now;
         self_handle_get := handle_get self now;
         self_handle_delete := handle_delete self now |}.
End Request.

(** ** A reference interpreter and file system

    An instance of each interface, used to run the processor on concrete
    requests: case mapping restricted to ASCII letters, and a file system
    that is one flat table from path to content. *)

Definition ascii_upper (c : N) : N := if in_range 97 122 c then c - 32 else c.
Definition ascii_lower (c : N) : N := if in_range 65 90 c then c + 32 else c.

Definition ascii_runtime : PyRuntime := {|
  str_upper := map ascii_upper;
  str_lower := map ascii_lower;
  decode_error_str := fun _ => st "'utf-8' codec can't decode bytes";
  encode_error_str := fun _ => st "'utf-8' codec can't encode characters";
|}.

Definition no_such_file (p : str) : exn :=
  mk_exn OSError (st "[Errno 2] No such file or directory").

Definition mem_fs : FileSystem := {|
  fs := gmap str bytes;
  os_path_exists := fun s p => bool_decide (is_Some (s !! p));
  os_path_isfile := fun s p => bool_decide (is_Some (s !! p));
  os_path_getsize := fun s p =>
    match s !! p with
    | Some d => Ok (Z.of_nat (length d))
    | None => Raise (no_such_file p)
    end;
  os_listdir := fun s d =>
    Ok (omap (fun '(p, _) =>
                let prefix := d ++ [SLASH] in
                if startswith prefix p
                   && negb (contains [SLASH] (drop (length prefix) p))
                then Some (drop (length prefix) p) else None)
          (map_to_list s));
  read_file := fun s p =>
    match s !! p with
    | Some d => Ok d
    | None => Raise (no_such_file p)
    end;
  write_file := fun s p d => (<[p := d]> s, Ok tt);
  os_remove := fun s p =>
    match s !! p with
    | Some _ => (delete p s, Ok tt)
    | None => (s, Raise (no_such_file p))
    end;
|}.

Definition clock0 : clock :=
  {| now_strftime := st "Thu, 01 Jan 2026 00:00:00 GMT";
     now_timestamp := 1767225600 |}.

(** ** The read loop of the two engines

    What the peer does is a script of outcomes of successive [recv] calls. *)

Inductive recv_outcome :=
| Received (data_chunk : bytes)   (* [recv] returns; no bytes: peer closed *)
| TimedOut                        (* [socket.timeout] *)
| Failed (e : exn).               (* any other exception *)

Inductive read_result :=
| Framed (buffer : bytes) (unread : list recv_outcome)  (* the loop was left *)
| Blocked (buffer : bytes)          (* script exhausted: waiting in [recv] *)
| Aborted (e : exn).                (* the exception leaves the loop *)

(** The [while True] loop of [process_client_request] (lines 69-89) and of
    [handle_client_connection] (lines 68-88); [limit] is the size cap. *)
Fixpoint read_request (limit : N) (sock : list recv_outcome) (buffer : bytes)
  : read_result :=
  match sock with
  | [] => Blocked buffer
  | Received [] :: unread => Framed buffer unread
  | Received data_chunk :: unread =>
      let buffer := buffer ++ data_chunk in
      if contains bCRLFCRLF buffer then Framed buffer unread
      else if limit <? N.of_nat (length buffer) then Framed buffer unread
      else read_request limit unread buffer
  | TimedOut :: unread => Framed buffer unread
  | Failed e :: _ => Aborted e
  end.

Module ThreadPool.
Definition limit : N := 15 * 1024 * 1024.
Definition read_loop : list recv_outcome -> read_result :=
    fun sock => read_request limit sock [].
End ThreadPool.

(** ** The process-pool engine *)

Module ProcessPool.
Definition limit : N := 25 * 1024 * 1024.
Definition read_loop : list recv_outcome -> read_result :=
    fun sock => read_request limit sock [].

  (** [mp.Queue(maxsize=150)] *)
Definition maxsize : nat := 150.

  (** An accepted connection: a descriptor and what its peer will do. *)
Record connection := { fileno : nat; peer : list recv_outcome }.

  (** What travels on the queue: [None], or a 2-tuple whose components may
      themselves be [None]. *)
Inductive queue_item :=
  | PyNone
  | PyTuple (client_socket : option connection) (client_address : option nat).

  (** What happened to a socket handed to a worker. *)
Record served := {
    sent : option bytes;     (* argument of [sendall], if it was called *)
    closed : bool;           (* [close] was called on a socket *)
  }.

Section Worker.
Context `{PyRuntime} `{FileSystem}.
Variable now : clock.

    (** [handle_client_connection]; each worker owns a processor built with
        the default storage path.  With [None] for the socket, [settimeout]
        raises [AttributeError], which is logged, and so does [close] in the
        [finally] clause, where it is swallowed. *)
Definition handle_client_connection (client_socket : option connection)
        (processor : AdvancedHttpProcessor) (s : fs) : fs * served :=
      match client_socket with
      | None => (s, {| sent := None; closed := false |})
      | Some sock =>
          match read_loop (peer sock) with
          | Framed incoming_data _ =>
              if bool_decide (incoming_data = []) then
                (s, {| sent := None; closed := true |})
              else
                match handle_request now processor incoming_data s with
                | (s', Ok http_response) =>
                    (s', {| sent := Some http_response; closed := true |})
                | (s', Raise _) => (s', {| sent := None; closed := true |})
                end
          | Blocked _ | Aborted _ => (s, {| sent := None; closed := true |})
          end
      end.

Inductive worker_state :=
    | Polling (handled_requests : nat)   (* in the loop, at [get] *)
    | Exited.                            (* left the loop by [break] *)

    (** One turn of the loop of [worker_process_function] whose [get]
        returned [connection_data]. *)
Definition worker_turn (connection_data : queue_item)
        (handled_requests : nat) (s : fs)
      : fs * worker_state * option (nat * served) :=
      match connection_data with
      | PyNone => (s, Exited, None)
      | PyTuple client_socket client_address =>
          let handled_requests := S handled_requests in
          let '(s', r) :=
            handle_client_connection client_socket server_files s in
          (s', Polling handled_requests,
           (fun sock => (fileno sock, r)) <$> client_socket)
      end.

Inductive acceptor_state :=
    | Accepting                      (* waiting in [accept] *)
    | Putting (c : connection)       (* waiting in [put(..., timeout=2)] *)
    | Stopped.                       (* left the acceptance loop *)

Record engine := {
      server_active : bool;
      request_queue : list queue_item;       (* oldest first *)
      acceptor : acceptor_state;
      worker_pool : list worker_state;
      dropped : list nat;                    (* sockets closed by the acceptor *)
      served_log : list (nat * served);      (* what workers did, oldest first *)
      store : fs;
    }.

Inductive event :=
    | Accept (c : connection)   (* [accept] returns a connection *)
    | AcceptError               (* [accept] raises [socket.error] *)
    | PutDone                   (* the pending [put] finds a free slot *)
    | PutTimeout                (* the queue stayed full for 2 s: [Full] *)
    | WorkerGet (i : nat)       (* worker [i]'s [get] returns the oldest item *)
    | WorkerEmpty (i : nat)     (* worker [i]'s [get] times out: [Empty] *)
    | Signal.                   (* SIGINT or SIGTERM in the main process *)

    (** Where the acceptor goes after one turn of [while self.server_active]. *)
Definition next_accept (e : engine) : acceptor_state :=
      if server_active e then Accepting else Stopped.

    (** One step of the engine; [None] when the event cannot happen in the
        state. *)
Definition step (e : engine) (ev : event) : option engine :=
      match ev with
      | Accept c =>
          match acceptor e with
          | Accepting =>
              Some {| server_active := server_active e;
                      request_queue := request_queue e;
                      acceptor := Putting c;
                      worker_pool := worker_pool e;
                      dropped := dropped e;
                      served_log := served_log e;
                      store := store e |}
          | _ => None
          end
      | AcceptError =>
          match acceptor e with
          | Accepting =>
              Some {| server_active := server_active e;
                      request_queue := request_queue e;
                      acceptor := Stopped;
                      worker_pool := worker_pool e;
                      dropped := dropped e;
                      served_log := served_log e;
                      store := store e |}
          | _ => None
          end
      | PutDone =>
          match acceptor e with
          | Putting c =>
              if (length (request_queue e) <? maxsize)%nat then
                Some {| server_active := server_active e;
                        request_queue :=
                          request_queue e ++ [PyTuple (Some c) (Some (fileno c))];
                        acceptor := next_accept e;
                        worker_pool := worker_pool e;
                        dropped := dropped e;
                        served_log := served_log e;
                        store := store e |}
              else None
          | _ => None
          end
      | PutTimeout =>
          match acceptor e with
          | Putting c =>
              if (length (request_queue e) <? maxsize)%nat then None
              else
                Some {| server_active := server_active e;
                        request_queue := request_queue e;
                        acceptor := next_accept e;
                        worker_pool := worker_pool e;
                        dropped := dropped e ++ [fileno c];
                        served_log := served_log e;
                        store := store e |}
          | _ => None
          end
      | WorkerGet i =>
          match worker_pool e !! i, request_queue e with
          | Some (Polling handled_requests), connection_data :: rest =>
              let '(s', w, r) :=
                worker_turn connection_data handled_requests (store e) in
              Some {| server_active := server_active e;
                      request_queue := rest;
                      acceptor := acceptor e;
                      worker_pool := <[i := w]> (worker_pool e);
                      dropped := dropped e;
                      served_log := served_log e ++ option_list r;
                      store := s' |}
          | _, _ => None
          end
      | WorkerEmpty i =>
          match worker_pool e !! i, request_queue e with
          | Some (Polling _), [] => Some e
          | _, _ => None
          end
      | Signal =>
          Some {| server_active := false;
                  request_queue := request_queue e;
                  acceptor := acceptor e;
                  worker_pool := worker_pool e;
                  dropped := dropped e;
                  served_log := served_log e;
                  store := store e |}
      end.

Fixpoint run (e : engine) (evs : list event) : option engine :=
      match evs with
      | [] => Some e
      | ev :: evs' => e' ← step e ev; run e' evs'
      end.

    (** [put((None, None), timeout=2)] inside [try ... except: pass], with no
        worker scheduled during the call: the item is added when there is
        room and the call is given up otherwise. *)
Definition put_or_pass (q : list queue_item) (x : queue_item)
      : list queue_item :=
      if (length q <? maxsize)%nat then q ++ [x] else q.

    (** [terminate_server], lines 215-230: the flag, then one [put] per
        worker.  Closing the listening socket and joining the workers are
        not represented. *)
Definition terminate_server (e : engine) : engine :=
      {| server_active := false;
         request_queue :=
           fold_left (fun q _ => put_or_pass q (PyTuple None None))
             (worker_pool e) (request_queue e);
         acceptor := Stopped;
         worker_pool := worker_pool e;
         dropped := dropped e;
         served_log := served_log e;
         store := store e |}.
End Worker.
End ProcessPool.

(** ** Vocabulary of the statements *)

(** Apply [f] to the first element of a list. *)
Definition map_head {A} (f : A -> A) (ls : list A) : list A :=
  match ls with
  | [] => []
  | l :: ls' => f l :: ls'
  end.

(** A code point that UTF-8 can carry: at most U+10FFFF and no surrogate. *)
Definition scalarb (c : N) : bool := (c <? 0x110000) && negb (is_surrogate c).

(** [s.encode('utf-8')] does not raise. *)
Definition encodable (s : str) : bool := forallb scalarb s.

Definition encodable_content (c : bytes_or_str) : bool :=
  match c with
  | Bytes _ => true
  | Str s => encodable s
  end.

Definition encodable_headers (hs : list (str * str)) : bool :=
  forallb (fun '(n, v) => encodable n && encodable v) hs.

Definition is_asciib (c : N) : bool := c <? 128.

(** What is assumed of the interpreter: upper-casing works character by
    character and is the usual one on ASCII text, and the text of a codec
    error can itself be encoded. *)
Record PyRuntimeLaws (R : PyRuntime) : Prop := {
  upper_ascii : forall s, forallb is_asciib s = true ->
                          str_upper s = map ascii_upper s;
  upper_app : forall a b, str_upper (a ++ b) = str_upper a ++ str_upper b;
  decode_error_encodable : forall b, encodable (decode_error_str b) = true;
  encode_error_encodable : forall s, encodable (encode_error_str s) = true;
}.

(** An exception as the operating system raises them: an [Exception] whose
    text can be encoded. *)
Definition os_exn (e : exn) : bool :=
  is_Exception (exn_class e) && encodable (exn_str e).

(** What is assumed of the file system: a file written can be read back
    under the same path, a path removed no longer exists, a regular file
    exists, and failures are [os_exn]. *)
Record FileSystemLaws (F : FileSystem) : Prop := {
  write_then_read : forall s p d s',
    write_file s p d = (s', Ok tt) ->
    os_path_isfile s' p = true /\ read_file s' p = Ok d;
  remove_then_absent : forall s p s',
    os_remove s p = (s', Ok tt) -> os_path_exists s' p = false;
  isfile_exists : forall s p,
    os_path_isfile s p = true -> os_path_exists s p = true;
  getsize_raises : forall s p e,
    os_path_getsize s p = Raise e -> os_exn e = true;
  listdir_raises : forall s p e,
    os_listdir s p = Raise e -> os_exn e = true;
  read_raises : forall s p e,
    read_file s p = Raise e -> os_exn e = true;
  write_raises : forall s p d s' e,
    write_file s p d = (s', Raise e) -> os_exn e = true;
  remove_raises : forall s p s' e,
    os_remove s p = (s', Raise e) -> os_exn e = true;
}.

(** The header section [build_response] sends for a body of
    [content_length] elements. *)
Definition response_head (now : clock) (status_code : Z) (status_text : str)
    (content_length : nat) (extra_headers : list (str * str)) : str :=
  concat
    ([ st "HTTP/1.1 " ++ str_of_Z status_code ++ st " " ++ status_text ++ CRLF;
       st "Date: " ++ now_strftime now ++ CRLF;
       st "Connection: close" ++ CRLF;
       st "Server: AdvancedHttpServer/1.5" ++ CRLF;
       st "Content-Length: " ++ str_of_nat content_length ++ CRLF ]
     ++ map (fun '(header_name, header_value) =>
               header_name ++ st ": " ++ header_value ++ CRLF) extra_headers
     ++ [CRLF]).

(** [r] is a complete response with status [status_code]: status line,
    headers, blank line and body as [build_response] assembles them. *)
Definition responds `{PyRuntime} (now : clock) (status_code : Z) (r : bytes)
  : Prop :=
  exists status_text content extra_headers,
    build_response now status_code status_text content extra_headers = Ok r.

(** The loop of [read_request] is left on a buffer that holds the header
    terminator or is longer than [limit]. *)
Definition loop_left (limit : N) (buffer : bytes) : bool :=
  contains bCRLFCRLF buffer || (limit <? N.of_nat (length buffer)).

(** The boundary as [parse_form_data] uses it, when it can be encoded. *)
Definition boundary_bytes (boundary_string : bytes_or_str) : option bytes :=
  match boundary_string with
  | Bytes b => Some b
  | Str s => utf8_encode s
  end.

(** The quoted value of the filename attribute of a part. *)
Definition filename_attribute (part : bytes) : option bytes :=
  re_search_filename (bs "filename=" ++ [bQUOTE]) bQUOTE part.

(** The filename attribute of a part that also holds Content-Disposition. *)
Definition names_file (part : bytes) : option bytes :=
  if contains (bs "Content-Disposition") part then filename_attribute part
  else None.

(** What follows the separator found at index [i], less one trailing CRLF. *)
Definition part_content (part : bytes) (i : nat) : bytes :=
  let file_content := drop (i + 4) part in
  if endswith bCRLF file_content
  then take (length file_content - 2) file_content
  else file_content.

(** A part the scan passes over although it names a file: its filename
    decodes and it has no separator. *)
Definition passed_over (part : bytes) : Prop :=
  forall raw, names_file part = Some raw ->
    is_Some (utf8_decode raw) /\ find bCRLFCRLF part = None.

(** The upload handler stored [P] under the name [X]: it reached the write
    of lines 201-203 with that name and those bytes, and the write did not
    raise; [s'] is the file system after it. *)
Definition uploads `{PyRuntime} `{FileSystem} (self : AdvancedHttpProcessor)
    (now : clock) (request_body : bytes) (headers_dict : gmap str str)
    (s : fs) (X : str) (P : bytes) (s' : fs) : Prop :=
  exists filename,
    upload_source now request_body headers_dict = Ok (inr (Some filename, P))
    /\ filename <> []
    /\ X = safe_filename now filename
    /\ write_file s (os_path_join (storage_directory self) X) P = (s', Ok tt).

(** The names that [handle_get] answers itself instead of serving a file. *)
Definition reserved_names : list str :=
  [st "redirect"; st "status"; st "directory"].

(** ** Concrete inputs *)

(** A request for a file whose name is one non-ASCII character (U+00E9). *)
Definition get_e_acute : bytes :=
  bs "GET /" ++ [xc3; xa9] ++ bs " HTTP/1.1" ++ bCRLFCRLF.

(** An upload whose declared body of 10 bytes arrives in two reads. *)
Definition slow_upload : list recv_outcome :=
  [ Received (bs "POST /file-upload HT");
    Received (bs "TP/1.1" ++ bCRLF ++ bs "X-Upload-Filename: a.txt" ++ bCRLF
              ++ bs "Content-Length: 10" ++ bCRLF);
    Received (bCRLF ++ bs "abc");
    Received (bs "defghij") ].

(** A multipart body with boundary [B] whose first file part has no blank
    line after its headers and whose second is complete. *)
Definition two_file_parts : bytes :=
  bs "--B" ++ bCRLF
  ++ bs "Content-Disposition: form-data; name=f; filename=" ++ [bQUOTE]
  ++ bs "a.txt" ++ [bQUOTE] ++ bCRLF
  ++ bs "--B" ++ bCRLF
  ++ bs "Content-Disposition: form-data; name=g; filename=" ++ [bQUOTE]
  ++ bs "b.txt" ++ [bQUOTE] ++ bCRLFCRLF
  ++ bs "BBB" ++ bCRLF
  ++ bs "--B--" ++ bCRLF.

(** A multipart upload, boundary [B], of a file whose name ends in a
    slash. *)
Definition upload_trailing_slash : bytes :=
  bs "--B" ++ bCRLF
  ++ bs "Content-Disposition: form-data; name=f; filename=" ++ [bQUOTE]
  ++ bs "docs/" ++ [bQUOTE] ++ bCRLFCRLF
  ++ bs "DATA" ++ bCRLF
  ++ bs "--B--" ++ bCRLF.

Definition multipart_headers : gmap str str :=
  {[ st "content-type" := st "multipart/form-data; boundary=B" ]}.

(** A raw upload named by the [X-Upload-Filename] header. *)
Definition upload_named (name : string) : gmap str str :=
  {[ st "x-upload-filename" := st name ]}.

Module Scenario.
Import ProcessPool.

(** A client that connects and closes at once. *)
Definition idle (n : nat) : connection :=
  {| fileno := n; peer := [Received []] |}.

(** A client that asks for the status page. *)
Definition client (n : nat) : connection :=
  {| fileno := n;
     peer := [Received (bs "GET /status HTTP/1.1" ++ bCRLFCRLF)] |}.

(** Two workers polling an empty queue. *)
Definition two_workers : @engine mem_fs :=
  {| server_active := true;
     request_queue := [];
     acceptor := Accepting;
     worker_pool := [Polling 0; Polling 0];
     dropped := [];
     served_log := [];
     store := ((∅ : gmap str bytes) : @fs mem_fs) |}.

(** One worker, and a queue holding [maxsize] connections. *)
Definition saturated : @engine mem_fs :=
  {| server_active := true;
     request_queue := map (fun n => PyTuple (Some (idle n)) (Some n)) (seq 0 maxsize);
     acceptor := Accepting;
     worker_pool := [Polling 0];
     dropped := [];
     served_log := [];
     store := ((∅ : gmap str bytes) : @fs mem_fs) |}.
End Scenario.

(** ** Vocabulary of the further properties *)

(** The outcome [r] of a handler is a complete response whose status is one
    of [codes]. *)
Definition answers `{PyRuntime} (now : clock) (codes : list Z)
    (r : result bytes) : Prop :=
  exists b code, r = Ok b /\ code ∈ codes /\ responds now code b.

(** Every value of a header dictionary can be encoded. *)
Definition encodable_dict (headers : gmap str str) : Prop :=
  map_Forall (fun _ v => encodable v = true) headers.

(** Handler methods that raise [e] whatever they are given, as an
    overriding subclass could define them. *)
Definition raising_handlers `{FileSystem} (e : exn) : handlers :=
  {| self_handle_upload := fun _ _ s => (s, Raise e);
     self_handle_get := fun _ _ s => (s, Raise e);
     self_handle_delete := fun _ _ s => (s, Raise e) |}.

(** The handler call of lines 143-148 for a parsed request. *)
Definition dispatch `{FileSystem} (self : handlers) (r : route)
    (request_path : str) (request_headers : gmap str str)
    (request_body : bytes) (s : fs) : option (fs * result bytes) :=
  match r with
  | ToUpload => Some (self_handle_upload self request_body request_headers s)
  | ToGet => Some (self_handle_get self request_path request_headers s)
  | ToDelete => Some (self_handle_delete self request_path request_headers s)
  | NotAllowed => None
  end.

(** A multipart body with boundary [B] whose first file part carries a
    filename that is not valid UTF-8 and whose second is complete. *)
Definition undecodable_then_complete : bytes :=
  bs "--B" ++ bCRLF
  ++ bs "Content-Disposition: form-data; name=f; filename=" ++ [bQUOTE]
  ++ [xff] ++ bs ".txt" ++ [bQUOTE] ++ bCRLFCRLF
  ++ bs "AAA" ++ bCRLF
  ++ bs "--B" ++ bCRLF
  ++ bs "Content-Disposition: form-data; name=g; filename=" ++ [bQUOTE]
  ++ bs "ok.txt" ++ [bQUOTE] ++ bCRLFCRLF
  ++ bs "BBB" ++ bCRLF
  ++ bs "--B--" ++ bCRLF.

(** ** Requests as byte sequences *)

(** The request line of a request as lines 115-125 read it: the header
    section is what precedes the first CR LF CR LF, and its first line is
    the decoded text up to the first CR LF. *)
Definition request_line (request_data : bytes) : option str :=
  header_boundary ← find bCRLFCRLF request_data;
  header_text ← utf8_decode (take header_boundary request_data);
  head (split CRLF header_text).

(** [request_data] is a request whose request line reads: the method, a
    space, the target, a space, and a protocol version.  Header lines and
    body are whatever they are. *)
Definition asks (method target : str) (request_data : bytes) : Prop :=
  exists version,
    request_line request_data
    = Some (method ++ SPACE :: target ++ SPACE :: version).

(** The handler call that lines 143-148 make for a request: the branch
    taken, with the path, the headers and the body that are passed on;
    [None] when the request is answered before it is routed. *)
Definition routing `{PyRuntime} (request_data : bytes)
    : option (route * str * gmap str str * bytes) :=
  match find bCRLFCRLF request_data with
  | None => None
  | Some header_boundary =>
      match parse_head (take header_boundary request_data) with
      | Ok (Some (http_method, request_path, _, request_headers)) =>
          Some (route_of http_method request_path, request_path,
                request_headers, drop (header_boundary + 4) request_data)
      | _ => None
      end
  end.

(** The characters a method may hold for the purposes of C10: ASCII other
    than carriage return and space.  Two byte sequences are the same up to
    the case of letters when they hold such characters only, position by
    position equal after ASCII upper-casing. *)
Definition method_char (c : N) : bool :=
  (c <? 128) && negb (c =? 13) && negb (c =? 32).

Definition same_letter (a b : byte) : bool :=
  method_char (Byte.to_N a) && method_char (Byte.to_N b)
  && (ascii_upper (Byte.to_N a) =? ascii_upper (Byte.to_N b)).

Fixpoint recased (m1 m2 : bytes) : bool :=
  match m1, m2 with
  | [], [] => true
  | a :: m1', b :: m2' => same_letter a b && recased m1' m2'
  | _, _ => false
  end.

(** A body whose length in characters is its length in bytes: a [bytes],
    or a [str] of ASCII characters. *)
Definition ascii_content (content : bytes_or_str) : bool :=
  match content with
  | Bytes _ => true
  | Str s => forallb is_asciib s
  end.

(** The bytes of a body on the wire. *)
Definition wire_body (content : bytes_or_str) : option bytes :=
  match content with
  | Bytes b => Some b
  | Str s => utf8_encode s
  end.

(** No single [recv] of the script returns more than [bufsize] bytes, as
    [recv(bufsize)] guarantees. *)
Definition recv_at_most (bufsize : N) (outcome : recv_outcome) : Prop :=
  match outcome with
  | Received data_chunk => N.of_nat (length data_chunk) <= bufsize
  | _ => True
  end.

(** ** The thread-pool engine: one request *)

(** [process_client_request], lines 57-114, for a peer that behaves as
    [peer]; the request counter and the log are left out.  As in the
    process-pool worker, the socket is closed in the [finally] clause. *)
Definition process_client_request `{PyRuntime} `{FileSystem} (now : clock)
    (http_processor : AdvancedHttpProcessor) (peer : list recv_outcome)
    (s : fs) : fs * ProcessPool.served :=
  match ThreadPool.read_loop peer with
  | Framed request_buffer _ =>
      if bool_decide (request_buffer = []) then
        (s, {| ProcessPool.sent := None; ProcessPool.closed := true |})
      else
        match handle_request now http_processor request_buffer s with
        | (s', Ok response_data) =>
            (s', {| ProcessPool.sent := Some response_data;
                    ProcessPool.closed := true |})
        | (s', Raise _) =>
            (s', {| ProcessPool.sent := None; ProcessPool.closed := true |})
        end
  | Blocked _ | Aborted _ =>
      (s, {| ProcessPool.sent := None; ProcessPool.closed := true |})
  end.

(** ** The client

    [client.py], class [FileTransferClient]: the request that
    [send_file_to_server] hands to [sendall]. *)

Record FileTransferClient := { server_host : str }.

(** The text of lines 119-125, for the name and the bytes of the file. *)
Definition upload_request_text (self : FileTransferClient) (filename : str)
    (file_bytes : bytes) : str :=
  st "POST /file-upload HTTP/1.1" ++ CRLF
  ++ st "Host: " ++ server_host self ++ CRLF
  ++ st "User-Agent: FileUploader/1.5" ++ CRLF
  ++ st "X-Upload-Filename: " ++ filename ++ CRLF
  ++ st "Content-Type: application/octet-stream" ++ CRLF
  ++ st "Content-Length: " ++ str_of_nat (length file_bytes) ++ CRLF
  ++ CRLF.

(** [send_file_to_server], lines 115-126: the request for the file at
    [file_path] whose content is [file_bytes]. *)
Definition send_file_to_server `{PyRuntime} (self : FileTransferClient)
    (file_path : str) (file_bytes : bytes) : result bytes :=
  let filename := os_path_basename file_path in
  http_request ← str_encode (upload_request_text self filename file_bytes);
  Ok (http_request ++ file_bytes).

(** A header line: the key, a colon, a space and the value. *)
Definition header_line (key value : str) : str :=
  key ++ COLON :: SPACE :: value.

(** ASCII text without a carriage return, as a header value must be to stay
    on its line. *)
Definition plain_text (s : str) : bool :=
  forallb (fun c => is_asciib c && negb (c =? CR)) s.

(** [str.lower] is the usual mapping on ASCII text. *)
Definition lower_ascii (R : PyRuntime) : Prop :=
  forall s, forallb is_asciib s = true -> str_lower s = map ascii_lower s.

(** * Properties *)

(** ** Sequences *)

Section SeqFacts.
Context {A : Type} `{EqDecision A}.
Implicit Types (l pat pre sep cur : list A).

Lemma startswith_app pre l : startswith pre (pre ++ l) = true.
Proof.
  induction pre as [|p pre IH]; simpl; [done|].
  rewrite bool_decide_eq_true_2 by done. exact IH.
Qed.

Lemma startswith_true pre l :
  startswith pre l = true -> exists r, l = pre ++ r.
Proof.
  revert l. induction pre as [|p pre IH]; intros l Hs; simpl in *.
  - by exists l.
  - destruct l as [|x l]; [done|].
    apply andb_true_iff in Hs as [Hpx Hs].
    apply bool_decide_eq_true_1 in Hpx as ->.
    destruct (IH _ Hs) as [r ->]. by exists r.
Qed.

Lemma startswith_prefix pre pre' l :
  startswith (pre ++ pre') l = true -> startswith pre l = true.
Proof.
  intros Hs. apply startswith_true in Hs as [r ->].
  rewrite <- app_assoc. apply startswith_app.
Qed.

Lemma startswith_cons_ne p pre x l :
  p <> x -> startswith (p :: pre) (x :: l) = false.
Proof. intros Hne. simpl. by rewrite bool_decide_eq_false_2. Qed.

Lemma find_Some_inv pat l i :
  find pat l = Some i -> startswith pat (drop i l) = true /\ (i <= length l)%nat.
Proof.
  revert i. induction l as [|x l IH]; intros i; simpl.
  - destruct (startswith pat []) eqn:E; [|done]. intros [= <-]. by split.
  - destruct (startswith pat (x :: l)) eqn:E.
    + intros [= <-]. split; [exact E|lia].
    + destruct (find pat l) as [j|] eqn:Ef; simpl; [|done].
      intros [= <-]. destruct (IH j eq_refl) as [? ?]. split; [done|simpl; lia].
Qed.

Lemma find_prefix pat pat' l i :
  find (pat ++ pat') l = Some i -> is_Some (find pat l).
Proof.
  revert i. induction l as [|x l IH]; intros i; simpl.
  - destruct (startswith (pat ++ pat') []) eqn:E; [|done].
    intros _. by rewrite (startswith_prefix _ _ _ E).
  - destruct (startswith (pat ++ pat') (x :: l)) eqn:E.
    + intros _. by rewrite (startswith_prefix _ _ _ E).
    + destruct (find (pat ++ pat') l) as [j|] eqn:Ef; simpl; [|done].
      intros _. destruct (startswith pat (x :: l)); [done|].
      destruct (IH j eq_refl) as [k ->]. done.
Qed.

(** A pattern cannot begin inside a stretch free of its first element. *)
Lemma find_skip p pat m l :
  Forall (fun x => x <> p) m ->
  find (p :: pat) (m ++ l) = (fun i => length m + i)%nat <$> find (p :: pat) l.
Proof.
  induction 1 as [|x m Hx _ IH]; simpl app.
  - destruct (find (p :: pat) l); done.
  - cbn [find]. rewrite startswith_cons_ne by done.
    rewrite IH. destruct (find (p :: pat) l); done.
Qed.

Lemma split_go_cur sep l skip cur :
  split_go sep l skip cur = map_head (app (rev cur)) (split_go sep l skip []).
Proof.
  revert skip cur. induction l as [|x l IH]; intros skip cur.
  - simpl. by rewrite app_nil_r.
  - cbn [split_go]. destruct skip as [|k].
    + destruct (startswith sep (x :: l)).
      * simpl. by rewrite app_nil_r.
      * rewrite (IH 0%nat (x :: cur)), (IH 0%nat [x]).
        destruct (split_go sep l 0 []); simpl; [done|].
        by rewrite <- app_assoc.
    + apply IH.
Qed.

(** Splitting after a stretch free of the separator's first element. *)
Lemma split_skip p sep m l :
  Forall (fun x => x <> p) m ->
  split (p :: sep) (m ++ l) = map_head (app m) (split (p :: sep) l).
Proof.
  unfold split. intros Hm.
  assert (forall cur, split_go (p :: sep) (m ++ l) 0 cur
                      = split_go (p :: sep) l 0 (rev m ++ cur)) as Hgo.
  { induction Hm as [|x m Hx _ IH]; intros cur; [done|].
    simpl app. cbn [split_go]. rewrite startswith_cons_ne by done.
    rewrite IH. simpl. by rewrite <- app_assoc. }
  rewrite Hgo, split_go_cur, app_nil_r, rev_involutive. done.
Qed.

Lemma split_go_nonempty sep l skip cur : split_go sep l skip cur <> [].
Proof.
  revert skip cur. induction l as [|x l IH]; intros skip cur; simpl; [done|].
  destruct skip; [|apply IH]. destruct (startswith sep (x :: l)); [done|apply IH].
Qed.

Lemma split_go_Forall (P : A -> Prop) sep l skip cur :
  Forall P l -> Forall P cur -> Forall (Forall P) (split_go sep l skip cur).
Proof.
  intros Hl. revert skip cur.
  induction Hl as [|x l Hx Hl IH]; intros skip cur Hcur; simpl.
  - constructor; [|constructor]. by apply Forall_rev.
  - destruct skip; [|by apply IH].
    destruct (startswith sep (x :: l)).
    + constructor; [by apply Forall_rev|]. by apply IH.
    + apply IH. by constructor.
Qed.

Lemma split_Forall (P : A -> Prop) sep l :
  Forall P l -> Forall (Forall P) (split sep l).
Proof. intros. by apply split_go_Forall. Qed.

Lemma take_while_Forall (P : A -> Prop) f l :
  Forall P l -> Forall P (take_while f l).
Proof.
  induction 1 as [|x l Hx Hl IH]; simpl; [done|].
  destruct (f x); [by constructor|done].
Qed.

Lemma drop_while_Forall (P : A -> Prop) f l :
  Forall P l -> Forall P (drop_while f l).
Proof.
  induction 1 as [|x l Hx Hl IH]; simpl; [done|].
  destruct (f x); [done|by constructor].
Qed.

Lemma take_while_holds f l : Forall (fun x => f x = true) (take_while f l).
Proof.
  induction l as [|x l IH]; simpl; [done|].
  destruct (f x) eqn:E; [by constructor|done].
Qed.

Lemma rfind1_None c l : rfind1 c l = None -> c ∉ l.
Proof.
  induction l as [|x l IH]; simpl; [intros _; apply not_elem_of_nil|].
  destruct (rfind1 c l); [done|]. destruct (decide (x = c)); [done|].
  intros _. apply not_elem_of_cons. split; [done|by apply IH].
Qed.

Lemma rfind1_not_in c l : c ∉ l -> rfind1 c l = None.
Proof.
  induction l as [|x l IH]; simpl; [done|].
  intros [Hne Hl]%not_elem_of_cons. rewrite IH by done.
  destruct (decide (x = c)); congruence.
Qed.
End SeqFacts.

(** ** The codec and encodable text *)

Lemma encodable_app a b : encodable (a ++ b) = encodable a && encodable b.
Proof. apply forallb_app. Qed.

Lemma encodable_Forall s : encodable s = true <-> Forall (fun c => scalarb c = true) s.
Proof.
  unfold encodable. induction s as [|c s IH]; simpl.
  - split; [constructor|done].
  - rewrite andb_true_iff, Forall_cons, IH. done.
Qed.

Lemma encodable_take n s : encodable s = true -> encodable (take n s) = true.
Proof. rewrite !encodable_Forall. apply Forall_take. Qed.

Lemma encodable_drop n s : encodable s = true -> encodable (drop n s) = true.
Proof. rewrite !encodable_Forall. apply Forall_drop. Qed.

Lemma encodable_strip s : encodable s = true -> encodable (strip s) = true.
Proof.
  rewrite !encodable_Forall. intros Hs. unfold strip.
  apply Forall_rev, drop_while_Forall, Forall_rev, drop_while_Forall, Hs.
Qed.

Lemma encodable_take_while f s :
  encodable s = true -> encodable (take_while f s) = true.
Proof. rewrite !encodable_Forall. apply take_while_Forall. Qed.

Lemma encodable_basename p :
  encodable p = true -> encodable (os_path_basename p) = true.
Proof.
  intros Hp. unfold os_path_basename.
  destruct (rfind1 SLASH p); [by apply encodable_drop|done].
Qed.

Lemma encodable_uint d :
  encodable (st (NilEmpty.string_of_uint d)) = true.
Proof. induction d; simpl; try done; exact IHd. Qed.

Lemma encodable_str_of_Z z : encodable (str_of_Z z) = true.
Proof.
  unfold str_of_Z, NilZero.string_of_int, NilZero.string_of_uint.
  destruct (Z.to_int z) as [d|d]; destruct d;
    first [done | apply (encodable_uint (Decimal.D0 _))].
Qed.

Lemma utf8_encode_cp_Some c :
  scalarb c = true -> exists b, utf8_encode_cp c = Some b.
Proof.
  unfold scalarb, utf8_encode_cp. intros [Hc Hs]%andb_true_iff.
  apply negb_true_iff in Hs. rewrite Hs, Hc.
  repeat case_match; eauto.
Qed.

Lemma utf8_encode_Some s :
  encodable s = true -> exists b, utf8_encode s = Some b.
Proof.
  induction s as [|c s IH]; simpl; [eauto|].
  intros [Hc Hs]%andb_true_iff.
  destruct (utf8_encode_cp_Some c Hc) as [b ->].
  destruct (IH Hs) as [b' ->]. eauto.
Qed.

Lemma utf8_encode_app a b ea eb :
  utf8_encode a = Some ea -> utf8_encode b = Some eb ->
  utf8_encode (a ++ b) = Some (ea ++ eb).
Proof.
  revert ea. induction a as [|c a IH]; intros ea; simpl.
  - intros [= <-]. done.
  - destruct (utf8_encode_cp c) as [bc|]; [|done].
    destruct (utf8_encode a) as [ea'|]; [|done].
    intros [= <-] Hb. rewrite (IH _ eq_refl Hb). by rewrite app_assoc.
Qed.

Section CodecFacts.
Context `{PyRuntime}.

Lemma str_encode_ok s :
  encodable s = true -> exists b, str_encode s = Ok b /\ utf8_encode s = Some b.
Proof.
  intros Hs. destruct (utf8_encode_Some s Hs) as [b Hb].
  exists b. unfold str_encode. by rewrite Hb.
Qed.

Lemma str_encode_raises s e :
  str_encode s = Raise e ->
  exn_class e = UnicodeEncodeError /\ exn_str e = encode_error_str s.
Proof. unfold str_encode. destruct (utf8_encode s); [done|]. by intros [= <-]. Qed.

Lemma bytes_decode_raises b e :
  bytes_decode b = Raise e ->
  exn_class e = UnicodeDecodeError /\ exn_str e = decode_error_str b.
Proof. unfold bytes_decode. destruct (utf8_decode b); [done|]. by intros [= <-]. Qed.
End CodecFacts.

Lemma to_N_lt_256 b : Byte.to_N b < 256.
Proof. pose proof (Byte.to_N_bounded b). lia. Qed.

Lemma scalarb_intro v :
  v < 0xD800 \/ (0xE000 <= v /\ v < 0x110000) -> scalarb v = true.
Proof.
  intros Hv. unfold scalarb, is_surrogate, in_range.
  apply andb_true_iff; split; [apply N.ltb_lt; lia|].
  apply negb_true_iff, andb_false_iff.
  destruct Hv as [Hv|Hv]; [left|right]; apply N.leb_gt; lia.
Qed.

(** Boolean comparisons in the context, as propositions. *)
Ltac bool_to_prop :=
  repeat match goal with
    | H : _ && _ = true |- _ => apply andb_true_iff in H as [? ?]
    | H : (_ <=? _) = true |- _ => apply N.leb_le in H
    | H : (_ <=? _) = false |- _ => apply N.leb_gt in H
    | H : (_ <? _) = true |- _ => apply N.ltb_lt in H
    | H : (_ <? _) = false |- _ => apply N.ltb_ge in H
    | H : (_ =? _) = true |- _ => apply N.eqb_eq in H
    | H : (_ =? _) = false |- _ => apply N.eqb_neq in H
    end.

Lemma utf8_decode_encodable b s :
  utf8_decode b = Some s -> encodable s = true.
Proof.
  remember (length b) as n eqn:Hn. revert b s Hn.
  induction n as [n IH] using lt_wf_ind. intros b s Hn.
  assert (forall r v, (length r < n)%nat -> scalarb v = true ->
            cons v <$> utf8_decode r = Some s -> encodable s = true) as Hstep.
  { intros r v Hr Hv. destruct (utf8_decode r) as [s0|] eqn:Hd; [|done].
    intros [= <-]. simpl. rewrite Hv. simpl. by eapply (IH (length r)). }
  destruct b as [|b0 r0]; simpl; [by intros [= <-]|]. simpl in Hn.
  unfold is_cont, second_lo, second_hi, in_range.
  pose proof (to_N_lt_256 b0) as H0.
  destruct (Byte.to_N b0 <? 128) eqn:E0.
  { apply Hstep; [lia|]. bool_to_prop. apply scalarb_intro. lia. }
  destruct ((194 <=? Byte.to_N b0) && (Byte.to_N b0 <=? 223)) eqn:E1.
  { destruct r0 as [|b1 r1]; [done|]. simpl in Hn.
    destruct ((128 <=? Byte.to_N b1) && (Byte.to_N b1 <=? 191)) eqn:E2; [|done].
    apply Hstep; [lia|]. bool_to_prop. apply scalarb_intro. lia. }
  destruct ((224 <=? Byte.to_N b0) && (Byte.to_N b0 <=? 239)) eqn:E2.
  { destruct r0 as [|b1 [|b2 r2]]; [done..|]. simpl in Hn.
    match goal with |- (if ?c then _ else _) = _ -> _ => destruct c eqn:E3 end;
      [|done].
    apply Hstep; [lia|]. apply scalarb_intro.
    repeat match goal with
      | H : context [if ?c then _ else _] |- _ => destruct c eqn:?
      end; bool_to_prop; lia. }
  destruct ((240 <=? Byte.to_N b0) && (Byte.to_N b0 <=? 244)) eqn:E3; [|done].
  destruct r0 as [|b1 [|b2 [|b3 r3]]]; [done..|]. simpl in Hn.
  match goal with |- (if ?c then _ else _) = _ -> _ => destruct c eqn:E4 end;
    [|done].
  apply Hstep; [lia|]. apply scalarb_intro.
  repeat match goal with
    | H : context [if ?c then _ else _] |- _ => destruct c eqn:?
    end; bool_to_prop; lia.
Qed.

(** ** [build_response] *)

Create HintDb enc discriminated.

#[export] Hint Resolve encodable_str_of_Z encodable_take encodable_drop
  encodable_strip encodable_take_while encodable_basename : enc.

(** Encodability of a text built by concatenation. *)
Ltac enc :=
  repeat first
    [ progress rewrite ?encodable_app, ?andb_true_iff
    | split
    | reflexivity
    | assumption
    | solve [eauto with enc] ].

Lemma encodable_concat ls :
  forallb encodable ls = true -> encodable (concat ls) = true.
Proof.
  induction ls as [|l ls IH]; simpl; [done|].
  intros [Hl Hls]%andb_true_iff. rewrite encodable_app, Hl. by apply IH.
Qed.

Lemma encodable_response_head now code text n extra :
  encodable (now_strftime now) = true -> encodable text = true ->
  encodable_headers extra = true ->
  encodable (response_head now code text n extra) = true.
Proof.
  intros Hd Ht He. unfold response_head, str_of_nat. apply encodable_concat.
  rewrite !forallb_app, !andb_true_iff. split; [|split].
  - cbn [forallb]. rewrite !encodable_app, Hd, Ht, !encodable_str_of_Z.
    reflexivity.
  - induction extra as [|[n0 v0] extra IH]; [done|].
    cbn [map forallb encodable_headers] in *.
    apply andb_true_iff in He as [[Hn Hv]%andb_true_iff He].
    rewrite (IH He), andb_true_r, !encodable_app, Hn, Hv. reflexivity.
  - done.
Qed.

Section ResponseFacts.
Context `{PyRuntime}.

Lemma build_response_eq now code text content extra :
  build_response now code text content extra =
    (body ← match content with Bytes b => Ok b | Str s => str_encode s end;
     header ← str_encode (response_head now code text (len content) extra);
     Ok (header ++ body)).
Proof. reflexivity. Qed.

Lemma build_response_ok now code text content extra :
  encodable (now_strftime now) = true -> encodable text = true ->
  encodable_content content = true -> encodable_headers extra = true ->
  exists r, build_response now code text content extra = Ok r.
Proof.
  intros Hd Ht Hc He. rewrite build_response_eq.
  destruct (str_encode_ok _ (encodable_response_head now code text (len content)
                               extra Hd Ht He)) as (hd & -> & _).
  destruct content as [b|s]; simpl.
  - eauto.
  - destruct (str_encode_ok s Hc) as (b & -> & _). simpl. eauto.
Qed.

Lemma build_response_responds now code text content extra :
  encodable (now_strftime now) = true -> encodable text = true ->
  encodable_content content = true -> encodable_headers extra = true ->
  exists r, build_response now code text content extra = Ok r
            /\ responds now code r.
Proof.
  intros Hd Ht Hc He.
  destruct (build_response_ok now code text content extra Hd Ht Hc He) as [r Hr].
  exists r. split; [done|]. by exists text, content, extra.
Qed.

(** For a [bytes] body the response is the header section, whose
    Content-Length is the number of bytes, followed by the body unchanged. *)
Lemma build_response_bytes now code text b extra :
  encodable (now_strftime now) = true -> encodable text = true ->
  encodable_headers extra = true ->
  exists header,
    utf8_encode (response_head now code text (length b) extra) = Some header
    /\ build_response now code text (Bytes b) extra = Ok (header ++ b).
Proof.
  intros Hd Ht He. rewrite build_response_eq.
  destruct (str_encode_ok _ (encodable_response_head now code text (length b)
                               extra Hd Ht He)) as (hd & Hs & Hu).
  exists hd. split; [done|]. simpl. rewrite Hs. done.
Qed.

(** An exception leaving [build_response] is a [UnicodeEncodeError]. *)
Lemma build_response_raises now code text content extra e :
  build_response now code text content extra = Raise e ->
  exn_class e = UnicodeEncodeError /\ exists s, exn_str e = encode_error_str s.
Proof.
  rewrite build_response_eq.
  set (hd := response_head _ _ _ _ _).
  destruct content as [b|s]; simpl.
  - destruct (str_encode hd) eqn:E; simpl; [done|]. intros [= <-].
    apply str_encode_raises in E as [? ?]. eauto.
  - destruct (str_encode s) eqn:Es; simpl.
    + destruct (str_encode hd) eqn:E; simpl; [done|]. intros [= <-].
      apply str_encode_raises in E as [? ?]. eauto.
    + intros [= <-]. apply str_encode_raises in Es as [? ?]. eauto.
Qed.
End ResponseFacts.

(** ** The response builder (C1) *)

(** C1 (defect of the code).  [build_response] formats the Content-Length
    line from [len(content)] before a [str] body is encoded, so the header
    counts code points while the wire carries UTF-8 bytes.  For the
    one-character body U+00E9 the header announces 1 and two bytes follow;
    through [handle_request], a GET for the file of that name on an empty
    store is answered 404 with Content-Length 16 and a body of 17 bytes. *)
Theorem build_response_content_length_str :
  build_response (H := ascii_runtime) clock0 200 (st "OK") (Str [233]) []
  = Ok (bs "HTTP/1.1 200 OK" ++ bCRLF
        ++ bs "Date: Thu, 01 Jan 2026 00:00:00 GMT" ++ bCRLF
        ++ bs "Connection: close" ++ bCRLF
        ++ bs "Server: AdvancedHttpServer/1.5" ++ bCRLF
        ++ bs "Content-Length: 1" ++ bCRLF
        ++ bCRLF
        ++ [xc3; xa9])
  /\ handle_request (H := ascii_runtime) (H0 := mem_fs) clock0 server_files
       get_e_acute ∅
     = (∅, Ok (bs "HTTP/1.1 404 Not Found" ++ bCRLF
               ++ bs "Date: Thu, 01 Jan 2026 00:00:00 GMT" ++ bCRLF
               ++ bs "Connection: close" ++ bCRLF
               ++ bs "Server: AdvancedHttpServer/1.5" ++ bCRLF
               ++ bs "Content-Length: 16" ++ bCRLF
               ++ bCRLF
               ++ bs "File " ++ [xc3; xa9] ++ bs " not found"))
  /\ length (bs "File " ++ [xc3; xa9] ++ bs " not found") = 17%nat.
Proof. split; [|split]; vm_compute; reflexivity. Qed.

(** ** The read loop (C5) *)

Lemma read_request_chunk limit d unread buffer :
  d <> [] ->
  read_request limit (Received d :: unread) buffer =
    if loop_left limit (buffer ++ d) then Framed (buffer ++ d) unread
    else read_request limit unread (buffer ++ d).
Proof.
  intros Hd. destruct d as [|b d]; [done|]. cbn [read_request].
  unfold loop_left. destruct (contains bCRLFCRLF _); [done|]. simpl.
  destruct (limit <? _); done.
Qed.

(** Reads that do not complete the request are accumulated. *)
Lemma read_request_accumulates limit ds rest buffer :
  Forall (fun d => d <> []) ds ->
  (forall k, (0 < k <= length ds)%nat ->
             loop_left limit (buffer ++ concat (take k ds)) = false) ->
  read_request limit (map Received ds ++ rest) buffer
  = read_request limit rest (buffer ++ concat ds).
Proof.
  intros Hds. revert buffer.
  induction Hds as [|d ds Hd _ IH]; intros buffer Hk; simpl.
  - by rewrite app_nil_r.
  - change (read_request limit (Received d :: map Received ds ++ rest) buffer
            = read_request limit rest (buffer ++ d ++ concat ds)).
    rewrite read_request_chunk by done.
    specialize (Hk 1%nat) as H1. cbn [take firstn concat] in H1.
    rewrite ?take_0 in H1. cbn [concat] in H1.
    rewrite app_nil_r in H1. rewrite H1 by (simpl; lia).
    rewrite IH; [by rewrite app_assoc|].
    intros k Hk'. specialize (Hk (S k)). cbn [take firstn concat length] in Hk.
    rewrite <- app_assoc. apply Hk. lia.
Qed.

(** C5.  The read loop of either engine, started on an empty buffer, reads
    chunk after chunk; it is left with the accumulated bytes at the first
    chunk after which they hold the header terminator (whatever length the
    headers declare, and leaving every later read undone), at a read of zero
    bytes, at the first chunk after which they are longer than the cap, and
    at a timeout.  The cap is 15 MiB in the thread-pool engine and 25 MiB in
    the process-pool engine. *)
Theorem read_request_stops limit ds unread :
  Forall (fun d => d <> []) ds ->
  (forall k, (0 < k <= length ds)%nat ->
             loop_left limit (concat (take k ds)) = false) ->
  let buffer := concat ds in
  (forall d, d <> [] -> contains bCRLFCRLF (buffer ++ d) = true ->
     read_request limit (map Received ds ++ Received d :: unread) []
     = Framed (buffer ++ d) unread)
  /\ read_request limit (map Received ds ++ Received [] :: unread) []
     = Framed buffer unread
  /\ (forall d, d <> [] -> limit < N.of_nat (length (buffer ++ d)) ->
     read_request limit (map Received ds ++ Received d :: unread) []
     = Framed (buffer ++ d) unread)
  /\ read_request limit (map Received ds ++ TimedOut :: unread) []
     = Framed buffer unread
  /\ ThreadPool.read_loop = (fun sock => read_request (15 * 1024 * 1024) sock [])
  /\ ProcessPool.read_loop = (fun sock => read_request (25 * 1024 * 1024) sock []).
Proof.
  intros Hds Hk buffer.
  assert (forall rest, read_request limit (map Received ds ++ rest) []
                       = read_request limit rest buffer) as Hacc.
  { intros rest. by rewrite read_request_accumulates. }
  repeat split.
  - intros d Hd Hc. rewrite Hacc, read_request_chunk by done.
    unfold loop_left. by rewrite Hc.
  - by rewrite Hacc.
  - intros d Hd Hl. rewrite Hacc, read_request_chunk by done.
    unfold loop_left. apply N.ltb_lt in Hl. rewrite Hl. by rewrite orb_true_r.
  - by rewrite Hacc.
Qed.

(** The upload of [slow_upload] is framed at its third read: the buffer ends
    with three of the ten declared body bytes and the fourth read is never
    made. *)
Lemma read_request_stops_witness :
  read_request ThreadPool.limit slow_upload []
  = Framed (bs "POST /file-upload HTTP/1.1" ++ bCRLF
            ++ bs "X-Upload-Filename: a.txt" ++ bCRLF
            ++ bs "Content-Length: 10" ++ bCRLFCRLF ++ bs "abc")
      [Received (bs "defghij")].
Proof.
  pose proof (read_request_stops ThreadPool.limit
    [bs "POST /file-upload HT";
     bs "TP/1.1" ++ bCRLF ++ bs "X-Upload-Filename: a.txt" ++ bCRLF
       ++ bs "Content-Length: 10" ++ bCRLF]
    [Received (bs "defghij")]) as Hstop.
  destruct Hstop as (Hterm & _).
  - repeat constructor; discriminate.
  - intros [|[|[|k]]] Hk; [lia|reflexivity|reflexivity|simpl in Hk; lia].
  - apply (Hterm (bCRLF ++ bs "abc")); [discriminate|reflexivity].
Defined.

(** ** The process-pool engine (C2, C6) *)

Section PoolFacts.
Import ProcessPool.
Context `{PyRuntime} `{FileSystem}.
Variable now : clock.

Lemma worker_turn_tuple client_socket client_address n s :
  exists s' r,
    worker_turn now (PyTuple client_socket client_address) n s
    = (s', Polling (S n), r).
Proof.
  unfold worker_turn.
  destruct (handle_client_connection now client_socket server_files s) as [s' r].
  eauto.
Qed.

Lemma put_or_pass_fold (x : queue_item) (ws : list worker_state) q :
  (length q + length ws <= maxsize)%nat ->
  fold_left (fun q _ => put_or_pass q x) ws q = q ++ repeat x (length ws).
Proof.
  revert q. induction ws as [|w ws IH]; intros q Hlen; simpl.
  - by rewrite app_nil_r.
  - simpl in Hlen. unfold put_or_pass at 2.
    destruct (Nat.ltb_spec (length q) maxsize) as [_|?]; [|lia].
    rewrite IH; [|rewrite length_app; simpl; lia].
    by rewrite <- app_assoc.
Qed.

Lemma put_or_pass_fold_no_None (ws : list worker_state) q :
  PyNone ∉ q ->
  PyNone ∉ (fold_left (fun q _ => put_or_pass q (PyTuple None None)) ws q).
Proof.
  revert q. induction ws as [|w ws IH]; intros q Hq; simpl; [done|].
  apply IH. unfold put_or_pass. destruct (_ <? _)%nat; [|done].
  rewrite elem_of_app, list_elem_of_singleton. intros [?|?]; done.
Qed.

(** As long as no [None] is on the queue, no step makes a worker leave its
    loop. *)
Lemma step_keeps_polling e ev e' :
  PyNone ∉ request_queue e ->
  Forall (fun w => w <> Exited) (worker_pool e) ->
  step now e ev = Some e' ->
  (PyNone ∉ request_queue e') /\ Forall (fun w => w <> Exited) (worker_pool e').
Proof.
  intros Hq Hw. destruct ev; simpl.
  - destruct (acceptor e); [|done..]. intros [= <-]; simpl. by split.
  - destruct (acceptor e); [|done..]. intros [= <-]; simpl. by split.
  - destruct (acceptor e); [done| |done].
    destruct (_ <? _)%nat; [|done]. intros [= <-]; simpl. split; [|done].
    rewrite elem_of_app, list_elem_of_singleton. intros [?|?]; done.
  - destruct (acceptor e); [done| |done].
    destruct (_ <? _)%nat; [done|]. intros [= <-]; simpl. by split.
  - destruct (worker_pool e !! i) as [[n|]|] eqn:Hi; [|done..].
    destruct (request_queue e) as [|connection_data rest] eqn:Hrq; [done|].
    apply not_elem_of_cons in Hq as [Hne Hrest].
    destruct connection_data as [|client_socket client_address]; [done|].
    destruct (worker_turn_tuple client_socket client_address n (store e))
      as (s' & r & ->).
    intros [= <-]; simpl. split; [done|].
    apply Forall_insert; done.
  - destruct (worker_pool e !! i) as [[n|]|]; [|done..].
    destruct (request_queue e) eqn:Hrq; [|done]. intros [= <-].
    rewrite Hrq. by split.
  - intros [= <-]. by split.
Qed.

Lemma run_keeps_polling evs e e' :
  PyNone ∉ request_queue e ->
  Forall (fun w => w <> Exited) (worker_pool e) ->
  run now e evs = Some e' ->
  Forall (fun w => w <> Exited) (worker_pool e').
Proof.
  revert e. induction evs as [|ev evs IH]; intros e Hq Hw; simpl.
  - by intros [= <-].
  - destruct (step now e ev) as [e1|] eqn:Hstep; simpl; [|done].
    destruct (step_keeps_polling _ _ _ Hq Hw Hstep) as [Hq1 Hw1].
    by apply IH.
Qed.

(** C2 (defect of the code).  [terminate_server] puts the tuple
    [(None, None)] on the queue, once per worker, while the worker loop
    leaves only on [None] itself: the tuple is unpacked and handled like a
    connection, and the worker polls again.  So whatever happens after
    [terminate_server], no worker that was polling leaves its loop. *)
Theorem shutdown_sentinel_not_recognised e evs e' :
  PyNone ∉ request_queue e ->
  Forall (fun w => w <> Exited) (worker_pool e) ->
  run now (terminate_server e) evs = Some e' ->
  Forall (fun w => w <> Exited) (worker_pool e')
  /\ (request_queue e = [] -> (length (worker_pool e) <= maxsize)%nat ->
      request_queue (terminate_server e)
      = repeat (PyTuple None None) (length (worker_pool e))).
Proof.
  intros Hq Hw Hrun. split.
  - eapply run_keeps_polling; [| |exact Hrun]; simpl; [|done].
    by apply put_or_pass_fold_no_None.
  - intros Hempty Hlen. simpl. rewrite Hempty.
    by rewrite put_or_pass_fold.
Qed.

(** C6, as amended.  When a connection is accepted while the queue holds
    [maxsize] = 150 items and the queue stays full until the two-second
    [put] gives up, the connection is closed by the acceptor, nothing is
    sent on it, the queue is unchanged, and the acceptor, the server being
    active, is back in [accept].  In that state the [put] cannot complete. *)
Theorem full_queue_drops_connection e c :
  acceptor e = Accepting ->
  server_active e = true ->
  (maxsize <= length (request_queue e))%nat ->
  exists e1 e2,
    step now e (Accept c) = Some e1
    /\ step now e1 PutDone = None
    /\ step now e1 PutTimeout = Some e2
    /\ dropped e2 = dropped e ++ [fileno c]
    /\ served_log e2 = served_log e
    /\ request_queue e2 = request_queue e
    /\ store e2 = store e
    /\ acceptor e2 = Accepting.
Proof.
  intros Hacc Hact Hfull.
  assert ((length (request_queue e) <? maxsize)%nat = false) as E
    by (apply Nat.ltb_ge; lia).
  eexists _, _. split; [unfold step; rewrite Hacc; reflexivity|].
  split; [unfold step; cbn [acceptor request_queue]; by rewrite E|].
  split; [unfold step; cbn [acceptor request_queue]; by rewrite E|].
  unfold next_accept. cbn [dropped served_log request_queue store acceptor
                             server_active].
  rewrite Hact. by repeat split.
Qed.
End PoolFacts.

(** Two workers, shutdown, then each worker takes one item and polls again:
    both are still in their loop, having counted one request each. *)
Lemma shutdown_sentinel_not_recognised_witness :
  exists e',
    ProcessPool.run (H := ascii_runtime) clock0
      (ProcessPool.terminate_server Scenario.two_workers)
      [ProcessPool.WorkerGet 0; ProcessPool.WorkerGet 1;
       ProcessPool.WorkerEmpty 0; ProcessPool.WorkerEmpty 1] = Some e'
    /\ ProcessPool.worker_pool e' = [ProcessPool.Polling 1; ProcessPool.Polling 1]
    /\ Forall (fun w => w <> ProcessPool.Exited) (ProcessPool.worker_pool e')
    /\ ProcessPool.request_queue (ProcessPool.terminate_server Scenario.two_workers)
       = [ProcessPool.PyTuple None None; ProcessPool.PyTuple None None].
Proof.
  eexists. split; [vm_compute; reflexivity|]. split; [reflexivity|].
  refine (let P := shutdown_sentinel_not_recognised (H := ascii_runtime) clock0
                     Scenario.two_workers
                     [ProcessPool.WorkerGet 0; ProcessPool.WorkerGet 1;
                      ProcessPool.WorkerEmpty 0; ProcessPool.WorkerEmpty 1]
                     _ _ _ _ in _).
  - destruct P as [P1 P2]. split; [exact P1|]. apply P2; [reflexivity|].
    vm_compute. lia.
  Unshelve.
  + apply not_elem_of_nil.
  + repeat constructor; discriminate.
  + vm_compute. reflexivity.
Defined.

(** C6, as stated, fails: the queue is full when the connection is accepted,
    a worker takes an item during the two seconds the [put] waits, and the
    [put] completes.  The connection is queued, not closed. *)
Lemma full_queue_put_can_succeed :
  exists e',
    length (ProcessPool.request_queue Scenario.saturated) = ProcessPool.maxsize
    /\ ProcessPool.run (H := ascii_runtime) clock0 Scenario.saturated
         [ProcessPool.Accept (Scenario.client 200); ProcessPool.WorkerGet 0;
          ProcessPool.PutDone] = Some e'
    /\ ProcessPool.dropped e' = []
    /\ last (ProcessPool.request_queue e')
       = Some (ProcessPool.PyTuple (Some (Scenario.client 200)) (Some 200%nat))
    /\ ProcessPool.acceptor e' = ProcessPool.Accepting.
Proof.
  eexists. split; [reflexivity|]. split; [vm_compute; reflexivity|].
  split; [reflexivity|]. split; reflexivity.
Qed.

Lemma full_queue_drops_connection_witness :
  exists e1 e2,
    ProcessPool.step (H := ascii_runtime) clock0 Scenario.saturated
      (ProcessPool.Accept (Scenario.client 200)) = Some e1
    /\ ProcessPool.step (H := ascii_runtime) clock0 e1 ProcessPool.PutDone = None
    /\ ProcessPool.step (H := ascii_runtime) clock0 e1 ProcessPool.PutTimeout = Some e2
    /\ ProcessPool.dropped e2 = [200%nat]
    /\ ProcessPool.served_log e2 = []
    /\ ProcessPool.request_queue e2 = ProcessPool.request_queue Scenario.saturated
    /\ ProcessPool.store e2 = ProcessPool.store Scenario.saturated
    /\ ProcessPool.acceptor e2 = ProcessPool.Accepting.
Proof.
  apply (full_queue_drops_connection (H := ascii_runtime) clock0
           Scenario.saturated (Scenario.client 200)).
  - reflexivity.
  - reflexivity.
  - vm_compute. lia.
Defined.

(** ** The multipart extractor (C7) *)

Lemma filename_attribute_contains part raw :
  filename_attribute part = Some raw ->
  contains (bs "filename=") part = true.
Proof.
  unfold filename_attribute, re_search_filename, contains.
  destruct (find (bs "filename=" ++ [bQUOTE]) part) as [i|] eqn:Hf; [|done].
  intros _. by destruct (find_prefix _ _ _ _ Hf) as [k ->].
Qed.

Section ExtractorFacts.
Context `{PyRuntime}.

Lemma scan_parts_pass part rest :
  passed_over part -> scan_parts (part :: rest) = scan_parts rest.
Proof.
  intros Hp. cbn [scan_parts]. unfold passed_over, names_file in Hp.
  destruct (contains (bs "Content-Disposition") part); [|done].
  destruct (contains (bs "filename=") part); [|done]. cbn [andb].
  fold (filename_attribute part).
  destruct (filename_attribute part) as [raw|]; [|done].
  destruct (Hp raw eq_refl) as [[name Hn] Hfind].
  unfold bytes_decode. rewrite Hn. cbn. by rewrite Hfind.
Qed.

Lemma scan_parts_hit part rest raw name i :
  names_file part = Some raw -> utf8_decode raw = Some name ->
  find bCRLFCRLF part = Some i ->
  scan_parts (part :: rest)
  = Ok (Some (os_path_basename name), Some (part_content part i)).
Proof.
  intros Hn Hd Hf. cbn [scan_parts]. unfold names_file in Hn.
  destruct (contains (bs "Content-Disposition") part); [|done].
  rewrite (filename_attribute_contains _ _ Hn). cbn [andb].
  fold (filename_attribute part). rewrite Hn.
  unfold bytes_decode. rewrite Hd. cbn. by rewrite Hf.
Qed.

Lemma scan_parts_none parts :
  Forall (fun q => names_file q = None \/ find bCRLFCRLF q = None) parts ->
  try_except_pure is_Exception (scan_parts parts) (fun _ => Ok (None, None))
  = Ok (None, None).
Proof.
  induction 1 as [|q parts Hq _ IH]; [done|].
  cbn [scan_parts]. unfold names_file in Hq.
  destruct (contains (bs "Content-Disposition") q); [|done].
  destruct (contains (bs "filename=") q); [|done]. cbn [andb].
  fold (filename_attribute q).
  destruct (filename_attribute q) as [raw|]; [|done].
  destruct Hq as [?|Hf]; [done|].
  unfold bytes_decode. destruct (utf8_decode raw); cbn.
  - by rewrite Hf.
  - done.
Qed.

Lemma scan_parts_raises parts e :
  scan_parts parts = Raise e -> exn_class e = UnicodeDecodeError.
Proof.
  induction parts as [|q parts IH]; cbn [scan_parts]; [done|].
  destruct (_ && _); [|done].
  destruct (re_search_filename _ _ _) as [raw|]; [|done].
  destruct (bytes_decode raw) eqn:Ed; cbn.
  - destruct (find bCRLFCRLF q); [done|exact IH].
  - intros [= <-]. by apply bytes_decode_raises in Ed as [-> _].
Qed.

(** [parse_form_data] never raises. *)
Lemma parse_form_data_ok body boundary :
  exists r, parse_form_data body boundary = Ok r.
Proof.
  unfold parse_form_data, try_except_pure.
  match goal with
  | |- context [match ?x with _ => _ end] => destruct x as [r|e] eqn:E
  end; [eauto|].
  assert (is_Exception (exn_class e) = true) as ->; [|eauto].
  destruct boundary as [b|s]; cbn in E.
  - by rewrite (scan_parts_raises _ _ E).
  - destruct (str_encode s) eqn:Es; cbn in E.
    + by rewrite (scan_parts_raises _ _ E).
    + injection E as <-. by apply str_encode_raises in Es as [-> _].
Qed.

Lemma parse_form_data_parts body boundary b :
  boundary_bytes boundary = Some b ->
  parse_form_data body boundary
  = try_except_pure is_Exception
      (scan_parts (split (bs "--" ++ b) body)) (fun _ => Ok (None, None)).
Proof.
  unfold parse_form_data, boundary_bytes. destruct boundary as [b'|s].
  - by intros [= ->].
  - intros Hs. unfold str_encode. by rewrite Hs.
Qed.
End ExtractorFacts.

(** ** The upload handler *)

Section UploadFacts.
Context `{PyRuntime} `{FileSystem}.
Variable self : AdvancedHttpProcessor.
Variable now : clock.
Hypothesis date_encodable : encodable (now_strftime now) = true.

(** A multipart upload in which no usable file part is found is refused. *)
Lemma handle_upload_no_file body headers s boundary filename file_data :
  contains (st "multipart/form-data")
    (default [] (headers !! st "content-type")) = true ->
  re_search_boundary (default [] (headers !! st "content-type"))
    = Some boundary ->
  parse_form_data body (Str boundary) = Ok (filename, file_data) ->
  falsy filename || bool_decide (file_data = None) = true ->
  exists r, handle_upload self now body headers s = (s, Ok r)
            /\ responds now 400 r.
Proof.
  intros Hct Hb Hp Hf.
  destruct (build_response_responds now 400 (st "Bad Request")
              (Str (st "No valid file found in request")) [])
    as (r & Hr & Hresp); [done..|].
  exists r. split; [|done].
  unfold handle_upload, upload_source. rewrite Hct, Hb, Hp.
  cbn [mbind result_bind]. rewrite Hf, Hr. done.
Qed.
End UploadFacts.


(** ** The cases of the scan *)

Section ExtractorCases.
Context `{PyRuntime}.

(** A part naming a file whose filename attribute is not valid UTF-8 ends
    the scan: the decoding error is caught by the [except] clause. *)
Lemma scan_parts_undecodable part rest raw :
  names_file part = Some raw -> utf8_decode raw = None ->
  try_except_pure is_Exception (scan_parts (part :: rest))
    (fun _ => Ok (None, None))
  = Ok (None, None).
Proof.
  intros Hn Hd. cbn [scan_parts]. unfold names_file in Hn.
  destruct (contains (bs "Content-Disposition") part); [|done].
  rewrite (filename_attribute_contains _ _ Hn). cbn [andb].
  fold (filename_attribute part). rewrite Hn.
  unfold bytes_decode. rewrite Hd. done.
Qed.

Lemma passed_over_weaken part :
  passed_over part ->
  names_file part = None \/ find bCRLFCRLF part = None.
Proof.
  intros Hp. destruct (names_file part) as [raw|] eqn:E; [|by left].
  right. by destruct (Hp raw E).
Qed.

(** Every list of parts is passed over as a whole, or has a first part that
    is not: one that names a file and either has an undecodable filename or
    holds the separator. *)
Lemma scan_parts_cases (parts : list bytes) :
  Forall passed_over parts
  \/ exists before part after raw,
       parts = before ++ part :: after
       /\ Forall passed_over before
       /\ names_file part = Some raw
       /\ (utf8_decode raw = None
           \/ exists name i, utf8_decode raw = Some name
                             /\ find bCRLFCRLF part = Some i).
Proof.
  induction parts as [|q parts IH]; [by left|].
  destruct (names_file q) as [raw|] eqn:Hn.
  - destruct (utf8_decode raw) as [name|] eqn:Hd.
    + destruct (find bCRLFCRLF q) as [i|] eqn:Hf.
      * right. exists [], q, parts, raw. repeat split; eauto.
      * assert (passed_over q) as Hq.
        { intros raw' Hraw'. rewrite Hn in Hraw'. injection Hraw' as <-.
          rewrite Hd. eauto. }
        destruct IH as [IH|(before & part & after & raw' & -> & Hb & IH)].
        -- left. by constructor.
        -- right. exists (q :: before), part, after, raw'.
           split; [done|]. split; [by constructor|done].
    + right. exists [], q, parts, raw. repeat split; eauto.
  - assert (passed_over q) as Hq by (intros raw Hraw; congruence).
    destruct IH as [IH|(before & part & after & raw' & -> & Hb & IH)].
    + left. by constructor.
    + right. exists (q :: before), part, after, raw'.
      split; [done|]. split; [by constructor|done].
Qed.

Lemma parse_form_data_unencodable body boundary :
  boundary_bytes boundary = None ->
  parse_form_data body boundary = Ok (None, None).
Proof.
  unfold parse_form_data, boundary_bytes. destruct boundary as [b|s]; [done|].
  intros Hs. unfold str_encode. by rewrite Hs.
Qed.
End ExtractorCases.

(** C7, as amended.  [parse_form_data] splits the body on the boundary
    preceded by two dashes and scans the parts in order.  A part that does
    not hold both Content-Disposition and a quoted filename attribute is
    passed over, and so is one that holds them, with a filename that is
    valid UTF-8, but lacks the separator CR LF CR LF.  The first part that
    is not passed over decides the result: when its filename attribute is
    not valid UTF-8 the result is [(None, None)], whatever parts follow;
    otherwise the result is the last path segment of the decoded filename
    and the content of that part, which runs from after the first separator
    to the end of the part, less one trailing CR LF.  When every part is
    passed over, and more generally when no part holds all three, the
    result is [(None, None)]; so it is for a boundary that cannot be
    encoded.  These cases cover every body and boundary.  With the result
    [(None, None)] the upload handler answers 400. *)
Theorem parse_form_data_first_complete_part `{PyRuntime} `{FileSystem}
    (self : AdvancedHttpProcessor) (now : clock)
    (body : bytes) (boundary : bytes_or_str) :
  (boundary_bytes boundary = None ->
   parse_form_data body boundary = Ok (None, None))
  /\ (forall b, boundary_bytes boundary = Some b ->
      let parts := split (bs "--" ++ b) body in
      (forall before part after raw,
         parts = before ++ part :: after ->
         Forall passed_over before ->
         names_file part = Some raw ->
         (forall name i,
            utf8_decode raw = Some name -> find bCRLFCRLF part = Some i ->
            parse_form_data body boundary
            = Ok (Some (os_path_basename name), Some (part_content part i)))
         /\ (utf8_decode raw = None ->
             parse_form_data body boundary = Ok (None, None)))
      /\ (Forall (fun q => names_file q = None \/ find bCRLFCRLF q = None)
            parts ->
          parse_form_data body boundary = Ok (None, None))
      /\ (Forall passed_over parts
          \/ exists before part after raw,
               parts = before ++ part :: after
               /\ Forall passed_over before
               /\ names_file part = Some raw
               /\ (utf8_decode raw = None
                   \/ exists name i, utf8_decode raw = Some name
                                     /\ find bCRLFCRLF part = Some i)))
  /\ (forall headers s boundary_string,
        encodable (now_strftime now) = true ->
        contains (st "multipart/form-data")
          (default [] (headers !! st "content-type")) = true ->
        re_search_boundary (default [] (headers !! st "content-type"))
          = Some boundary_string ->
        parse_form_data body (Str boundary_string) = Ok (None, None) ->
        exists r, handle_upload self now body headers s = (s, Ok r)
                  /\ responds now 400 r).
Proof.
  split; [apply parse_form_data_unencodable|]. split.
  - intros b Hb parts. rewrite (parse_form_data_parts _ _ _ Hb). fold parts.
    split; [|split].
    + intros before part after raw -> Hbefore Hn.
      induction Hbefore as [|q before Hq _ IH]; cbn [app].
      * split.
        -- intros name i Hd Hf. by rewrite (scan_parts_hit _ _ _ _ _ Hn Hd Hf).
        -- intros Hd. by apply (scan_parts_undecodable _ _ raw).
      * by rewrite scan_parts_pass.
    + apply scan_parts_none.
    + apply scan_parts_cases.
  - intros headers s boundary_string Hdate Hct Hre Hp.
    by eapply handle_upload_no_file.
Qed.

(** C7, as stated, fails: in [two_file_parts] the first part that holds
    Content-Disposition and a filename attribute is the one naming a.txt,
    which has no separator; the file returned is the later b.txt.  In
    [undecodable_then_complete] the first such part is complete but its
    filename is not valid UTF-8: nothing is returned, although a complete
    part naming ok.txt follows. *)
Lemma parse_form_data_skips_incomplete_part :
  let parts := split (bs "--B") two_file_parts in
  ((names_file <$> parts !! 0%nat) = Some None
   /\ (names_file <$> parts !! 1%nat) = Some (Some (bs "a.txt"))
   /\ parse_form_data (H := ascii_runtime) two_file_parts (Str (st "B"))
      = Ok (Some (st "b.txt"), Some (bs "BBB")))
  /\ let parts' := split (bs "--B") undecodable_then_complete in
     (names_file <$> parts' !! 1%nat) = Some (Some ([xff] ++ bs ".txt"))
     /\ (names_file <$> parts' !! 2%nat) = Some (Some (bs "ok.txt"))
     /\ parse_form_data (H := ascii_runtime) undecodable_then_complete
          (Str (st "B"))
        = Ok (None, None).
Proof. vm_compute. repeat split. Qed.

Lemma parse_form_data_first_complete_part_witness :
  parse_form_data (H := ascii_runtime) two_file_parts (Str (st "B"))
  = Ok (Some (os_path_basename (st "b.txt")),
        Some (part_content
                (bCRLF
                 ++ bs "Content-Disposition: form-data; name=g; filename="
                 ++ [bQUOTE] ++ bs "b.txt" ++ [bQUOTE] ++ bCRLFCRLF
                 ++ bs "BBB" ++ bCRLF) 58))
  /\ parse_form_data (H := ascii_runtime) undecodable_then_complete
       (Str (st "B"))
     = Ok (None, None).
Proof.
  split.
  - pose proof (parse_form_data_first_complete_part (H := ascii_runtime)
                  (H0 := mem_fs) server_files clock0 two_file_parts
                  (Str (st "B"))) as (_ & Hparts & _).
    destruct (Hparts (bs "B") eq_refl) as (Hfirst & _).
    eapply (Hfirst [_; _] _ [_] (bs "b.txt")).
    + vm_compute. reflexivity.
    + apply List.Forall_cons; [intros raw; vm_compute; discriminate|].
      apply List.Forall_cons; [|apply List.Forall_nil].
      intros raw Hraw. vm_compute in Hraw. injection Hraw as <-.
      split; [eexists|]; vm_compute; reflexivity.
    + vm_compute. reflexivity.
    + vm_compute. reflexivity.
    + vm_compute. reflexivity.
  - pose proof (parse_form_data_first_complete_part (H := ascii_runtime)
                  (H0 := mem_fs) server_files clock0 undecodable_then_complete
                  (Str (st "B"))) as (_ & Hparts & _).
    destruct (Hparts (bs "B") eq_refl) as (Hfirst & _).
    eapply (Hfirst [_] _ [_; _] ([xff] ++ bs ".txt")).
    + vm_compute. reflexivity.
    + apply List.Forall_cons; [intros raw; vm_compute; discriminate|].
      apply List.Forall_nil.
    + vm_compute. reflexivity.
    + vm_compute. reflexivity.
Defined.

(** ** Status lines *)

Lemma utf8_encode_app_inv a b e :
  utf8_encode (a ++ b) = Some e ->
  exists ea eb, utf8_encode a = Some ea /\ utf8_encode b = Some eb
                /\ e = ea ++ eb.
Proof.
  revert e. induction a as [|c a IH]; intros e; cbn [app utf8_encode].
  - intros He. by exists [], e.
  - destruct (utf8_encode_cp c) as [bc|]; [|done].
    destruct (utf8_encode (a ++ b)) as [e'|] eqn:E; [|done].
    intros [= <-]. destruct (IH _ eq_refl) as (ea & eb & -> & -> & ->).
    exists (bc ++ ea), eb. by rewrite app_assoc.
Qed.

Section StatusFacts.
Context `{PyRuntime}.

(** A response begins with the protocol version, the status code and a
    space. *)
Lemma responds_status_line now code r :
  responds now code r ->
  exists d rest, utf8_encode (str_of_Z code) = Some d
                 /\ r = bs "HTTP/1.1 " ++ d ++ x20 :: rest.
Proof.
  intros (text & content & extra & Hr). rewrite build_response_eq in Hr.
  destruct (match content with Bytes b => Ok b | Str s => str_encode s end)
    as [body|]; [|done]. cbn [mbind result_bind] in Hr.
  unfold str_encode in Hr.
  destruct (utf8_encode (response_head _ _ _ _ _)) as [hd|] eqn:Hh; [|done].
  injection Hr as <-. unfold response_head in Hh.
  cbn [app concat] in Hh. rewrite <- !app_assoc in Hh.
  apply utf8_encode_app_inv in Hh as (e1 & t1 & H1 & Hh & ->).
  apply utf8_encode_app_inv in Hh as (d & t2 & Hd & Hh & ->).
  apply utf8_encode_app_inv in Hh as (e3 & t3 & H3 & Hh & ->).
  vm_compute in H1. injection H1 as <-. vm_compute in H3. injection H3 as <-.
  exists d, (t3 ++ body). split; [done|]. by rewrite <- !app_assoc.
Qed.

Lemma responds_code_201 now r :
  responds now 201 r -> ~ responds now 400 r /\ ~ responds now 500 r.
Proof.
  intros (d & rest & Hd & ->)%responds_status_line.
  vm_compute in Hd. injection Hd as <-.
  split; intros (d' & rest' & Hd' & Heq)%responds_status_line;
    vm_compute in Hd'; injection Hd' as <-; discriminate.
Qed.
End StatusFacts.

(** ** The stored name *)

Lemma forallb_st_cons (f : N -> bool) a s :
  forallb f (st (String a s)) = f (N_of_ascii a) && forallb f (st s).
Proof. reflexivity. Qed.

Lemma uint_forallb (f : N -> bool) d :
  (forall c, in_range 48 57 c = true -> f c = true) ->
  forallb f (st (NilEmpty.string_of_uint d)) = true.
Proof.
  intros Hf. induction d; cbn [NilEmpty.string_of_uint]; [done|..];
    rewrite forallb_st_cons, IHd, andb_true_r; by apply Hf.
Qed.

Lemma str_of_Z_forallb (f : N -> bool) z :
  (forall c, in_range 48 57 c = true -> f c = true) -> f 45 = true ->
  forallb f (str_of_Z z) = true.
Proof.
  intros Hf Hm.
  assert (forall d, forallb f (st (NilZero.string_of_uint d)) = true) as Hu.
  { intros d. unfold NilZero.string_of_uint.
    destruct d; try apply (uint_forallb f _ Hf).
    rewrite forallb_st_cons. apply andb_true_iff. split; [by apply Hf|done]. }
  unfold str_of_Z, NilZero.string_of_int.
  destruct (Z.to_int z) as [d|d]; [apply Hu|].
  rewrite forallb_st_cons, Hu, andb_true_r. exact Hm.
Qed.

Lemma basename_no_slash p : SLASH ∉ os_path_basename p.
Proof.
  unfold os_path_basename. induction p as [|c p IH]; cbn [rfind1].
  - apply not_elem_of_nil.
  - destruct (rfind1 SLASH p) as [i|] eqn:E.
    + exact IH.
    + destruct (decide (c = SLASH)) as [->|Hne].
      * cbn. rewrite drop_0. by apply rfind1_None.
      * apply not_elem_of_cons. split; [done|]. by apply rfind1_None.
Qed.

Lemma basename_idem p : os_path_basename (os_path_basename p) = os_path_basename p.
Proof.
  unfold os_path_basename at 1.
  by rewrite (rfind1_not_in _ _ (basename_no_slash p)).
Qed.

Lemma forallb_not_elem_of (x : N) l :
  forallb (fun c => negb (c =? x)) l = true -> x ∉ l.
Proof.
  induction l as [|c l IH]; cbn [forallb]; [intros _; apply not_elem_of_nil|].
  intros [Hc Hl]%andb_true_iff. apply negb_true_iff, N.eqb_neq in Hc.
  apply not_elem_of_cons. split; [done|by apply IH].
Qed.

Section StoredName.
Variable now : clock.

Lemma generated_name_ok :
  let X := st "file_" ++ str_of_Z (now_timestamp now) in
  X <> [] /\ (SLASH ∉ X) /\ startswith [DOT] X = false.
Proof.
  cbn zeta. split; [done|]. split; [|reflexivity].
  apply forallb_not_elem_of. rewrite forallb_app.
  apply andb_true_iff. split; [reflexivity|].
  apply str_of_Z_forallb; [|reflexivity].
  intros c Hc. unfold in_range, SLASH in *. bool_to_prop.
  apply negb_true_iff, N.eqb_neq. lia.
Qed.

(** The name a file is stored under is never empty, holds no slash and does
    not begin with a dot. *)
Lemma safe_filename_ok filename :
  let X := safe_filename now filename in
  X <> [] /\ (SLASH ∉ X) /\ startswith [DOT] X = false.
Proof.
  cbn zeta. unfold safe_filename.
  destruct (bool_decide (os_path_basename filename = [])) eqn:E1; cbn [orb].
  - apply generated_name_ok.
  - destruct (startswith [DOT] (os_path_basename filename)) eqn:E2.
    + apply generated_name_ok.
    + apply bool_decide_eq_false_1 in E1.
      split; [done|]. split; [apply basename_no_slash|done].
Qed.

(** A name without a slash is joined to the storage directory by one. *)
Lemma os_path_join_plain d X :
  d <> [] -> endswith [SLASH] d = false -> X <> [] -> SLASH ∉ X ->
  os_path_join d X = d ++ [SLASH] ++ X.
Proof.
  intros Hd He HX Hs. unfold os_path_join.
  destruct X as [|c X]; [done|].
  assert (c <> SLASH) as Hc by (intros ->; apply Hs; left).
  cbn [startswith]. rewrite bool_decide_eq_false_2 by done. cbn [andb].
  rewrite bool_decide_eq_false_2 by done. by rewrite He.
Qed.
End StoredName.

Lemma fmap_inl_Ok {A B} (x : result A) (v : A + B) :
  inl <$> x = Ok v -> exists r, v = inl r /\ x = Ok r.
Proof. destruct x as [a|e]; [|done]. intros [= <-]. eauto. Qed.

Lemma fmap_inl_Raise {A B} (x : result A) e :
  (inl <$> x : result (A + B)) = Raise e -> x = Raise e.
Proof. destruct x as [a|e']; [done|]. by intros [= <-]. Qed.

Lemma falsy_false x : falsy x = false -> exists c f, x = Some (c :: f).
Proof. destruct x as [[|c f]|]; [done| |done]. eauto. Qed.

Section UploadSource.
Context `{PyRuntime} `{FileSystem}.
Variable self : AdvancedHttpProcessor.
Variable now : clock.

(** A response returned before any filename is chosen is a 400. *)
Lemma upload_source_early body headers r :
  upload_source now body headers = Ok (inl r) -> responds now 400 r.
Proof.
  unfold upload_source.
  destruct (contains (st "multipart/form-data") _); [|done].
  destruct (re_search_boundary _) as [boundary|].
  - destruct (parse_form_data_ok body (Str boundary)) as [[fn d] ->].
    cbn [mbind result_bind].
    destruct (falsy fn || bool_decide (d = None)); [|done].
    intros (r' & [= <-] & Hr)%fmap_inl_Ok. by eexists _, _, _.
  - intros (r' & [= <-] & Hr)%fmap_inl_Ok. by eexists _, _, _.
Qed.

Lemma upload_source_raises body headers e :
  upload_source now body headers = Raise e ->
  exn_class e = UnicodeEncodeError /\ exists s, exn_str e = encode_error_str s.
Proof.
  unfold upload_source.
  destruct (contains (st "multipart/form-data") _); [|done].
  destruct (re_search_boundary _) as [boundary|].
  - destruct (parse_form_data_ok body (Str boundary)) as [[fn d] ->].
    cbn [mbind result_bind].
    destruct (falsy fn || bool_decide (d = None)); [|done].
    intros Hr%fmap_inl_Raise. by eapply build_response_raises.
  - intros Hr%fmap_inl_Raise. by eapply build_response_raises.
Qed.

(** The filename chosen is never empty. *)
Lemma upload_source_chosen body headers filename file_data :
  upload_source now body headers = Ok (inr (filename, file_data)) ->
  exists f, filename = Some f /\ f <> [].
Proof.
  unfold upload_source.
  destruct (contains (st "multipart/form-data") _).
  - destruct (re_search_boundary _) as [boundary|].
    + destruct (parse_form_data_ok body (Str boundary)) as [[fn d] ->].
      cbn [mbind result_bind].
      destruct (falsy fn || bool_decide (d = None)) eqn:E.
      * by intros (r' & [=] & _)%fmap_inl_Ok.
      * apply orb_false_iff in E as [(c & f & ->)%falsy_false _].
        intros [= <- _]. by exists (c :: f).
    + by intros (r' & [=] & _)%fmap_inl_Ok.
  - cbv zeta.
    match goal with
    | |- Ok (inr ((if falsy ?x then _ else _), _)) = _ -> _ => generalize x
    end.
    intros x. destruct (falsy x) eqn:E.
    + intros [= <- _]. eauto.
    + apply falsy_false in E as (c & f & ->). intros [= <- _].
      by exists (c :: f).
Qed.

(** Raw-body path: the data is the whole body, and a non-empty
    [X-Upload-Filename] header is the filename. *)
Lemma upload_source_raw body headers :
  contains (st "multipart/form-data")
    (default [] (headers !! st "content-type")) = false ->
  (exists filename, upload_source now body headers = Ok (inr (filename, body)))
  /\ (forall v, headers !! st "x-upload-filename" = Some v -> v <> [] ->
        upload_source now body headers = Ok (inr (Some v, body))).
Proof.
  intros Hct. unfold upload_source. rewrite Hct. split; [eauto|].
  intros v -> Hv. destruct v as [|c v]; done.
Qed.

(** Multipart path: filename and data are those [parse_form_data] found. *)
Lemma upload_source_multipart body headers f file_data :
  contains (st "multipart/form-data")
    (default [] (headers !! st "content-type")) = true ->
  upload_source now body headers = Ok (inr (Some f, file_data)) ->
  exists boundary,
    re_search_boundary (default [] (headers !! st "content-type"))
      = Some boundary
    /\ parse_form_data body (Str boundary) = Ok (Some f, Some file_data).
Proof.
  intros Hct. unfold upload_source. rewrite Hct.
  destruct (re_search_boundary _) as [boundary|].
  - destruct (parse_form_data_ok body (Str boundary)) as [[fn d] Hp].
    rewrite Hp. cbn [mbind result_bind].
    destruct (falsy fn || bool_decide (d = None)) eqn:E.
    + by intros (r' & [=] & _)%fmap_inl_Ok.
    + apply orb_false_iff in E as [_ Hd%bool_decide_eq_false_1].
      destruct d as [d|]; [|done]. intros [= -> <-]. eauto.
  - by intros (r' & [=] & _)%fmap_inl_Ok.
Qed.

(** An upload answered 201 has stored a file. *)
Lemma handle_upload_201 body headers s s' r :
  handle_upload self now body headers s = (s', Ok r) ->
  responds now 201 r ->
  exists X P, uploads self now body headers s X P s'.
Proof.
  intros Hup H201. destruct (responds_code_201 _ _ H201) as [N400 N500].
  unfold handle_upload in Hup.
  destruct (upload_source now body headers) as [[response|[filename P]]|e] eqn:Hsrc.
  - cbn in Hup. injection Hup as <- <-.
    destruct N400. by eapply upload_source_early.
  - destruct (upload_source_chosen _ _ _ _ Hsrc) as (f & -> & Hf).
    destruct f as [|c f]; [done|]. cbn [falsy default] in Hup.
    destruct (write_file s _ P) as [s1 [[]|e]] eqn:Hw.
    + destruct (build_response now 201 _ _ _) as [r1|e] eqn:Hb.
      * cbn in Hup. injection Hup as <- <-.
        exists (safe_filename now (c :: f)), P. exists (c :: f).
        by repeat split.
      * unfold try_except in Hup.
        destruct (is_Exception (exn_class e)); [|done].
        injection Hup as <- Hr. destruct N500. by eexists _, _, _.
    + unfold try_except in Hup.
      destruct (is_Exception (exn_class e)); [|done].
      injection Hup as <- Hr. destruct N500. by eexists _, _, _.
  - unfold try_except in Hup.
    destruct (is_Exception (exn_class e)); [|done].
    injection Hup as <- Hr. destruct N500. by eexists _, _, _.
Qed.
End UploadSource.

Section ExtractorInversion.
Context `{PyRuntime}.

Lemma scan_parts_Some_inv parts fn d :
  scan_parts parts = Ok (Some fn, d) ->
  exists part raw name i,
    part ∈ parts /\ names_file part = Some raw /\ utf8_decode raw = Some name
    /\ fn = os_path_basename name /\ find bCRLFCRLF part = Some i
    /\ d = Some (part_content part i).
Proof.
  induction parts as [|q parts IH]; cbn [scan_parts]; [done|].
  assert (scan_parts parts = Ok (Some fn, d) ->
          exists part raw name i,
            part ∈ q :: parts /\ names_file part = Some raw
            /\ utf8_decode raw = Some name /\ fn = os_path_basename name
            /\ find bCRLFCRLF part = Some i
            /\ d = Some (part_content part i)) as IH'.
  { intros (part & raw & name & i & Hin & Hrest)%IH.
    exists part, raw, name, i. split; [by right|done]. }
  unfold names_file in *.
  destruct (contains (bs "Content-Disposition") q) eqn:Hcd; [|exact IH'].
  destruct (contains (bs "filename=") q); [|exact IH']. cbn [andb].
  fold (filename_attribute q).
  destruct (filename_attribute q) as [raw|] eqn:Hraw; [|exact IH'].
  unfold bytes_decode. destruct (utf8_decode raw) as [name|] eqn:Hname; [|done].
  cbn [mbind result_bind].
  destruct (find bCRLFCRLF q) as [i|] eqn:Hi; [|exact IH'].
  intros [= <- <-]. exists q, raw, name, i.
  split; [by left|]. rewrite Hcd. done.
Qed.

Lemma parse_form_data_Some_inv body boundary fn d :
  parse_form_data body boundary = Ok (Some fn, d) ->
  exists b part raw name i,
    boundary_bytes boundary = Some b
    /\ part ∈ split (bs "--" ++ b) body
    /\ names_file part = Some raw /\ utf8_decode raw = Some name
    /\ fn = os_path_basename name /\ find bCRLFCRLF part = Some i
    /\ d = Some (part_content part i).
Proof.
  assert (forall b,
            try_except_pure is_Exception
              (scan_parts (split (bs "--" ++ b) body))
              (fun _ => Ok (None, None)) = Ok (Some fn, d) ->
            scan_parts (split (bs "--" ++ b) body) = Ok (Some fn, d))
    as Hscan.
  { intros b. unfold try_except_pure.
    destruct (scan_parts _) as [a|e] eqn:E; [done|].
    by destruct (is_Exception _). }
  unfold parse_form_data.
  destruct boundary as [b|s]; cbn [boundary_bytes mbind result_bind].
  - intros Hs%Hscan.
    destruct (scan_parts_Some_inv _ _ _ Hs) as (part & raw & name & i & Hrest).
    by exists b, part, raw, name, i.
  - unfold str_encode. destruct (utf8_encode s) as [b|];
      cbn [mbind result_bind].
    + intros Hs%Hscan.
      destruct (scan_parts_Some_inv _ _ _ Hs) as (part & raw & name & i & Hrest).
      by exists b, part, raw, name, i.
    + done.
Qed.
End ExtractorInversion.

(** C3, as amended.  Whenever the upload handler stores a file (it answers
    201), by the multipart path or by the raw-body path, the name [X] under
    which the bytes are written into the storage directory is the last path
    segment of the supplied filename, replaced by [file_] followed by the
    Unix timestamp when that segment is empty or begins with a dot.  [X] is
    never empty, holds no path separator and does not begin with a dot, so
    the file is a direct child of the storage directory.  In the multipart
    path the filename that reaches the handler is already the last segment
    of the filename attribute, and when that segment is empty nothing is
    stored: the handler answers 400. *)
Theorem upload_stored_name `{PyRuntime} `{FileSystem}
    (self : AdvancedHttpProcessor) (now : clock)
    (body : bytes) (headers : gmap str str) (s : fs) :
  let content_type := default [] (headers !! st "content-type") in
  (forall s' r,
     handle_upload self now body headers s = (s', Ok r) ->
     responds now 201 r ->
     exists f X P,
       upload_source now body headers = Ok (inr (Some f, P))
       /\ write_file s (os_path_join (storage_directory self) X) P
          = (s', Ok tt)
       /\ X = (if bool_decide (os_path_basename f = [])
                  || startswith [DOT] (os_path_basename f)
               then st "file_" ++ str_of_Z (now_timestamp now)
               else os_path_basename f)
       /\ X <> [] /\ (SLASH ∉ X) /\ startswith [DOT] X = false
       /\ (storage_directory self <> [] ->
           endswith [SLASH] (storage_directory self) = false ->
           os_path_join (storage_directory self) X
           = storage_directory self ++ [SLASH] ++ X)
       /\ (contains (st "multipart/form-data") content_type = false ->
           P = body
           /\ forall v, headers !! st "x-upload-filename" = Some v ->
                        v <> [] -> f = v)
       /\ (contains (st "multipart/form-data") content_type = true ->
           exists boundary b part raw name,
             re_search_boundary content_type = Some boundary
             /\ utf8_encode boundary = Some b
             /\ part ∈ split (bs "--" ++ b) body
             /\ names_file part = Some raw
             /\ utf8_decode raw = Some name
             /\ f = os_path_basename name
             /\ os_path_basename f = os_path_basename name))
  /\ (forall boundary file_data,
        encodable (now_strftime now) = true ->
        contains (st "multipart/form-data") content_type = true ->
        re_search_boundary content_type = Some boundary ->
        parse_form_data body (Str boundary) = Ok (Some [], file_data) ->
        exists r, handle_upload self now body headers s = (s, Ok r)
                  /\ responds now 400 r).
Proof.
  intros content_type. split.
  - intros s' r Hup H201.
    destruct (handle_upload_201 self now _ _ _ _ _ Hup H201)
      as (X & P & f & Hsrc & Hf & -> & Hw).
    exists f, (safe_filename now f), P.
    destruct (safe_filename_ok now f) as (Hne & Hslash & Hdot).
    do 6 (split; [done|]).
    split; [intros Hd He; by apply os_path_join_plain|].
    split.
    + intros Hct.
      destruct (upload_source_raw now body headers Hct) as [[fn Hfn] Hraw].
      split.
      * rewrite Hsrc in Hfn. by injection Hfn.
      * intros v Hv Hvne. rewrite (Hraw v Hv Hvne) in Hsrc. by injection Hsrc.
    + intros Hct.
      destruct (upload_source_multipart now _ _ _ _ Hct Hsrc)
        as (boundary & Hre & Hp).
      destruct (parse_form_data_Some_inv _ _ _ _ Hp)
        as (b & part & raw & name & i & Hb & Hin & Hn & Hd & -> & _).
      exists boundary, b, part, raw, name.
      repeat split; try done. apply basename_idem.
  - intros boundary file_data Hdate Hct Hre Hp.
    by eapply handle_upload_no_file.
Qed.

(** C3, as stated, fails in the multipart path: the filename attribute of
    [upload_trailing_slash] ends in a slash, so its last segment is empty;
    no generated name is used, nothing is written and the answer is 400. *)
Lemma upload_empty_segment_refused :
  (names_file <$> split (bs "--B") upload_trailing_slash !! 1%nat)
  = Some (Some (bs "docs/"))
  /\ os_path_basename (st "docs/") = []
  /\ handle_upload (H := ascii_runtime) (H0 := mem_fs) server_files clock0
       upload_trailing_slash multipart_headers ∅
     = (∅, Ok (bs "HTTP/1.1 400 Bad Request" ++ bCRLF
              ++ bs "Date: Thu, 01 Jan 2026 00:00:00 GMT" ++ bCRLF
              ++ bs "Connection: close" ++ bCRLF
              ++ bs "Server: AdvancedHttpServer/1.5" ++ bCRLF
              ++ bs "Content-Length: 30" ++ bCRLF
              ++ bCRLF
              ++ bs "No valid file found in request")).
Proof. split; [|split]; vm_compute; reflexivity. Qed.

(** A raw upload named [../../etc/passwd] is written to
    [server_files/passwd]. *)
Lemma upload_stored_name_witness :
  exists f X P s',
    upload_source (H := ascii_runtime) clock0 (bs "root:x:0:0")
      (upload_named "../../etc/passwd") = Ok (inr (Some f, P))
    /\ write_file (FileSystem := mem_fs) ∅
         (os_path_join (storage_directory server_files) X) P = (s', Ok tt)
    /\ f = st "../../etc/passwd"
    /\ X = st "passwd".
Proof.
  pose proof (upload_stored_name (H := ascii_runtime) (H0 := mem_fs)
                server_files clock0 (bs "root:x:0:0")
                (upload_named "../../etc/passwd") ∅) as [Hstored _].
  destruct (Hstored
              (<[st "server_files/passwd" := bs "root:x:0:0"]> ∅)
              (bs "HTTP/1.1 201 Created" ++ bCRLF
               ++ bs "Date: Thu, 01 Jan 2026 00:00:00 GMT" ++ bCRLF
               ++ bs "Connection: close" ++ bCRLF
               ++ bs "Server: AdvancedHttpServer/1.5" ++ bCRLF
               ++ bs "Content-Length: 44" ++ bCRLF
               ++ bCRLF
               ++ bs "File passwd uploaded successfully (10 bytes)"))
    as (f & X & P & Hsrc & Hw & HX & _).
  - vm_compute. reflexivity.
  - exists (st "Created"),
      (Str (st "File passwd uploaded successfully (10 bytes)")), [].
    vm_compute. reflexivity.
  - exists f, X, P. eexists. split; [exact Hsrc|]. split; [exact Hw|].
    vm_compute in Hsrc. injection Hsrc as <- <-.
    split; [reflexivity|]. rewrite HX. vm_compute. reflexivity.
Defined.

(** ** Upload, fetch, delete (C4, C8) *)

Lemma mime_type_encodable k :
  encodable (default (st "application/octet-stream")
               (content_type_mappings !! k)) = true.
Proof.
  destruct (content_type_mappings !! k) as [v|] eqn:E; [|reflexivity].
  apply elem_of_list_to_map_2 in E. cbn [default].
  eapply (proj1 (Forall_forall (fun kv : str * str => encodable kv.2 = true) _))
    in E; [exact E|].
  repeat (apply List.Forall_cons; [reflexivity|]). apply List.Forall_nil.
Qed.

Lemma not_reserved X :
  X ∉ reserved_names ->
  SLASH :: X <> st "/redirect" /\ SLASH :: X <> st "/status"
  /\ SLASH :: X <> st "/directory".
Proof.
  unfold reserved_names. intros Hn.
  repeat split; intros [= ->]; apply Hn; set_solver.
Qed.

Section StoreFacts.
Context `{PyRuntime} `{FileSystem}.
Hypothesis laws : FileSystemLaws _.
Variable self : AdvancedHttpProcessor.

(** Serving an existing file whose name is not reserved. *)
Lemma handle_get_file now X P h s :
  X <> [] -> X ∉ reserved_names ->
  encodable (now_strftime now) = true ->
  os_path_isfile s (os_path_join (storage_directory self) X) = true ->
  read_file s (os_path_join (storage_directory self) X) = Ok P ->
  exists header mime,
    handle_get self now (SLASH :: X) h s = (s, Ok (header ++ P))
    /\ utf8_encode (response_head now 200 (st "OK") (length P)
                      [(st "Content-Type", mime)]) = Some header
    /\ responds now 200 (header ++ P).
Proof.
  intros Hne Hres Hdate Hfile Hread.
  destruct (not_reserved X Hres) as (N1 & N2 & N3).
  set (mime := default (st "application/octet-stream")
                 (content_type_mappings
                    !! str_lower (os_path_splitext_ext X))).
  destruct (build_response_bytes now 200 (st "OK") P
              [(st "Content-Type", mime)]) as (header & Hh & Hb);
    [done|done|cbn [encodable_headers forallb]; unfold mime; by rewrite mime_type_encodable|].
  exists header, mime. split; [|split; [done|by eexists _, _, _]].
  assert (SLASH :: X <> st "/") as N0 by (intros [= ->]; done).
  unfold handle_get.
  rewrite (bool_decide_eq_false_2 _ N0), (bool_decide_eq_false_2 _ N1),
    (bool_decide_eq_false_2 _ N2), (bool_decide_eq_false_2 _ N3).
  cbn [drop]. rewrite drop_0.
  rewrite (bool_decide_eq_false_2 _ Hne), Hfile. cbn [negb orb].
  rewrite Hread. cbn [mbind result_bind try_except_pure].
  fold mime. by rewrite Hb.
Qed.
End StoreFacts.

(** The reference interpreter and file system satisfy what is assumed. *)
Lemma ascii_runtime_laws : PyRuntimeLaws ascii_runtime.
Proof.
  split.
  - done.
  - intros a b. apply map_app.
  - done.
  - done.
Qed.

Lemma mem_fs_laws : FileSystemLaws mem_fs.
Proof.
  split; cbn.
  - intros s p d s' [= <-]. rewrite lookup_insert_eq.
    split; [|done]. apply bool_decide_eq_true_2. eauto.
  - intros s p s'. destruct (s !! p) eqn:E; [|done]. intros [= <-].
    rewrite lookup_delete_eq. apply bool_decide_eq_false_2. by intros [? ?].
  - done.
  - intros s p e. destruct (s !! p); [done|]. by intros [= <-].
  - done.
  - intros s p e. destruct (s !! p); [done|]. by intros [= <-].
  - done.
  - intros s p s' e. destruct (s !! p); [done|]. by intros [= _ <-].
Qed.

Section DeleteFacts.
Context `{PyRuntime} `{FileSystem}.
Variable self : AdvancedHttpProcessor.

Lemma handle_delete_404 now p h s :
  encodable (now_strftime now) = true -> encodable (drop 1 p) = true ->
  drop 1 p = []
  \/ os_path_exists s (os_path_join (storage_directory self) (drop 1 p))
     = false ->
  exists r, handle_delete self now p h s = (s, Ok r) /\ responds now 404 r.
Proof.
  intros Hdate Hp Hcase.
  destruct (build_response_responds now 404 (st "Not Found")
              (Str (st "File " ++ drop 1 p ++ st " not found")) [])
    as (r & Hr & Hresp); [done|done|cbn [encodable_content]; enc|done|].
  exists r. split; [|done]. unfold handle_delete.
  destruct Hcase as [He|Hex].
  - rewrite (bool_decide_eq_true_2 _ He). cbn [orb]. by rewrite Hr.
  - rewrite Hex. cbn [negb]. rewrite orb_true_r. by rewrite Hr.
Qed.

Lemma handle_delete_200 now F h s s' :
  encodable (now_strftime now) = true -> encodable F = true -> F <> [] ->
  os_path_exists s (os_path_join (storage_directory self) F) = true ->
  os_remove s (os_path_join (storage_directory self) F) = (s', Ok tt) ->
  exists r, handle_delete self now (SLASH :: F) h s = (s', Ok r)
            /\ responds now 200 r.
Proof.
  intros Hdate HF Hne Hex Hrm.
  destruct (build_response_responds now 200 (st "OK")
              (Str (st "File " ++ F ++ st " deleted successfully")) [])
    as (r & Hr & Hresp); [done|done|cbn [encodable_content]; enc|done|].
  exists r. split; [|done]. unfold handle_delete. cbn [drop]. rewrite drop_0.
  rewrite (bool_decide_eq_false_2 _ Hne), Hex. cbn [negb orb].
  rewrite Hrm. unfold try_except. by rewrite Hr.
Qed.

Lemma handle_get_404 now F h s :
  encodable (now_strftime now) = true -> encodable F = true ->
  F <> [] -> F ∉ reserved_names ->
  os_path_isfile s (os_path_join (storage_directory self) F) = false ->
  exists r, handle_get self now (SLASH :: F) h s = (s, Ok r)
            /\ responds now 404 r.
Proof.
  intros Hdate HF Hne Hres Hfile.
  destruct (not_reserved F Hres) as (N1 & N2 & N3).
  assert (SLASH :: F <> st "/") as N0 by (intros [= ->]; done).
  destruct (build_response_responds now 404 (st "Not Found")
              (Str (st "File " ++ F ++ st " not found")) [])
    as (r & Hr & Hresp); [done|done|cbn [encodable_content]; enc|done|].
  exists r. split; [|done]. unfold handle_get.
  rewrite (bool_decide_eq_false_2 _ N0), (bool_decide_eq_false_2 _ N1),
    (bool_decide_eq_false_2 _ N2), (bool_decide_eq_false_2 _ N3).
  cbn [drop]. rewrite drop_0.
  rewrite Hfile. cbn [negb]. by rewrite orb_true_r, Hr.
Qed.
End DeleteFacts.



(** ** Handlers that always answer *)

Section Answers.
Context `{PyRuntime}.

Lemma answers_intro now codes code text content extra :
  code ∈ codes ->
  encodable (now_strftime now) = true -> encodable text = true ->
  encodable_content content = true -> encodable_headers extra = true ->
  answers now codes (build_response now code text content extra).
Proof.
  intros Hin Hd Ht Hc He.
  destruct (build_response_responds now code text content extra Hd Ht Hc He)
    as (r & -> & Hr).
  by exists r, code.
Qed.

Lemma answers_mono now codes codes' r :
  codes ⊆ codes' -> answers now codes r -> answers now codes' r.
Proof. intros Hsub (b & code & -> & Hin & Hr). exists b, code. auto. Qed.
End Answers.

(** Membership in, and inclusion of, explicit lists of status codes. *)
Ltac in_codes :=
  repeat first [apply list_elem_of_here | apply list_elem_of_further].
Ltac sub_codes :=
  let x := fresh in
  let Hx := fresh in
  intros x Hx; rewrite ?elem_of_cons, ?elem_of_nil in *; tauto.

(** Closes [answers] goals for a response built from encodable parts. *)
Ltac answer :=
  apply answers_intro;
  [ in_codes | done | done | cbn [encodable_content]; enc | done ].

Section HandlersAnswer.
Context `{PyRuntime} `{FileSystem}.
Hypothesis rlaws : PyRuntimeLaws _.
Hypothesis flaws : FileSystemLaws _.
Variable self : AdvancedHttpProcessor.
Variable now : clock.
Hypothesis date_encodable : encodable (now_strftime now) = true.

Lemma os_exn_inv e :
  os_exn e = true ->
  is_Exception (exn_class e) = true /\ encodable (exn_str e) = true.
Proof. unfold os_exn. by intros [? ?]%andb_true_iff. Qed.

(** The [except Exception] clause that answers 500 with the text of the
    exception. *)
Lemma caught_answers_500 (r : result bytes) text (prefix : str) codes :
  500%Z ∈ codes -> encodable text = true -> encodable prefix = true ->
  (forall e, r = Raise e ->
             is_Exception (exn_class e) = true /\ encodable (exn_str e) = true) ->
  (forall b, r = Ok b -> answers now codes (Ok b)) ->
  answers now codes
    (try_except_pure is_Exception r
       (fun e => build_response now 500 text (Str (prefix ++ exn_str e)) [])).
Proof.
  intros H500 Ht Hp Hraise Hok. destruct r as [b|e]; cbn [try_except_pure].
  - by apply Hok.
  - destruct (Hraise e eq_refl) as [-> He].
    apply answers_intro; try done. cbn [encodable_content]. enc.
Qed.

Lemma build_response_exn code text content extra e :
  build_response now code text content extra = Raise e ->
  is_Exception (exn_class e) = true /\ encodable (exn_str e) = true.
Proof.
  intros (Hc & s & Hs)%build_response_raises. rewrite Hc, Hs.
  split; [done|]. apply (encode_error_encodable _ rlaws).
Qed.

Lemma directory_entries_exn s items e :
  directory_entries self s items = Raise e ->
  is_Exception (exn_class e) = true /\ encodable (exn_str e) = true.
Proof.
  induction items as [|item items IH]; cbn [directory_entries]; [done|].
  destruct (os_path_isfile s _); [|exact IH].
  destruct (os_path_getsize s _) as [n|e'] eqn:Hg; cbn [mbind result_bind].
  - destruct (directory_entries self s items) as [es|e'']; cbn; [done|].
    intros [= <-]. by apply IH.
  - intros [= <-]. apply os_exn_inv. by eapply getsize_raises.
Qed.

(** [handle_get] always answers, and never changes the file system. *)
Lemma handle_get_answers p h s :
  encodable p = true ->
  exists r, handle_get self now p h s = (s, r)
            /\ answers now [200; 302; 404; 500]%Z r.
Proof.
  intros Hp. unfold handle_get.
  destruct (bool_decide (p = st "/")).
  { eexists. split; [done|]. answer. }
  destruct (bool_decide (p = st "/redirect")).
  { eexists. split; [done|]. answer. }
  destruct (bool_decide (p = st "/status")).
  { eexists. split; [done|]. answer. }
  destruct (bool_decide (p = st "/directory")).
  { eexists. split; [done|].
    apply (caught_answers_500 _ (st "Server Error") []); try done; [in_codes|..].
    - intros e.
      destruct (os_listdir s (storage_directory self)) as [items|e0] eqn:Hl;
        cbn [mbind result_bind].
      + destruct (directory_entries self s items) as [es|e1] eqn:Hes;
          cbn [mbind result_bind].
        * apply build_response_exn.
        * intros [= <-]. by eapply directory_entries_exn.
      + intros [= <-]. apply os_exn_inv. by eapply listdir_raises.
    - intros b Hb.
      destruct (os_listdir s (storage_directory self)) as [items|e0];
        cbn [mbind result_bind] in Hb; [|done].
      destruct (directory_entries self s items) as [es|e1];
        cbn [mbind result_bind] in Hb; [|done].
      exists b, 200%Z. split; [done|]. split; [in_codes|].
      by eexists _, _, _. }
  destruct (bool_decide (drop 1 p = []) || negb (os_path_isfile s _)).
  { eexists. split; [done|]. answer. }
  eexists. split; [done|].
  apply (caught_answers_500 _ (st "Internal Server Error") []); try done;
    [in_codes|..].
  - intros e. destruct (read_file s _) as [d|e0] eqn:Hr; cbn [mbind result_bind].
    + apply build_response_exn.
    + intros [= <-]. apply os_exn_inv. by eapply read_raises.
  - intros b Hb. destruct (read_file s _) as [d|e0]; cbn [mbind result_bind] in Hb;
      [|done].
    exists b, 200%Z. split; [done|]. split; [in_codes|]. by eexists _, _, _.
Qed.

(** [handle_delete] always answers. *)
Lemma handle_delete_answers p h s :
  encodable p = true ->
  exists s' r, handle_delete self now p h s = (s', r)
               /\ answers now [200; 404; 500]%Z r.
Proof.
  intros Hp. unfold handle_delete.
  destruct (bool_decide (drop 1 p = []) || negb (os_path_exists s _)).
  { eexists _, _. split; [done|]. answer. }
  destruct (os_remove s _) as [s' [[]|e]] eqn:Hrm; unfold try_except.
  - destruct (build_response now 200 _ _ _) as [b|e] eqn:Hb.
    + eexists _, _. split; [done|]. exists b, 200%Z.
      split; [done|]. split; [in_codes|]. by eexists _, _, _.
    + destruct (build_response_exn _ _ _ _ _ Hb) as [-> He].
      eexists _, _. split; [done|].
      answer.
  - destruct (os_exn_inv e (remove_raises _ flaws _ _ _ _ Hrm)) as [-> He].
    eexists _, _. split; [done|].
    answer.
Qed.

Lemma re_search_filename_encodable key q l m :
  encodable l = true -> re_search_filename key q l = Some m ->
  encodable m = true.
Proof.
  intros Hl. unfold re_search_filename.
  destruct (find key l) as [i|]; [|done].
  destruct (contains [q] _); [|done]. intros [= <-].
  by apply encodable_take_while, encodable_drop.
Qed.

Lemma parse_form_data_encodable body boundary fn d :
  parse_form_data body boundary = Ok (Some fn, d) -> encodable fn = true.
Proof.
  intros (b & part & raw & name & i & _ & _ & _ & Hd & -> & _)%parse_form_data_Some_inv.
  apply encodable_basename. by eapply utf8_decode_encodable.
Qed.

(** The filename chosen for an upload can be encoded. *)
Lemma upload_source_encodable body headers f P :
  encodable_dict headers ->
  upload_source now body headers = Ok (inr (Some f, P)) ->
  encodable f = true.
Proof.
  intros Hh. unfold upload_source.
  assert (forall k, encodable (default [] (headers !! k)) = true) as Hget.
  { intros k. destruct (headers !! k) as [v|] eqn:E; [|done]. by eapply Hh. }
  destruct (contains (st "multipart/form-data") _).
  - destruct (re_search_boundary _) as [boundary|].
    + destruct (parse_form_data body (Str boundary)) as [[fn d]|e] eqn:Hp;
        cbn [mbind result_bind]; [|done].
      destruct (falsy fn || bool_decide (d = None)) eqn:E.
      * by intros (r' & [=] & _)%fmap_inl_Ok.
      * intros [= -> _]. by eapply parse_form_data_encodable.
    + by intros (r' & [=] & _)%fmap_inl_Ok.
  - cbv zeta.
    match goal with
    | |- Ok (inr ((if falsy ?y then _ else _), _)) = _ -> _ => set (x := y)
    end.
    assert (forall v, x = Some v -> encodable v = true) as HX.
    { subst x. intros v.
      destruct (falsy (headers !! st "x-upload-filename")).
      - destruct (re_search_filename _ _ _) as [m|] eqn:Hm.
        + intros [= <-].
          eapply re_search_filename_encodable; [apply Hget|exact Hm].
        + intros Hv. specialize (Hget (st "x-upload-filename")).
          by rewrite Hv in Hget.
      - intros Hv. specialize (Hget (st "x-upload-filename")).
        by rewrite Hv in Hget. }
    clearbody x. destruct (falsy x).
    + intros Heq.
      assert (Some (st "uploaded_file_" ++ str_of_Z (now_timestamp now))
              = Some f) as Hf by congruence.
      apply (inj Some) in Hf. rewrite <- Hf.
      rewrite encodable_app, encodable_str_of_Z. reflexivity.
    + intros [= Hf _]. by apply HX.
Qed.

Lemma safe_filename_encodable f :
  encodable f = true -> encodable (safe_filename now f) = true.
Proof.
  intros Hf. unfold safe_filename.
  destruct (_ || _); [enc|by apply encodable_basename].
Qed.

(** [handle_upload] always answers. *)
Lemma handle_upload_answers body headers s :
  encodable_dict headers ->
  exists s' r, handle_upload self now body headers s = (s', r)
               /\ answers now [201; 400; 500]%Z r.
Proof.
  intros Hh. unfold handle_upload.
  destruct (upload_source now body headers) as [[response|[filename P]]|e] eqn:Hsrc.
  - eexists _, _. split; [done|]. exists response, 400%Z.
    split; [done|]. split; [in_codes|]. by eapply upload_source_early.
  - destruct (upload_source_chosen _ _ _ _ _ Hsrc) as (f & -> & Hf).
    pose proof (upload_source_encodable _ _ _ _ Hh Hsrc) as Hfe.
    pose proof (safe_filename_encodable _ Hfe) as Hse.
    destruct f as [|c f]; [done|]. cbn [falsy default].
    destruct (write_file s _ P) as [s1 [[]|e]] eqn:Hw; unfold try_except.
    + destruct (build_response now 201 _ _ _) as [b|e] eqn:Hb.
      * eexists _, _. split; [done|]. exists b, 201%Z.
        split; [done|]. split; [in_codes|]. by eexists _, _, _.
      * destruct (build_response_exn _ _ _ _ _ Hb) as [-> He].
        eexists _, _. split; [done|].
        answer.
    + destruct (os_exn_inv e (write_raises _ flaws _ _ _ _ _ Hw)) as [-> He].
      eexists _, _. split; [done|].
      answer.
  - destruct (upload_source_raises _ _ _ _ Hsrc) as (Hc & t & Ht).
    unfold try_except. rewrite Hc. cbn [is_Exception].
    eexists _, _. split; [done|].
    answer.
    cbn [encodable_content]. rewrite Ht. enc.
    apply (encode_error_encodable _ rlaws).
Qed.
End HandlersAnswer.

(** ** Parsing the head of a request *)

Section ParseFacts.
Context `{PyRuntime}.

Lemma encodable_dict_insert (k v : str) (m : gmap str str) :
  encodable v = true -> encodable_dict m -> encodable_dict (<[k := v]> m).
Proof. intros Hv Hm. by apply map_Forall_insert_2. Qed.

Lemma parse_headers_encodable lines :
  Forall (fun l => encodable l = true) lines ->
  encodable_dict (parse_headers lines).
Proof.
  unfold parse_headers.
  assert (forall m, Forall (fun l => encodable l = true) lines ->
                    encodable_dict m ->
                    encodable_dict
                      (fold_left
                         (fun request_headers header =>
                            match find [COLON] header with
                            | Some i =>
                                <[str_lower (strip (take i header))
                                  := strip (drop (S i) header)]> request_headers
                            | None => request_headers
                            end) lines m)) as Hfold.
  { induction lines as [|l lines IH]; intros m Hl Hm; cbn [fold_left]; [done|].
    apply Forall_cons in Hl as [Hl Hls]. apply IH; [done|].
    destruct (find [COLON] l); [|done].
    apply encodable_dict_insert; [|done].
    by apply encodable_strip, encodable_drop. }
  intros Hl. apply Hfold; [done|]. apply map_Forall_empty.
Qed.

Lemma split_encodable sep l :
  encodable l = true -> Forall (fun p => encodable p = true) (split sep l).
Proof.
  intros Hl%encodable_Forall.
  eapply Forall_impl; [by apply split_Forall|].
  intros p Hp. by apply encodable_Forall.
Qed.

(** What [parse_head] hands to the handlers can be encoded. *)
Lemma parse_head_encodable header_section m p v headers :
  parse_head header_section = Ok (Some (m, p, v, headers)) ->
  encodable p = true /\ encodable_dict headers.
Proof.
  unfold parse_head, bytes_decode.
  destruct (utf8_decode header_section) as [text|] eqn:Hd; [|done].
  cbn [mbind result_bind].
  pose proof (split_encodable CRLF text (utf8_decode_encodable _ _ Hd)) as Hlines.
  destruct (split CRLF text) as [|line lines]; [done|].
  apply Forall_cons in Hlines as [Hline Hlines].
  pose proof (split_encodable [SPACE] line Hline) as Hparts.
  destruct (split [SPACE] line) as [|m0 [|p0 [|v0 rest]]]; [done..|].
  intros [= _ <- _ <-].
  apply Forall_cons in Hparts as [_ [Hp _]%Forall_cons].
  split; [done|]. by apply parse_headers_encodable.
Qed.

Lemma parse_head_raises header_section e :
  parse_head header_section = Raise e ->
  exn_class e = UnicodeDecodeError
  /\ exn_str e = decode_error_str header_section
  /\ utf8_decode header_section = None.
Proof.
  unfold parse_head, bytes_decode.
  destruct (utf8_decode header_section) as [text|] eqn:Hd.
  - cbn [mbind result_bind].
    pose proof (split_go_nonempty CRLF text 0 []) as Hne.
    fold (split CRLF text) in Hne.
    destruct (split CRLF text) as [|line lines]; [done|].
    by destruct (split [SPACE] line) as [|m0 [|p0 [|v0 rest]]].
  - intros [= <-]. done.
Qed.
End ParseFacts.

(** ** [handle_request] always answers *)

Section RequestAnswers.
Context `{PyRuntime} `{FileSystem}.
Hypothesis rlaws : PyRuntimeLaws _.
Hypothesis flaws : FileSystemLaws _.
Variable self : AdvancedHttpProcessor.
Variable now : clock.
Hypothesis date_encodable : encodable (now_strftime now) = true.

Lemma try_except_answers catches codes (out : fs * result bytes) handler :
  answers now codes out.2 ->
  try_except catches out handler = out.
Proof.
  destruct out as [s [b|e]]; [done|]. by intros (b & code & [=] & _).
Qed.

Lemma handle_request_answers data s :
  exists s' r, handle_request now self data s = (s', r)
               /\ answers now [200; 201; 302; 400; 404; 405; 500]%Z r.
Proof.
  unfold handle_request, handle_request_with.
  set (codes := [200; 201; 302; 400; 404; 405; 500]%Z).
  assert (forall out : fs * result bytes,
            answers now codes out.2 ->
            exists s' r,
              try_except is_Exception out
                (fun e => build_response now 500 (st "Internal Server Error")
                            (Str (exn_str e)) []) = (s', r)
              /\ answers now codes r) as Houter.
  { intros [s' r] Ha. exists s', r.
    split; [by eapply try_except_answers|done]. }
  destruct (find bCRLFCRLF data) as [hb|].
  2:{ apply Houter. cbn [snd]. subst codes. answer. }
  apply Houter.
  destruct (parse_head (take hb data)) as [[[[[m p] v] headers]|]|e] eqn:Hph.
  - destruct (parse_head_encodable _ _ _ _ _ Hph) as [Hp Hh].
    cbn [self_handle_upload self_handle_get self_handle_delete].
    destruct (route_of m p).
    + destruct (handle_upload_answers rlaws flaws self now date_encodable
                  (drop (hb + 4) data) headers s Hh) as (s' & r & Heq & Ha).
      assert (answers now codes r) as Ha'
        by (eapply answers_mono; [|exact Ha]; subst codes; sub_codes).
      rewrite Heq. by rewrite (try_except_answers _ codes (s', r) _ Ha').
    + destruct (handle_get_answers rlaws flaws self now date_encodable
                  p headers s Hp) as (r & Heq & Ha).
      assert (answers now codes r) as Ha'
        by (eapply answers_mono; [|exact Ha]; subst codes; sub_codes).
      rewrite Heq. by rewrite (try_except_answers _ codes (s, r) _ Ha').
    + destruct (handle_delete_answers rlaws flaws self now date_encodable
                  p headers s Hp) as (s' & r & Heq & Ha).
      assert (answers now codes r) as Ha'
        by (eapply answers_mono; [|exact Ha]; subst codes; sub_codes).
      rewrite Heq. by rewrite (try_except_answers _ codes (s', r) _ Ha').
    + assert (answers now codes
                (build_response now 405 (st "Method Not Allowed")
                   (Str (st "HTTP method not supported")) [])) as Ha'
        by (subst codes; answer).
      by rewrite (try_except_answers _ codes (s, _) _ Ha').
  - assert (answers now codes
              (build_response now 400 (st "Bad Request")
                 (Str (st "Invalid HTTP request line")) [])) as Ha'
      by (subst codes; answer).
    by rewrite (try_except_answers _ codes (s, _) _ Ha').
  - destruct (parse_head_raises _ _ Hph) as (Hc & Hs & _).
    unfold try_except. rewrite Hc. cbn [is_parse_error snd].
    pose proof (decode_error_encodable _ rlaws (take hb data)) as He.
    rewrite <- Hs in He. subst codes. answer.
Qed.
End RequestAnswers.

(** ** One status per response *)

Section OneStatus.
Context `{PyRuntime}.

(** A response carries one of the seven status codes of the processor at
    most. *)
Lemma responds_code_unique now now' c1 c2 r :
  c1 ∈ [200; 201; 302; 400; 404; 405; 500]%Z ->
  c2 ∈ [200; 201; 302; 400; 404; 405; 500]%Z ->
  responds now c1 r -> responds now' c2 r -> c1 = c2.
Proof.
  intros H1 H2 (d1 & rest1 & Hd1 & ->)%responds_status_line
    (d2 & rest2 & Hd2 & Heq)%responds_status_line.
  rewrite !elem_of_cons, elem_of_nil in H1, H2.
  destruct H1 as [->|[->|[->|[->|[->|[->|[->|[]]]]]]]];
    vm_compute in Hd1; injection Hd1 as <-;
    destruct H2 as [->|[->|[->|[->|[->|[->|[->|[]]]]]]]];
    vm_compute in Hd2; injection Hd2 as <-;
    first [reflexivity | discriminate].
Qed.

Lemma answers_code now codes code (b : bytes) :
  codes ⊆ [200; 201; 302; 400; 404; 405; 500]%Z ->
  code ∈ [200; 201; 302; 400; 404; 405; 500]%Z ->
  answers now codes (Ok b) -> responds now code b -> code ∈ codes.
Proof.
  intros Hsub Hc (b' & c & [= <-] & Hin & Hr) Hresp.
  by rewrite (responds_code_unique now now code c b Hc (Hsub _ Hin) Hresp Hr).
Qed.
End OneStatus.

(** ** Parsing the request line *)

Section ParseHead.
Context `{PyRuntime}.

Lemma parse_head_decoded header_section text :
  utf8_decode header_section = Some text ->
  parse_head header_section
  = match split CRLF text with
    | [] => Raise (mk_exn IndexError (st "list index out of range"))
    | request_line :: header_lines =>
        match split [SPACE] request_line with
        | m :: p :: v :: _ =>
            Ok (Some (str_upper m, p, v, parse_headers header_lines))
        | _ => Ok None
        end
    end.
Proof. intros Hd. unfold parse_head, bytes_decode. by rewrite Hd. Qed.

Lemma parse_head_short header_section text :
  utf8_decode header_section = Some text ->
  (length (split [SPACE] (hd [] (split CRLF text))) < 3)%nat ->
  parse_head header_section = Ok None.
Proof.
  intros Hd Hlen. rewrite (parse_head_decoded _ _ Hd).
  pose proof (split_go_nonempty CRLF text 0 []) as Hne.
  fold (split CRLF text) in Hne.
  destruct (split CRLF text) as [|line lines]; [done|]. cbn [hd] in Hlen.
  destruct (split [SPACE] line) as [|m [|p [|v rest]]]; try done.
  cbn [length] in Hlen. lia.
Qed.
End ParseHead.

(** ** The header dictionary *)

Section HeaderFacts.
Context `{PyRuntime}.

Lemma parse_headers_snoc lines line :
  parse_headers (lines ++ [line])
  = match find [COLON] line with
    | Some i =>
        <[str_lower (strip (take i line)) := strip (drop (S i) line)]>
          (parse_headers lines)
    | None => parse_headers lines
    end.
Proof. unfold parse_headers. by rewrite fold_left_app. Qed.

Lemma find_first_colon (key value : str) :
  COLON ∉ key -> find [COLON] (key ++ COLON :: value) = Some (length key).
Proof.
  intros Hk.
  rewrite (find_skip COLON [] key (COLON :: value)).
  - cbn [find startswith]. rewrite bool_decide_eq_true_2 by done.
    cbn. f_equal. lia.
  - apply Forall_forall. intros x Hx ->. done.
Qed.
End HeaderFacts.

(** ** From the bytes of a request to the handler *)

Section SplitFacts.
Context {A : Type} `{EqDecision A}.

(** Splitting on a one-element separator at its first occurrence. *)
Lemma split1_cons (c : A) (m l : list A) :
  c ∉ m -> split [c] (m ++ c :: l) = m :: split [c] l.
Proof.
  intros Hm. rewrite split_skip.
  - unfold split at 1. cbn [split_go startswith].
    rewrite bool_decide_eq_true_2 by done. cbn [andb length Nat.sub map_head].
    by rewrite app_nil_r.
  - apply Forall_forall. intros x Hx ->. done.
Qed.

Lemma split_head_tail (sep l : list A) :
  exists first rest, split sep l = first :: rest.
Proof.
  pose proof (split_go_nonempty sep l 0 []) as Hne. fold (split sep l) in Hne.
  destruct (split sep l) as [|first rest]; [done|eauto].
Qed.
End SplitFacts.

Lemma route_of_GET p : route_of (st "GET") p = ToGet.
Proof. vm_compute. reflexivity. Qed.

Lemma route_of_DELETE p : route_of (st "DELETE") p = ToDelete.
Proof. vm_compute. reflexivity. Qed.

Section RequestLine.
Context `{PyRuntime} `{FileSystem}.

(** What [parse_head] makes of a request that asks for [target] with
    [method], neither holding a space. *)
Lemma asks_parse_head method target data :
  SPACE ∉ method -> SPACE ∉ target -> asks method target data ->
  exists hb version headers,
    find bCRLFCRLF data = Some hb
    /\ parse_head (take hb data)
       = Ok (Some (str_upper method, target, version, headers))
    /\ encodable target = true
    /\ encodable_dict headers.
Proof.
  intros Hm Ht [version Hline]. unfold request_line in Hline.
  destruct (find bCRLFCRLF data) as [hb|]; [|done]. cbn in Hline.
  destruct (utf8_decode (take hb data)) as [text|] eqn:Hd; [|done].
  cbn in Hline.
  destruct (split CRLF text) as [|line lines] eqn:Hs; [done|].
  cbn in Hline. injection Hline as ->.
  destruct (split_head_tail [SPACE] version) as (v & rest & Hv).
  exists hb, v, (parse_headers lines).
  assert (parse_head (take hb data)
          = Ok (Some (str_upper method, target, v, parse_headers lines)))
    as Hph.
  { rewrite (parse_head_decoded _ _ Hd), Hs.
    by rewrite (split1_cons SPACE method _ Hm),
      (split1_cons SPACE target _ Ht), Hv. }
  destruct (parse_head_encodable _ _ _ _ _ Hph) as [Hp Hh].
  done.
Qed.

(** A handler that returns a response returns it through both [try]
    statements of [handle_request]. *)
Lemma handle_request_with_routed (self : handlers) now data hb m p v headers
    s s' r :
  find bCRLFCRLF data = Some hb ->
  parse_head (take hb data) = Ok (Some (m, p, v, headers)) ->
  dispatch self (route_of m p) p headers (drop (hb + 4) data) s
  = Some (s', Ok r) ->
  handle_request_with now self data s = (s', Ok r).
Proof.
  intros Hfind Hph Hd. unfold handle_request_with. rewrite Hfind, Hph.
  unfold dispatch in Hd.
  destruct (route_of m p); [| | |discriminate Hd];
    apply (inj Some) in Hd; by rewrite Hd.
Qed.

Hypothesis rlaws : PyRuntimeLaws _.

Lemma str_upper_GET : str_upper (st "GET") = st "GET".
Proof. by rewrite (upper_ascii _ rlaws). Qed.

Lemma str_upper_DELETE : str_upper (st "DELETE") = st "DELETE".
Proof. by rewrite (upper_ascii _ rlaws). Qed.

Lemma str_upper_POST : str_upper (st "POST") = st "POST".
Proof. by rewrite (upper_ascii _ rlaws). Qed.

(** A GET request reaches [handle_get] with the target as its path. *)
Lemma handle_request_get self now target data s r :
  SPACE ∉ target -> asks (st "GET") target data ->
  (forall headers, handle_get self now target headers s = (s, Ok r)) ->
  handle_request now self data s = (s, Ok r).
Proof.
  intros Ht Hasks Hget.
  destruct (asks_parse_head (st "GET") target data)
    as (hb & v & headers & Hfind & Hph & _); [by apply forallb_not_elem_of|done|done|].
  rewrite str_upper_GET in Hph.
  unfold handle_request.
  eapply handle_request_with_routed; [exact Hfind|exact Hph|].
  rewrite route_of_GET. cbn [dispatch self_handle_get]. by rewrite Hget.
Qed.

(** A DELETE request reaches [handle_delete] with the target as its path. *)
Lemma handle_request_delete self now target data s s' r :
  SPACE ∉ target -> asks (st "DELETE") target data ->
  (forall headers, handle_delete self now target headers s = (s', Ok r)) ->
  handle_request now self data s = (s', Ok r).
Proof.
  intros Ht Hasks Hdel.
  destruct (asks_parse_head (st "DELETE") target data)
    as (hb & v & headers & Hfind & Hph & _); [by apply forallb_not_elem_of|done|done|].
  rewrite str_upper_DELETE in Hph.
  unfold handle_request.
  eapply handle_request_with_routed; [exact Hfind|exact Hph|].
  rewrite route_of_DELETE. cbn [dispatch self_handle_delete].
  by rewrite Hdel.
Qed.

Lemma asks_encodable method target data :
  SPACE ∉ method -> SPACE ∉ target -> asks method target data ->
  encodable target = true.
Proof.
  intros Hm Ht Hasks.
  by destruct (asks_parse_head method target data Hm Ht Hasks)
    as (? & ? & ? & _ & _ & ? & _).
Qed.
End RequestLine.

(** ** Round trip and deletion through [handle_request] (C4, C8) *)

Section HeadersUnused.
Context `{PyRuntime} `{FileSystem}.

(** [handle_get] and [handle_delete] do not look at the headers. *)
Lemma handle_get_headers self now p h h' s :
  handle_get self now p h s = handle_get self now p h' s.
Proof. reflexivity. Qed.

Lemma handle_delete_headers self now p h h' s :
  handle_delete self now p h s = handle_delete self now p h' s.
Proof. reflexivity. Qed.
End HeadersUnused.

Lemma not_elem_of_slash_cons (X : str) : SPACE ∉ X -> SPACE ∉ SLASH :: X.
Proof. intros HX. apply not_elem_of_cons. by split. Qed.




Section DeleteFails.
Context `{PyRuntime} `{FileSystem}.
Hypothesis flaws : FileSystemLaws _.
Variable self : AdvancedHttpProcessor.

(** A removal that raises is answered 500, on the file system it left. *)
Lemma handle_delete_500 now F h s s' e :
  encodable (now_strftime now) = true -> F <> [] ->
  os_path_exists s (os_path_join (storage_directory self) F) = true ->
  os_remove s (os_path_join (storage_directory self) F) = (s', Raise e) ->
  exists r, handle_delete self now (SLASH :: F) h s = (s', Ok r)
            /\ responds now 500 r.
Proof.
  intros Hdate Hne Hex Hrm.
  pose proof (remove_raises _ flaws _ _ _ _ Hrm) as He.
  apply andb_true_iff in He as [Hexc Hstr].
  destruct (build_response_responds now 500 (st "Internal Server Error")
              (Str (exn_str e)) []) as (r & Hr & Hresp); [done..|].
  exists r. split; [|done]. unfold handle_delete. cbn [drop]. rewrite drop_0.
  rewrite (bool_decide_eq_false_2 _ Hne), Hex. cbn [negb orb].
  rewrite Hrm. unfold try_except. by rewrite Hexc, Hr.
Qed.
End DeleteFails.




(** ** Every request is answered (C9) *)

(** The bytes of a response: an encoded header section followed by a
    body. *)
Lemma responds_wire `{PyRuntime} now code r :
  responds now code r ->
  exists text n extra header body,
    utf8_encode (response_head now code text n extra) = Some header
    /\ r = header ++ body.
Proof.
  intros (text & content & extra & Hb). rewrite build_response_eq in Hb.
  exists text, (len content), extra.
  destruct (match content with Bytes b => Ok b | Str s => str_encode s end)
    as [body|e]; [|done].
  cbn [mbind result_bind] in Hb. unfold str_encode in Hb.
  destruct (utf8_encode (response_head now code text (len content) extra))
    as [header|]; [|done].
  cbn in Hb. injection Hb as <-. by exists header, body.
Qed.

(** A request without the header terminator, one whose header section is
    not valid UTF-8, and one whose request line has fewer than three
    space-separated parts are each answered 400, and the file system is
    left as it was. *)
Lemma handle_request_refuses `{PyRuntime} `{FileSystem}
    (self : AdvancedHttpProcessor) (now : clock) (data : bytes) (s : fs) :
  PyRuntimeLaws _ ->
  encodable (now_strftime now) = true ->
  (find bCRLFCRLF data = None
   \/ (exists hb, find bCRLFCRLF data = Some hb
                  /\ utf8_decode (take hb data) = None)
   \/ (exists hb text,
         find bCRLFCRLF data = Some hb
         /\ utf8_decode (take hb data) = Some text
         /\ (length (split [SPACE] (hd [] (split CRLF text))) < 3)%nat)) ->
  exists b, handle_request now self data s = (s, Ok b) /\ responds now 400 b.
Proof.
  intros rlaws Hdate Hcase. unfold handle_request, handle_request_with.
  destruct Hcase as [Hnone|[(hb & Hfind & Hdec)|(hb & text & Hfind & Hdec & Hlen)]].
  - rewrite Hnone.
    destruct (build_response_responds now 400 (st "Bad Request")
                (Str (st "Malformed HTTP request")) []) as (b & Hb & Hr);
      [done..|].
    exists b. by rewrite Hb.
  - rewrite Hfind. unfold parse_head, bytes_decode. rewrite Hdec.
    cbn [mbind result_bind try_except exn_class is_parse_error exn_str].
    destruct (build_response_responds now 400 (st "Bad Request")
                (Str (st "Request parsing error: "
                      ++ decode_error_str (take hb data))) [])
      as (b & Hb & Hr); [done|done| |done|].
    { cbn [encodable_content]. rewrite encodable_app.
      by rewrite (decode_error_encodable _ rlaws). }
    exists b. by rewrite Hb.
  - rewrite Hfind, (parse_head_short _ _ Hdec Hlen).
    destruct (build_response_responds now 400 (st "Bad Request")
                (Str (st "Invalid HTTP request line")) []) as (b & Hb & Hr);
      [done..|].
    exists b. by rewrite Hb.
Qed.


(** What [handle_request] does with an exception that leaves a handler
    method, whatever the method is: an [IndexError] or a [ValueError] (the
    Unicode errors included) is caught by the inner clause and answered
    400; any other [Exception] is answered 500; an exception that is not an
    [Exception] is not caught. *)
Lemma handler_exception_converted `{PyRuntime} `{FileSystem}
    (self : handlers) (now : clock) (data : bytes) (s s' : fs)
    (hb : nat) (m p v : str) (headers : gmap str str) (e : exn) :
  encodable (now_strftime now) = true ->
  encodable (exn_str e) = true ->
  find bCRLFCRLF data = Some hb ->
  parse_head (take hb data) = Ok (Some (m, p, v, headers)) ->
  dispatch self (route_of m p) p headers (drop (hb + 4) data) s
  = Some (s', Raise e) ->
  (is_parse_error (exn_class e) = true ->
   exists b, handle_request_with now self data s = (s', Ok b)
             /\ responds now 400 b)
  /\ (is_parse_error (exn_class e) = false ->
      is_Exception (exn_class e) = true ->
      exists b, handle_request_with now self data s = (s', Ok b)
                /\ responds now 500 b)
  /\ (is_Exception (exn_class e) = false ->
      handle_request_with now self data s = (s', Raise e)).
Proof.
  intros Hdate He Hfind Hph Hd.
  assert (handle_request_with now self data s
          = try_except is_Exception
              (try_except is_parse_error (s', Raise e)
                 (fun decode_error =>
                    build_response now 400 (st "Bad Request")
                      (Str (st "Request parsing error: "
                            ++ exn_str decode_error)) []))
              (fun handler_error =>
                 build_response now 500 (st "Internal Server Error")
                   (Str (exn_str handler_error)) [])) as ->.
  { unfold handle_request_with. rewrite Hfind, Hph.
    unfold dispatch in Hd.
    destruct (route_of m p); [| | |discriminate Hd];
      apply (inj Some) in Hd; by rewrite Hd. }
  destruct (build_response_responds now 400 (st "Bad Request")
              (Str (st "Request parsing error: " ++ exn_str e)) [])
    as (b4 & Hb4 & Hr4); [done|done|cbn [encodable_content]; enc|done|].
  destruct (build_response_responds now 500 (st "Internal Server Error")
              (Str (exn_str e)) [])
    as (b5 & Hb5 & Hr5); [done..|].
  unfold try_except. split; [|split].
  - intros ->. exists b4. by rewrite Hb4.
  - intros -> ->. exists b5. by rewrite Hb5.
  - intros Hn. destruct (is_parse_error (exn_class e)) eqn:Hpe.
    + by destruct (exn_class e).
    + by rewrite Hn.
Qed.





(** ** The case of the method (C10) *)

Lemma method_char_inv c :
  method_char c = true -> c < 128 /\ c <> CR /\ c <> SPACE.
Proof.
  unfold method_char, CR, SPACE.
  rewrite !andb_true_iff, !negb_true_iff, N.ltb_lt, !N.eqb_neq. tauto.
Qed.

Lemma recased_inv m1 m2 :
  recased m1 m2 = true ->
  length m1 = length m2
  /\ Forall (fun b => method_char (Byte.to_N b) = true) m1
  /\ Forall (fun b => method_char (Byte.to_N b) = true) m2
  /\ map ascii_upper (map Byte.to_N m1) = map ascii_upper (map Byte.to_N m2).
Proof.
  revert m2. induction m1 as [|a m1 IH]; intros [|b m2]; cbn [recased]; try done.
  intros [[[Ha Hb]%andb_true_iff Hab]%andb_true_iff Hrec]%andb_true_iff.
  apply N.eqb_eq in Hab. destruct (IH _ Hrec) as (Hl & H1 & H2 & Hu).
  cbn [length map]. rewrite Hab, Hu, Hl. repeat split; by constructor.
Qed.

(** Decoding passes over a run of ASCII bytes. *)
Lemma utf8_decode_ascii_prefix (m r : bytes) :
  Forall (fun b => Byte.to_N b < 128) m ->
  utf8_decode (m ++ r) = app (map Byte.to_N m) <$> utf8_decode r.
Proof.
  induction 1 as [|b m Hb _ IH]; cbn [app map].
  - by destruct (utf8_decode r).
  - cbn [utf8_decode]. apply N.ltb_lt in Hb. rewrite Hb, IH.
    by destruct (utf8_decode r).
Qed.

Section Routing.
Context `{PyRuntime} `{FileSystem}.

(** The routing of a request that starts with a run of method characters,
    from those characters upper-cased and the rest of the request. *)
Lemma routing_method (rlaws : PyRuntimeLaws _) (m rest : bytes) :
  Forall (fun b => method_char (Byte.to_N b) = true) m ->
  routing (m ++ rest)
  = match find bCRLFCRLF rest with
    | None => None
    | Some i =>
        match utf8_decode (take i rest) with
        | None => None
        | Some text =>
            match split CRLF text with
            | [] => None
            | line :: lines =>
                match split [SPACE] line with
                | p0 :: p1 :: p2 :: _ =>
                    Some (route_of (map ascii_upper (map Byte.to_N m)
                                    ++ str_upper p0) p1,
                          p1, parse_headers lines, drop (i + 4) rest)
                | _ => None
                end
            end
        end
    end.
Proof.
  intros Hm. unfold routing.
  assert (Forall (fun b => b <> x0d) m) as Hcr.
  { eapply Forall_impl; [exact Hm|]. intros b Hb ->. done. }
  assert (Forall (fun b => Byte.to_N b < 128) m) as Hascii.
  { eapply Forall_impl; [exact Hm|]. intros b Hb.
    by destruct (method_char_inv _ Hb). }
  assert (Forall (fun c => c <> CR) (map Byte.to_N m)) as HCR.
  { apply Forall_map. eapply Forall_impl; [exact Hm|]. intros b Hb.
    by destruct (method_char_inv _ Hb) as (_ & ? & _). }
  assert (Forall (fun c => c <> SPACE) (map Byte.to_N m)) as HSP.
  { apply Forall_map. eapply Forall_impl; [exact Hm|]. intros b Hb.
    by destruct (method_char_inv _ Hb) as (_ & _ & ?). }
  assert (forallb is_asciib (map Byte.to_N m) = true) as Hasc.
  { apply forallb_forall. intros c (b & <- & Hb)%in_map_iff.
    apply N.ltb_lt. by apply (proj1 (List.Forall_forall _ _) Hascii). }
  unfold bCRLFCRLF at 1. rewrite (find_skip x0d _ m rest Hcr).
  fold bCRLFCRLF.
  destruct (find bCRLFCRLF rest) as [i|]; [|done]. cbn [fmap option_fmap option_map].
  rewrite take_app_add' by done.
  replace (drop (length m + i + 4) (m ++ rest)) with (drop (i + 4) rest)
    by (rewrite <- Nat.add_assoc, drop_app_add' by done; done).
  destruct (utf8_decode (take i rest)) as [text|] eqn:Hd.
  2:{ unfold parse_head, bytes_decode.
      rewrite (utf8_decode_ascii_prefix _ _ Hascii), Hd. done. }
  rewrite (parse_head_decoded _ (map Byte.to_N m ++ text))
    by (by rewrite (utf8_decode_ascii_prefix _ _ Hascii), Hd).
  unfold CRLF at 1. rewrite (split_skip CR _ _ text HCR). fold CRLF.
  destruct (split_head_tail CRLF text) as (line & lines & ->).
  cbn [map_head].
  rewrite (split_skip SPACE [] _ line HSP).
  destruct (split_head_tail [SPACE] line) as (p0 & ps & ->).
  cbn [map_head]. destruct ps as [|p1 [|p2 ps]]; [done..|].
  by rewrite (upper_app _ rlaws), (upper_ascii _ rlaws _ Hasc).
Qed.

(** [handle_request] is the routing followed by the handler call and the
    two [except] clauses. *)
Lemma handle_request_with_routing (self : handlers) now data s r p h body :
  routing data = Some (r, p, h, body) ->
  handle_request_with now self data s
  = try_except is_Exception
      (try_except is_parse_error
         (match dispatch self r p h body s with
          | Some out => out
          | None =>
              (s, build_response now 405 (st "Method Not Allowed")
                    (Str (st "HTTP method not supported")) [])
          end)
         (fun decode_error =>
            build_response now 400 (st "Bad Request")
              (Str (st "Request parsing error: " ++ exn_str decode_error))
              []))
      (fun handler_error =>
         build_response now 500 (st "Internal Server Error")
           (Str (exn_str handler_error)) []).
Proof.
  unfold routing, handle_request_with.
  destruct (find bCRLFCRLF data) as [hb|]; [|done].
  destruct (parse_head (take hb data)) as [[[[[m p'] v] h']|]|e]; [|done..].
  intros [= <- <- <- <-]. by destruct (route_of m p').
Qed.
End Routing.

(** C10.  Let two requests differ only in the case of letters within a run
    of ASCII characters at their start that holds no space and no carriage
    return, the method.  Then [handle_request] routes them alike: both are refused before routing, or both reach the
    same branch of lines 143-150 with the same path, headers and body; and
    when they are routed, the outcome of [handle_request] is the same,
    whatever the handler methods are.  Assumed of the interpreter:
    [str.upper] works character by character and is the usual one on ASCII
    text. *)
Theorem routing_ignores_method_case `{PyRuntime} `{FileSystem}
    (m1 m2 rest : bytes) :
  PyRuntimeLaws _ ->
  recased m1 m2 = true ->
  routing (m1 ++ rest) = routing (m2 ++ rest)
  /\ (forall (self : handlers) now s,
        is_Some (routing (m1 ++ rest)) ->
        handle_request_with now self (m1 ++ rest) s
        = handle_request_with now self (m2 ++ rest) s).
Proof.
  intros rlaws (Hlen & H1 & H2 & Hup)%recased_inv.
  assert (routing (m1 ++ rest) = routing (m2 ++ rest)) as Heq.
  { rewrite (routing_method rlaws m1 rest H1),
      (routing_method rlaws m2 rest H2). by rewrite Hup. }
  split; [done|]. intros self now s [[[[r p] h] body] Hr].
  rewrite (handle_request_with_routing self now _ s r p h body Hr).
  rewrite Heq in Hr.
  by rewrite (handle_request_with_routing self now _ s r p h body Hr).
Qed.

(** [get] and [GeT] for the status page reach [handle_get] alike. *)
Lemma routing_ignores_method_case_witness :
  let rest := bs " /status HTTP/1.1" ++ bCRLFCRLF in
  routing (H := ascii_runtime) (bs "get" ++ rest)
  = routing (H := ascii_runtime) (bs "GeT" ++ rest)
  /\ routing (H := ascii_runtime) (bs "GeT" ++ rest)
     = Some (ToGet, st "/status", ∅, []).
Proof.
  intros rest. split.
  - apply (routing_ignores_method_case (H := ascii_runtime) (H0 := mem_fs)
             (bs "get") (bs "GeT") rest ascii_runtime_laws).
    reflexivity.
  - vm_compute. reflexivity.
Defined.

(** * Further properties *)

(** ** What each handler can answer (X1 to X3) *)



(** X2.  [handle_upload] always answers, with status 201, 400 or 500.  An
    answer 400 means nothing was written: the file system is returned as it
    was.  An answer 201 means the bytes were written under the sanitised
    name. *)
Theorem handle_upload_outcomes `{PyRuntime} `{FileSystem}
    (self : AdvancedHttpProcessor) (now : clock)
    (body : bytes) (headers : gmap str str) (s : fs) :
  PyRuntimeLaws _ -> FileSystemLaws _ ->
  encodable (now_strftime now) = true -> encodable_dict headers ->
  exists s' b code,
    handle_upload self now body headers s = (s', Ok b)
    /\ code ∈ [201; 400; 500]%Z
    /\ responds now code b
    /\ (code = 400%Z -> s' = s)
    /\ (code = 201%Z -> exists X P, uploads self now body headers s X P s').
Proof.
  intros rlaws flaws Hdate Hh.
  destruct (handle_upload_answers rlaws flaws self now Hdate body headers s Hh)
    as (s' & r & Heq & b & code & -> & Hin & Hr).
  exists s', b, code. do 3 (split; [done|]). split.
  - intros ->. revert Heq. unfold handle_upload.
    assert (forall c, c ∈ [201; 500]%Z -> ~ responds now c b) as Hno.
    { intros c Hc Hrc.
      assert (400%Z = c) as <-.
      { eapply responds_code_unique; [| |exact Hr|exact Hrc]; [in_codes|].
        rewrite !elem_of_cons, elem_of_nil in *. tauto. }
      rewrite !elem_of_cons, elem_of_nil in Hc. by destruct Hc as [|[|]]. }
    destruct (upload_source now body headers) as [[response|[filename P]]|e].
    + cbn [try_except]. by intros [= <- _].
    + destruct (falsy filename).
      { destruct (build_response now 400 _ _ _) as [b'|e]; unfold try_except;
          [by intros [= <- _]|]. destruct (is_Exception _); by intros [= <- _]. }
      destruct (write_file s _ P) as [s1 [[]|e]]; unfold try_except.
      * destruct (build_response now 201 _ _ _) as [b'|e] eqn:Hb.
        -- intros [= _ <-]. destruct (Hno 201%Z); [in_codes|by eexists _, _, _].
        -- destruct (is_Exception _); [|done]. intros [= _ Hb'].
           destruct (Hno 500%Z); [in_codes|by eexists _, _, _].
      * destruct (is_Exception _); [|done]. intros [= _ Hb'].
        destruct (Hno 500%Z); [in_codes|by eexists _, _, _].
    + unfold try_except. destruct (is_Exception _); by intros [= <- _].
  - intros ->. by eapply handle_upload_201.
Qed.

Lemma handle_upload_outcomes_witness :
  exists s' b code,
    handle_upload (H := ascii_runtime) (H0 := mem_fs) server_files clock0
      upload_trailing_slash multipart_headers ∅ = (s', Ok b)
    /\ code ∈ [201; 400; 500]%Z
    /\ responds (H := ascii_runtime) clock0 code b
    /\ (code = 400%Z -> s' = ∅)
    /\ (code = 201%Z ->
        exists X P, uploads (H := ascii_runtime) (H0 := mem_fs) server_files
                      clock0 upload_trailing_slash multipart_headers ∅ X P s').
Proof.
  apply (handle_upload_outcomes (H := ascii_runtime) (H0 := mem_fs)
           server_files clock0 upload_trailing_slash multipart_headers ∅
           ascii_runtime_laws mem_fs_laws eq_refl).
  unfold multipart_headers. apply map_Forall_singleton. reflexivity.
Defined.

(** X3.  [handle_delete] always answers, with status 200, 404 or 500.  An
    answer 404 leaves the file system as it was; an answer 200 is given
    only when the path existed and [os.remove] returned, and the file
    system is then the one [os.remove] left. *)
Theorem handle_delete_outcomes `{PyRuntime} `{FileSystem}
    (self : AdvancedHttpProcessor) (now : clock)
    (request_path : str) (headers : gmap str str) (s : fs) :
  PyRuntimeLaws _ -> FileSystemLaws _ ->
  encodable (now_strftime now) = true -> encodable request_path = true ->
  let path := os_path_join (storage_directory self) (drop 1 request_path) in
  exists s' b code,
    handle_delete self now request_path headers s = (s', Ok b)
    /\ code ∈ [200; 404; 500]%Z
    /\ responds now code b
    /\ (code = 404%Z -> s' = s)
    /\ (code = 200%Z ->
        os_path_exists s path = true /\ os_remove s path = (s', Ok tt)).
Proof.
  intros rlaws flaws Hdate Hp path.
  destruct (handle_delete_answers rlaws flaws self now Hdate request_path
              headers s Hp) as (s' & r & Heq & b & code & -> & Hin & Hr).
  exists s', b, code. do 3 (split; [done|]).
  assert (forall c c', c ∈ [200; 404; 500]%Z -> c' ∈ [200; 404; 500]%Z ->
            responds now c b -> responds now c' b -> c = c') as Huniq.
  { intros c c' Hc Hc'. apply responds_code_unique;
      rewrite !elem_of_cons, elem_of_nil in *; tauto. }
  revert Heq. unfold handle_delete. fold path.
  destruct (bool_decide (drop 1 request_path = [])
            || negb (os_path_exists s path)) eqn:Hcond.
  - intros [= <- Hb]. split; [done|]. intros ->.
    assert (200%Z = 404%Z); [|done].
    eapply Huniq; [in_codes|in_codes|exact Hr|by eexists _, _, _].
  - apply orb_false_iff in Hcond as [_ Hex%negb_false_iff].
    destruct (os_remove s path) as [s1 [[]|e]]; unfold try_except.
    + destruct (build_response now 200 _ _ _) as [b'|e] eqn:Hb.
      * intros [= <- <-]. split; [|done]. intros ->.
        assert (404%Z = 200%Z); [|done].
        eapply Huniq; [in_codes|in_codes|exact Hr|by eexists _, _, _].
      * destruct (is_Exception _); [|done]. intros [= <- Hb'].
        split; intros ->;
          [assert (404%Z = 500%Z)|assert (200%Z = 500%Z)]; try done;
          (eapply Huniq; [in_codes|in_codes|exact Hr|by eexists _, _, _]).
    + destruct (is_Exception _); [|done]. intros [= <- Hb'].
      split; intros ->;
        [assert (404%Z = 500%Z)|assert (200%Z = 500%Z)]; try done;
        (eapply Huniq; [in_codes|in_codes|exact Hr|by eexists _, _, _]).
Qed.

Lemma handle_delete_outcomes_witness :
  let s : gmap str bytes := {[ st "server_files/a.txt" := bs "hello" ]} in
  exists s' b code,
    handle_delete (H := ascii_runtime) (H0 := mem_fs) server_files clock0
      (st "/a.txt") ∅ s = (s', Ok b)
    /\ code ∈ [200; 404; 500]%Z
    /\ responds (H := ascii_runtime) clock0 code b
    /\ (code = 404%Z -> s' = s)
    /\ (code = 200%Z ->
        os_path_exists (FileSystem := mem_fs) s
          (os_path_join (storage_directory server_files)
             (drop 1 (st "/a.txt"))) = true
        /\ os_remove (FileSystem := mem_fs) s
             (os_path_join (storage_directory server_files)
                (drop 1 (st "/a.txt"))) = (s', Ok tt)).
Proof.
  intros s.
  apply (handle_delete_outcomes (H := ascii_runtime) (H0 := mem_fs)
           server_files clock0 (st "/a.txt") ∅ s
           ascii_runtime_laws mem_fs_laws eq_refl eq_refl).
Defined.

(** X4.  A request whose upper-cased method is neither GET nor DELETE, and
    is not POST to the path /file-upload, is answered 405 without touching
    the file system; in particular POST to any other path is refused. *)
Theorem handle_request_method_not_allowed `{PyRuntime} `{FileSystem}
    (self : AdvancedHttpProcessor) (now : clock) (data : bytes) (s : fs)
    (hb : nat) (m p v : str) (headers : gmap str str) :
  encodable (now_strftime now) = true ->
  find bCRLFCRLF data = Some hb ->
  parse_head (take hb data) = Ok (Some (m, p, v, headers)) ->
  m <> st "GET" -> m <> st "DELETE" ->
  (m <> st "POST" \/ p <> st "/file-upload") ->
  exists b, handle_request now self data s = (s, Ok b) /\ responds now 405 b.
Proof.
  intros Hdate Hfind Hph Hget Hdel Hpost.
  destruct (build_response_responds now 405 (st "Method Not Allowed")
              (Str (st "HTTP method not supported")) []) as (b & Hb & Hr);
    [done..|].
  exists b. split; [|done].
  unfold handle_request, handle_request_with. rewrite Hfind, Hph.
  assert (route_of m p = NotAllowed) as ->.
  { unfold route_of.
    rewrite (bool_decide_eq_false_2 _ Hget), (bool_decide_eq_false_2 _ Hdel).
    destruct Hpost as [Hm|Hp].
    - by rewrite (bool_decide_eq_false_2 _ Hm).
    - rewrite (bool_decide_eq_false_2 _ Hp). by rewrite andb_false_r. }
  by rewrite Hb.
Qed.

Lemma handle_request_method_not_allowed_witness :
  exists b,
    handle_request (H := ascii_runtime) (H0 := mem_fs) clock0 server_files
      (bs "post /upload HTTP/1.1" ++ bCRLFCRLF) ∅ = (∅, Ok b)
    /\ responds (H := ascii_runtime) clock0 405 b.
Proof.
  apply (handle_request_method_not_allowed (H := ascii_runtime)
           (H0 := mem_fs) server_files clock0
           (bs "post /upload HTTP/1.1" ++ bCRLFCRLF) ∅ 21%nat
           (st "POST") (st "/upload") (st "HTTP/1.1") ∅ eq_refl).
  - reflexivity.
  - vm_compute. reflexivity.
  - discriminate.
  - discriminate.
  - right. discriminate.
Defined.


(** X5.  The header dictionary is keyed by the stripped, lower-cased text
    before the first colon of a line: a later line replaces the value an
    earlier line gave to the same key and leaves every other key alone, the
    value being the stripped text after that first colon (further colons
    included); a line without a colon changes nothing. *)
Theorem parse_headers_last_wins `{PyRuntime}
    (lines : list str) (key value line : str) :
  COLON ∉ key ->
  let headers := parse_headers (lines ++ [key ++ COLON :: value]) in
  headers !! str_lower (strip key) = Some (strip value)
  /\ (forall k, k <> str_lower (strip key) ->
                headers !! k = parse_headers lines !! k)
  /\ (COLON ∉ line -> parse_headers (lines ++ [line]) = parse_headers lines).
Proof.
  intros Hk headers. subst headers. rewrite parse_headers_snoc.
  rewrite (find_first_colon _ _ Hk).
  rewrite take_app_length.
  replace (drop (S (length key)) (key ++ COLON :: value)) with value
    by (rewrite drop_app_ge by lia;
        by replace (S (length key) - length key)%nat with 1%nat by lia).
  split; [apply lookup_insert_eq|]. split.
  - intros k Hne. by rewrite lookup_insert_ne.
  - intros Hl. rewrite parse_headers_snoc.
    destruct (find [COLON] line) as [i|] eqn:Hf; [|done].
    apply find_Some_inv in Hf as [Hs _].
    apply startswith_true in Hs as [r Hr].
    destruct Hl. rewrite <- (take_drop i line), Hr.
    apply elem_of_app. right. left.
Qed.

Lemma parse_headers_last_wins_witness :
  let headers :=
    parse_headers (H := ascii_runtime)
      ([st "Content-Type: text/plain"]
       ++ [st "CONTENT-TYPE " ++ COLON :: st " a:b "]) in
  headers !! str_lower (PyRuntime := ascii_runtime) (strip (st "CONTENT-TYPE "))
  = Some (strip (st " a:b "))
  /\ (forall k, k <> str_lower (PyRuntime := ascii_runtime)
                       (strip (st "CONTENT-TYPE ")) ->
                headers !! k
                = parse_headers (H := ascii_runtime)
                    [st "Content-Type: text/plain"] !! k)
  /\ (COLON ∉ st "no colon here" ->
      parse_headers (H := ascii_runtime)
        ([st "Content-Type: text/plain"] ++ [st "no colon here"])
      = parse_headers (H := ascii_runtime) [st "Content-Type: text/plain"]).
Proof.
  apply (parse_headers_last_wins (H := ascii_runtime)
           [st "Content-Type: text/plain"] (st "CONTENT-TYPE ") (st " a:b ")
           (st "no colon here")).
  apply forallb_not_elem_of. reflexivity.
Defined.


(** ** Which requests change the store (X6, X7) *)

Section StoreChanges.
Context `{PyRuntime} `{FileSystem}.

Lemma try_except_fst {A} catches (out : fs * result A) handler :
  (try_except catches out handler).1 = out.1.
Proof.
  destruct out as [s [a|e]]; [done|]. cbn [try_except].
  by destruct (catches (exn_class e)).
Qed.

Lemma handle_get_fst self now p h s : (handle_get self now p h s).1 = s.
Proof. unfold handle_get. by repeat case_match. Qed.

Lemma route_of_ToUpload m p :
  route_of m p = ToUpload -> m = st "POST" /\ p = st "/file-upload".
Proof.
  unfold route_of. intros Hr.
  destruct (bool_decide (m = st "POST")) eqn:Hm;
    destruct (bool_decide (p = st "/file-upload")) eqn:Hp; cbn [andb] in Hr;
    [ apply bool_decide_eq_true in Hm, Hp; done
    | repeat case_match; done .. ].
Qed.
End StoreChanges.

(** X6.  Only an upload or a deletion changes the store: a request that is
    refused before routing, a GET and a request answered 405 leave the file
    system exactly as it was, whatever [handle_request] answers. *)
Theorem handle_request_store_unchanged `{PyRuntime} `{FileSystem}
    (self : AdvancedHttpProcessor) (now : clock) (data : bytes) (s : fs) :
  (forall r p h body,
     routing data = Some (r, p, h, body) -> r = ToGet \/ r = NotAllowed) ->
  (handle_request now self data s).1 = s.
Proof.
  intros Hroute. unfold handle_request, handle_request_with.
  rewrite try_except_fst. unfold routing in Hroute.
  destruct (find bCRLFCRLF data) as [hb|]; [|done].
  rewrite try_except_fst.
  destruct (parse_head (take hb data)) as [[[[[m p] v] headers]|]|e];
    [|done..].
  destruct (Hroute _ _ _ _ eq_refl) as [-> | ->]; [|done].
  apply handle_get_fst.
Qed.

Lemma handle_request_store_unchanged_witness :
  let s : gmap str bytes := {[ st "server_files/a.txt" := bs "hello" ]} in
  (handle_request (H := ascii_runtime) (H0 := mem_fs) clock0 server_files
     (bs "PUT /a.txt HTTP/1.1" ++ bCRLFCRLF ++ bs "other") s).1 = s.
Proof.
  intros s.
  apply (handle_request_store_unchanged (H := ascii_runtime) (H0 := mem_fs)
           server_files clock0).
  intros r p h body Hr. vm_compute in Hr. injection Hr as <- _ _ _.
  by right.
Defined.

(** X7.  Status 201 is given to stored uploads only: when [handle_request]
    answers 201, the request was a POST to /file-upload and the upload
    handler has written the payload, under the sanitised name, to the file
    system that is returned. *)
Theorem handle_request_created `{PyRuntime} `{FileSystem}
    (self : AdvancedHttpProcessor) (now : clock) (data : bytes) (s s' : fs)
    (b : bytes) :
  PyRuntimeLaws _ -> FileSystemLaws _ ->
  encodable (now_strftime now) = true ->
  handle_request now self data s = (s', Ok b) ->
  responds now 201 b ->
  exists hb version headers X P,
    find bCRLFCRLF data = Some hb
    /\ parse_head (take hb data)
       = Ok (Some (st "POST", st "/file-upload", version, headers))
    /\ uploads self now (drop (hb + 4) data) headers s X P s'.
Proof.
  intros rlaws flaws Hdate Hreq H201.
  set (codes := [200; 201; 302; 400; 404; 405; 500]%Z).
  assert (forall cs (out : fs * result bytes),
            cs ⊆ codes -> 201%Z ∉ cs -> answers now cs out.2 ->
            out <> (s', Ok b)) as Hother.
  { intros cs [s1 r] Hsub Hno Ha [= -> ->].
    apply Hno. eapply answers_code; [exact Hsub| |exact Ha|exact H201].
    subst codes. in_codes. }
  assert (forall cs (out : fs * result bytes),
            answers now cs out.2 ->
            try_except is_Exception
              (try_except is_parse_error out
                 (fun e => build_response now 400 (st "Bad Request")
                             (Str (st "Request parsing error: " ++ exn_str e))
                             []))
              (fun e => build_response now 500 (st "Internal Server Error")
                          (Str (exn_str e)) []) = out) as Hthrough.
  { intros cs out Ha. rewrite (try_except_answers now _ cs out _ Ha).
    by rewrite (try_except_answers now _ cs out _ Ha). }
  revert Hreq. unfold handle_request, handle_request_with.
  destruct (find bCRLFCRLF data) as [hb|].
  2:{ intros Hreq. exfalso. revert Hreq.
      rewrite (try_except_answers now _ [400%Z] (s, _) _);
        [|cbn [snd]; answer].
      apply (Hother [400%Z]); [subst codes; sub_codes| |cbn [snd]; answer].
      rewrite elem_of_cons, elem_of_nil. by intros [|]. }
  destruct (parse_head (take hb data)) as [[[[[m p] v] headers]|]|e] eqn:Hph.
  - destruct (parse_head_encodable _ _ _ _ _ Hph) as [Hp Hh].
    cbn [self_handle_upload self_handle_get self_handle_delete].
    destruct (route_of m p) eqn:Hroute.
    + destruct (route_of_ToUpload _ _ Hroute) as [-> ->].
      destruct (handle_upload_answers rlaws flaws self now Hdate
                  (drop (hb + 4) data) headers s Hh) as (s1 & r & Heq & Ha).
      rewrite Heq, (Hthrough _ (s1, r) Ha). intros [= -> ->].
      destruct (handle_upload_201 self now _ _ _ _ _ Heq H201) as (X & P & Hup).
      by exists hb, v, headers, X, P.
    + destruct (handle_get_answers rlaws flaws self now Hdate p headers s Hp)
        as (r & Heq & Ha).
      rewrite Heq, (Hthrough _ (s, r) Ha). intros Hreq. exfalso. revert Hreq.
      apply (Hother [200; 302; 404; 500]%Z); [subst codes; sub_codes| |done].
      rewrite !elem_of_cons, elem_of_nil. by intros [|[|[|[|]]]].
    + destruct (handle_delete_answers rlaws flaws self now Hdate p headers s
                  Hp) as (s1 & r & Heq & Ha).
      rewrite Heq, (Hthrough _ (s1, r) Ha). intros Hreq. exfalso. revert Hreq.
      apply (Hother [200; 404; 500]%Z); [subst codes; sub_codes| |done].
      rewrite !elem_of_cons, elem_of_nil. by intros [|[|[|]]].
    + assert (answers now [405%Z]
                (build_response now 405 (st "Method Not Allowed")
                   (Str (st "HTTP method not supported")) [])) as Ha
        by answer.
      rewrite (Hthrough _ (s, _) Ha). intros Hreq. exfalso. revert Hreq.
      apply (Hother [405%Z]); [subst codes; sub_codes| |done].
      rewrite elem_of_cons, elem_of_nil. by intros [|].
  - assert (answers now [400%Z]
              (build_response now 400 (st "Bad Request")
                 (Str (st "Invalid HTTP request line")) [])) as Ha
      by answer.
    rewrite (Hthrough _ (s, _) Ha). intros Hreq. exfalso. revert Hreq.
    apply (Hother [400%Z]); [subst codes; sub_codes| |done].
    rewrite elem_of_cons, elem_of_nil. by intros [|].
  - destruct (parse_head_raises _ _ Hph) as (Hc & Hs & _).
    unfold try_except at 2. rewrite Hc. cbn [is_parse_error].
    pose proof (decode_error_encodable _ rlaws (take hb data)) as He.
    rewrite <- Hs in He.
    assert (answers now [400%Z]
              (build_response now 400 (st "Bad Request")
                 (Str (st "Request parsing error: " ++ exn_str e)) [])) as Ha
      by answer.
    rewrite (try_except_answers now _ [400%Z] (s, _) _ Ha).
    intros Hreq. exfalso. revert Hreq.
    apply (Hother [400%Z]); [subst codes; sub_codes| |done].
    rewrite elem_of_cons, elem_of_nil. by intros [|].
Qed.

Lemma handle_request_created_witness :
  let data := bs "POST /file-upload HTTP/1.1" ++ bCRLF
              ++ bs "X-Upload-Filename: a.txt" ++ bCRLFCRLF ++ bs "hello" in
  exists hb version headers X P,
    find bCRLFCRLF data = Some hb
    /\ parse_head (H := ascii_runtime) (take hb data)
       = Ok (Some (st "POST", st "/file-upload", version, headers))
    /\ uploads (H := ascii_runtime) (H0 := mem_fs) server_files clock0
         (drop (hb + 4) data) headers ∅ X P
         {[ st "server_files/a.txt" := bs "hello" ]}.
Proof.
  intros data.
  apply (handle_request_created (H := ascii_runtime) (H0 := mem_fs)
           server_files clock0 data ∅
           {[ st "server_files/a.txt" := bs "hello" ]}
           (bs "HTTP/1.1 201 Created" ++ bCRLF
            ++ bs "Date: Thu, 01 Jan 2026 00:00:00 GMT" ++ bCRLF
            ++ bs "Connection: close" ++ bCRLF
            ++ bs "Server: AdvancedHttpServer/1.5" ++ bCRLF
            ++ bs "Content-Length: 42" ++ bCRLF
            ++ bCRLF
            ++ bs "File a.txt uploaded successfully (5 bytes)")
           ascii_runtime_laws mem_fs_laws eq_refl).
  - vm_compute. reflexivity.
  - exists (st "Created"),
      (Str (st "File a.txt uploaded successfully (5 bytes)")), [].
    vm_compute. reflexivity.
Defined.

(** ** Content-Length for bodies of bytes and of ASCII text (X8) *)

Lemma utf8_encode_ascii (s : str) :
  forallb is_asciib s = true -> utf8_encode s = Some (map byte_of s).
Proof.
  induction s as [|c s IH]; cbn [forallb utf8_encode map]; [done|].
  intros [Hc Hs]%andb_true_iff. rewrite (IH Hs).
  unfold utf8_encode_cp. unfold is_asciib in Hc. by rewrite Hc.
Qed.

(** X8.  For a body that is a [bytes], or a [str] of ASCII characters, the
    response is an encoded header section followed by the bytes of the
    body, and the Content-Length of that header section is the number of
    bytes that follow it. *)
Theorem build_response_content_length_wire `{PyRuntime}
    (now : clock) (status_code : Z) (status_text : str)
    (content : bytes_or_str) (extra_headers : list (str * str)) :
  encodable (now_strftime now) = true -> encodable status_text = true ->
  encodable_headers extra_headers = true ->
  ascii_content content = true ->
  exists header body,
    build_response now status_code status_text content extra_headers
    = Ok (header ++ body)
    /\ wire_body content = Some body
    /\ utf8_encode (response_head now status_code status_text (length body)
                      extra_headers) = Some header.
Proof.
  intros Hdate Htext Hextra Hc. destruct content as [b|s].
  - destruct (build_response_bytes now status_code status_text b
                extra_headers Hdate Htext Hextra) as (header & Hh & Hb).
    by exists header, b.
  - cbn [ascii_content] in Hc. pose proof (utf8_encode_ascii s Hc) as Hs.
    destruct (str_encode_ok _ (encodable_response_head now status_code
                                 status_text (length s) extra_headers
                                 Hdate Htext Hextra)) as (header & He & Hu).
    exists header, (map byte_of s). rewrite length_map.
    split; [|by split]. rewrite build_response_eq. unfold str_encode.
    cbn [len]. rewrite Hs. cbn [mbind result_bind]. by rewrite Hu.
Qed.

Lemma build_response_content_length_wire_witness :
  exists header body,
    build_response (H := ascii_runtime) clock0 200 (st "OK")
      (Str (st "Server is running normally")) []
    = Ok (header ++ body)
    /\ wire_body (Str (st "Server is running normally")) = Some body
    /\ utf8_encode (response_head clock0 200 (st "OK") (length body) [])
       = Some header.
Proof.
  apply (build_response_content_length_wire (H := ascii_runtime) clock0 200
           (st "OK") (Str (st "Server is running normally")) []);
    reflexivity.
Defined.

(** ** The read loop: nothing lost, nothing unbounded (X9, X10) *)

(** X9.  When the read loop is left, the buffer is the initial buffer
    followed by the chunks received, in order and without gaps; the reads
    that were made are those chunks, all non-empty, followed by at most one
    more read, which returned no bytes or timed out; the rest of the script
    is left unread. *)
Theorem read_request_keeps_bytes (limit : N) (sock : list recv_outcome)
    (buffer buffer' : bytes) (unread : list recv_outcome) :
  read_request limit sock buffer = Framed buffer' unread ->
  exists chunks ending,
    sock = map Received chunks ++ ending ++ unread
    /\ buffer' = buffer ++ concat chunks
    /\ Forall (fun data_chunk => data_chunk <> []) chunks
    /\ (ending = [] \/ ending = [Received []] \/ ending = [TimedOut]).
Proof.
  revert buffer. induction sock as [|outcome sock IH]; intros buffer;
    cbn [read_request]; [done|].
  destruct outcome as [[|b data_chunk]|  |e]; [| |  |done].
  - intros [= <- <-]. exists [], [Received []].
    rewrite app_nil_r. repeat split; eauto.
  - set (chunk := b :: data_chunk).
    destruct (contains bCRLFCRLF (buffer ++ chunk)).
    { intros [= <- <-]. exists [chunk], []. cbn [concat map app].
      rewrite app_nil_r. repeat split; [by repeat constructor|by left]. }
    destruct (limit <? N.of_nat (length (buffer ++ chunk))).
    { intros [= <- <-]. exists [chunk], []. cbn [concat map app].
      rewrite app_nil_r. repeat split; [by repeat constructor|by left]. }
    intros (chunks & ending & -> & -> & Hne & Hend)%IH.
    exists (chunk :: chunks), ending. cbn [concat map app].
    rewrite <- app_assoc. repeat split; [by constructor|done].
  - intros [= <- <-]. exists [], [TimedOut].
    rewrite app_nil_r. repeat split; eauto.
Qed.

Lemma read_request_keeps_bytes_witness :
  exists chunks ending,
    slow_upload = map Received chunks ++ ending ++ [Received (bs "defghij")]
    /\ bs "POST /file-upload HTTP/1.1" ++ bCRLF
       ++ bs "X-Upload-Filename: a.txt" ++ bCRLF
       ++ bs "Content-Length: 10" ++ bCRLFCRLF ++ bs "abc"
       = [] ++ concat chunks
    /\ Forall (fun data_chunk : bytes => data_chunk <> []) chunks
    /\ (ending = [] \/ ending = [Received []] \/ ending = [TimedOut]).
Proof.
  apply (read_request_keeps_bytes ThreadPool.limit slow_upload []).
  vm_compute. reflexivity.
Defined.

(** X10.  The buffer of the read loop exceeds the cap by less than one
    read: when no [recv] returns more than [bufsize] bytes and the loop is
    entered with a buffer within the cap, the buffer it is left with, or
    waits with, holds at most cap plus [bufsize] bytes.  For the thread-pool
    engine that is 15 MiB plus 8192 bytes, for the process-pool engine
    25 MiB plus 16384 bytes. *)
Theorem read_request_bounded (limit bufsize : N)
    (sock : list recv_outcome) (buffer : bytes) :
  Forall (recv_at_most bufsize) sock ->
  N.of_nat (length buffer) <= limit ->
  match read_request limit sock buffer with
  | Framed buffer' _ | Blocked buffer' =>
      N.of_nat (length buffer') <= limit + bufsize
  | Aborted _ => True
  end.
Proof.
  intros Hsock. revert buffer.
  induction Hsock as [|outcome sock Hout _ IH]; intros buffer Hbuf;
    cbn [read_request]; [lia|].
  destruct outcome as [[|b data_chunk]|  |e]; [lia| |lia|done].
  set (chunk := b :: data_chunk) in *. cbn [recv_at_most] in Hout.
  assert (N.of_nat (length (buffer ++ chunk)) <= limit + bufsize)
    as Hnew by (rewrite length_app; lia).
  destruct (contains bCRLFCRLF (buffer ++ chunk)); [done|].
  destruct (limit <? N.of_nat (length (buffer ++ chunk))) eqn:Hcap; [done|].
  apply IH. by apply N.ltb_ge in Hcap.
Qed.

Lemma read_request_bounded_witness :
  match ThreadPool.read_loop slow_upload with
  | Framed buffer' _ | Blocked buffer' =>
      N.of_nat (length buffer') <= ThreadPool.limit + 8192
  | Aborted _ => True
  end.
Proof.
  apply (read_request_bounded ThreadPool.limit 8192 slow_upload []).
  - unfold slow_upload.
    repeat (apply List.Forall_cons; [vm_compute; discriminate|]).
    apply List.Forall_nil.
  - vm_compute. discriminate.
Defined.

(** ** The process-pool engine: queue bound and service (X11, X12) *)

Section PoolBound.
Import ProcessPool.
Context `{PyRuntime} `{FileSystem}.
Variable now : clock.

Lemma put_or_pass_bound q x :
  (length q <= maxsize)%nat -> (length (put_or_pass q x) <= maxsize)%nat.
Proof.
  intros Hq. unfold put_or_pass.
  destruct (length q <? maxsize)%nat eqn:E; [|done].
  apply Nat.ltb_lt in E. rewrite length_app. cbn [length]. lia.
Qed.

Lemma step_queue_bound e ev e' :
  step now e ev = Some e' ->
  (length (request_queue e) <= maxsize)%nat ->
  (length (request_queue e') <= maxsize)%nat.
Proof.
  intros Hstep Hq. destruct ev; cbn [step] in Hstep.
  - destruct (acceptor e); by inversion Hstep.
  - destruct (acceptor e); by inversion Hstep.
  - destruct (acceptor e); try done.
    destruct (length (request_queue e) <? maxsize)%nat eqn:E; [|done].
    apply Nat.ltb_lt in E. inversion Hstep. cbn [request_queue].
    rewrite length_app. cbn [length]. lia.
  - destruct (acceptor e); try done.
    destruct (length (request_queue e) <? maxsize)%nat; [done|].
    by inversion Hstep.
  - destruct (worker_pool e !! i) as [[n|]|]; try done.
    destruct (request_queue e) as [|x rest] eqn:Eq; [done|].
    destruct (worker_turn now x n (store e)) as [[s' w] r].
    inversion Hstep. cbn [request_queue]. cbn [length] in Hq. lia.
  - destruct (worker_pool e !! i) as [[n|]|]; try done.
    destruct (request_queue e) eqn:Eq; [|done].
    inversion Hstep; subst. rewrite Eq. cbn [length]. lia.
  - by inversion Hstep.
Qed.
End PoolBound.

(** X11.  The queue never holds more than its 150 places: the bound is kept
    by every step of the engine, hence along every run, and by
    [terminate_server], which gives up the sentinels that find no room. *)
Theorem queue_within_maxsize `{PyRuntime} `{FileSystem} (now : clock)
    (e e' : ProcessPool.engine) (evs : list ProcessPool.event) :
  (length (ProcessPool.request_queue e) <= ProcessPool.maxsize)%nat ->
  ProcessPool.run now e evs = Some e' ->
  (length (ProcessPool.request_queue e') <= ProcessPool.maxsize)%nat
  /\ (length (ProcessPool.request_queue (ProcessPool.terminate_server e'))
      <= ProcessPool.maxsize)%nat.
Proof.
  intros Hq Hrun.
  assert (length (ProcessPool.request_queue e') <= ProcessPool.maxsize)%nat
    as Hq'.
  { revert e Hq Hrun. induction evs as [|ev evs IH]; intros e Hq;
      cbn [ProcessPool.run].
    - by intros [= <-].
    - destruct (ProcessPool.step now e ev) as [e1|] eqn:Hstep; [|done].
      cbn. apply IH. by eapply step_queue_bound. }
  split; [done|]. cbn [ProcessPool.terminate_server ProcessPool.request_queue].
  generalize (ProcessPool.request_queue e') Hq'.
  induction (ProcessPool.worker_pool e') as [|w ws IH]; intros q Hle;
    cbn [fold_left]; [done|].
  apply IH. by apply put_or_pass_bound.
Qed.

Lemma queue_within_maxsize_witness :
  (length (ProcessPool.request_queue
             (ProcessPool.terminate_server Scenario.saturated))
   <= ProcessPool.maxsize)%nat.
Proof.
  apply (queue_within_maxsize (H := ascii_runtime) (H0 := mem_fs) clock0
           Scenario.saturated Scenario.saturated []).
  - vm_compute. lia.
  - reflexivity.
Defined.

(** X12.  What a worker does with a connection.  When the read loop is left
    with a non-empty buffer, the worker sends exactly the response
    [handle_request] gives for that buffer, a complete response, and leaves
    the file system as [handle_request] left it.  Otherwise (no bytes,
    script exhausted or a failed read) nothing is sent and the file system
    is unchanged.  In every case the socket is closed. *)
Theorem worker_answers_framed_request `{PyRuntime} `{FileSystem}
    (now : clock) (sock : ProcessPool.connection)
    (processor : AdvancedHttpProcessor) (s : fs) :
  PyRuntimeLaws _ -> FileSystemLaws _ ->
  encodable (now_strftime now) = true ->
  let served :=
    ProcessPool.handle_client_connection now (Some sock) processor s in
  (forall incoming unread,
     ProcessPool.read_loop (ProcessPool.peer sock) = Framed incoming unread ->
     incoming <> [] ->
     exists s' b code,
       served = (s', {| ProcessPool.sent := Some b;
                        ProcessPool.closed := true |})
       /\ handle_request now processor incoming s = (s', Ok b)
       /\ code ∈ [200; 201; 302; 400; 404; 405; 500]%Z
       /\ responds now code b)
  /\ ((forall incoming unread,
         ProcessPool.read_loop (ProcessPool.peer sock)
         = Framed incoming unread -> incoming = []) ->
      served = (s, {| ProcessPool.sent := None;
                      ProcessPool.closed := true |}))
  /\ ProcessPool.closed served.2 = true.
Proof.
  intros rlaws flaws Hdate served. subst served.
  unfold ProcessPool.handle_client_connection.
  destruct (ProcessPool.read_loop (ProcessPool.peer sock))
    as [incoming unread|buffer|e].
  - destruct (handle_request_answers rlaws flaws processor now Hdate
                incoming s) as (s' & r & Heq & b & code & -> & Hin & Hr).
    split; [|split].
    + intros ? ? [= <- <-] Hne. rewrite (bool_decide_eq_false_2 _ Hne), Heq.
      by exists s', b, code.
    + intros Hempty. by rewrite (bool_decide_eq_true_2 _ (Hempty _ _ eq_refl)).
    + destruct (bool_decide (incoming = [])); [done|]. by rewrite Heq.
  - by repeat split.
  - by repeat split.
Qed.

Lemma worker_answers_framed_request_witness :
  exists s' b code,
    ProcessPool.handle_client_connection (H := ascii_runtime) (H0 := mem_fs)
      clock0 (Some (Scenario.client 7)) server_files ∅
    = (s', {| ProcessPool.sent := Some b; ProcessPool.closed := true |})
    /\ handle_request (H := ascii_runtime) (H0 := mem_fs) clock0 server_files
         (bs "GET /status HTTP/1.1" ++ bCRLFCRLF) ∅ = (s', Ok b)
    /\ code ∈ [200; 201; 302; 400; 404; 405; 500]%Z
    /\ responds (H := ascii_runtime) clock0 code b.
Proof.
  destruct (worker_answers_framed_request (H := ascii_runtime) (H0 := mem_fs)
              clock0 (Scenario.client 7) server_files ∅
              ascii_runtime_laws mem_fs_laws eq_refl) as (Hserve & _).
  apply (Hserve _ []).
  - vm_compute. reflexivity.
  - discriminate.
Defined.

(** ** Paths outside the storage directory (X13) *)

(** X13.  Neither GET nor DELETE confines the path to the storage
    directory.  For a target that starts with two slashes the path handed
    to the file system is the rest of the target from its second slash on,
    an absolute path, whatever the storage directory is: a GET for it is
    answered 200 with the content of that file, and a DELETE removes that
    path. *)
Theorem absolute_path_leaves_storage `{PyRuntime} `{FileSystem}
    (self : AdvancedHttpProcessor) (now : clock) (P : str) (s : fs) :
  PyRuntimeLaws _ ->
  encodable (now_strftime now) = true ->
  SPACE ∉ P ->
  let absolute := SLASH :: P in
  (forall get content,
     asks (st "GET") (SLASH :: absolute) get ->
     os_path_isfile s absolute = true ->
     read_file s absolute = Ok content ->
     exists header,
       handle_request now self get s = (s, Ok (header ++ content))
       /\ responds now 200 (header ++ content))
  /\ (forall del s',
        asks (st "DELETE") (SLASH :: absolute) del ->
        os_path_exists s absolute = true ->
        os_remove s absolute = (s', Ok tt) ->
        exists r, handle_request now self del s = (s', Ok r)
                  /\ responds now 200 r).
Proof.
  intros rlaws Hdate Hsp absolute.
  assert (os_path_join (storage_directory self) absolute = absolute) as Hjoin.
  { unfold os_path_join, absolute. cbn [startswith].
    by rewrite bool_decide_eq_true_2. }
  assert (absolute ∉ reserved_names) as Hres.
  { unfold reserved_names, absolute. rewrite !elem_of_cons, elem_of_nil.
    intros [|[|[|[]]]]; discriminate. }
  assert (SPACE ∉ absolute) as Hsp1 by (by apply not_elem_of_slash_cons).
  assert (SPACE ∉ SLASH :: absolute) as Hsp2
    by (by apply not_elem_of_slash_cons).
  split.
  - intros get content Hasks Hfile Hread.
    destruct (handle_get_file self now absolute content ∅ s) as
      (header & mime & Hget & _ & Hresp);
      [done|done|done|by rewrite Hjoin|by rewrite Hjoin|].
    exists header. split; [|done].
    apply (handle_request_get rlaws self now (SLASH :: absolute)); [done..|].
    intros h. by rewrite (handle_get_headers self now _ h ∅).
  - intros del s' Hasks Hex Hrm.
    assert (SPACE ∉ st "DELETE") as Hdelete
      by (by apply forallb_not_elem_of).
    pose proof (asks_encodable _ _ _ Hdelete Hsp2 Hasks) as Henc.
    change (encodable (SLASH :: absolute))
      with (scalarb SLASH && encodable absolute) in Henc.
    cbn [andb] in Henc.
    destruct (handle_delete_200 self now absolute ∅ s s') as (r & Hr & Hresp);
      [done|done|done|by rewrite Hjoin|by rewrite Hjoin|].
    exists r. split; [|done].
    apply (handle_request_delete rlaws self now (SLASH :: absolute));
      [done..|].
    intros h. by rewrite (handle_delete_headers self now _ h ∅).
Qed.

Lemma absolute_path_leaves_storage_witness :
  let s : gmap str bytes := {[ st "/etc/passwd" := bs "root:x:0:0" ]} in
  exists header,
    handle_request (H := ascii_runtime) (H0 := mem_fs) clock0 server_files
      (bs "GET //etc/passwd HTTP/1.1" ++ bCRLFCRLF) s
    = (s, Ok (header ++ bs "root:x:0:0"))
    /\ responds (H := ascii_runtime) clock0 200 (header ++ bs "root:x:0:0").
Proof.
  intros s.
  destruct (absolute_path_leaves_storage (H := ascii_runtime) (H0 := mem_fs)
              server_files clock0 (st "etc/passwd") s
              ascii_runtime_laws eq_refl) as (Hget & _).
  - apply forallb_not_elem_of. reflexivity.
  - apply Hget.
    + exists (st "HTTP/1.1"). vm_compute. reflexivity.
    + vm_compute. reflexivity.
    + vm_compute. reflexivity.
Defined.

(** ** The two engines on the same connection (X14) *)

(** Raising the cap does not change a read that stayed within it. *)
Lemma read_request_cap_mono (limit limit' : N) (sock : list recv_outcome)
    (buffer buffer' : bytes) (unread : list recv_outcome) :
  limit <= limit' ->
  read_request limit sock buffer = Framed buffer' unread ->
  N.of_nat (length buffer') <= limit ->
  read_request limit' sock buffer = Framed buffer' unread.
Proof.
  intros Hle. revert buffer.
  induction sock as [|outcome sock IH]; intros buffer; cbn [read_request];
    [done|].
  destruct outcome as [[|b data_chunk]|  |e]; [done| |done|done].
  destruct (contains bCRLFCRLF (buffer ++ b :: data_chunk)); [done|].
  destruct (limit <? N.of_nat (length (buffer ++ b :: data_chunk))) eqn:Hcap.
  - intros [= <- <-] Hfit. apply N.ltb_lt in Hcap. lia.
  - intros Hread Hfit.
    destruct (limit' <? N.of_nat (length (buffer ++ b :: data_chunk)))
      eqn:Hcap'; [|by apply IH].
    apply N.ltb_lt in Hcap'. apply N.ltb_ge in Hcap. lia.
Qed.



(** ** The client's upload, end to end (X15) *)

Lemma to_N_byte_of (c : N) : c < 256 -> Byte.to_N (byte_of c) = c.
Proof.
  intros Hc. unfold byte_of. destruct (Byte.of_N c) as [b|] eqn:E.
  - by apply Byte.to_of_N.
  - apply Byte.of_N_None_iff in E. lia.
Qed.

Lemma plain_text_inv s :
  plain_text s = true ->
  forallb is_asciib s = true /\ Forall (fun c => c <> CR) s
  /\ Forall (fun b => b <> x0d) (map byte_of s).
Proof.
  unfold plain_text. induction s as [|c s IH]; cbn [forallb map]; [done|].
  intros [[Hc Hcr]%andb_true_iff Hs]%andb_true_iff.
  destruct (IH Hs) as (H1 & H2 & H3).
  apply negb_true_iff, N.eqb_neq in Hcr.
  rewrite Hc, H1. split; [done|]. split; constructor; try done.
  intros Hb. apply Hcr. unfold is_asciib in Hc. apply N.ltb_lt in Hc.
  rewrite <- (to_N_byte_of c) by lia. by rewrite Hb.
Qed.

Lemma plain_text_app a b :
  plain_text (a ++ b) = plain_text a && plain_text b.
Proof. apply forallb_app. Qed.

(** ASCII text survives encoding and decoding. *)
Lemma utf8_decode_ascii (s : str) :
  forallb is_asciib s = true -> utf8_decode (map byte_of s) = Some s.
Proof.
  induction s as [|c s IH]; cbn [forallb map]; [done|].
  intros [Hc Hs]%andb_true_iff. unfold is_asciib in Hc.
  pose proof Hc as Hlt. apply N.ltb_lt in Hlt.
  cbn [utf8_decode]. rewrite (to_N_byte_of c) by lia.
  by rewrite Hc, (IH Hs).
Qed.

Section Lines.
Context {A : Type} `{EqDecision A}.
Implicit Types (line : list A) (lines : list (list A)).

Lemma find_cons_miss (pat : list A) (x : A) (l : list A) :
  startswith pat (x :: l) = false -> find pat (x :: l) = S <$> find pat l.
Proof. intros Hs. cbn [find]. by rewrite Hs. Qed.

(** The first occurrence of a pattern that starts with [p] and continues
    with [q], in lines free of [p] that are joined by [p; q]: it is where
    the pattern follows the last line. *)
Lemma find_after_lines (p q : A) (pat : list A) lines (rest : list A) :
  lines <> [] ->
  Forall (fun line => line <> [] /\ Forall (fun x => x <> p) line) lines ->
  find (p :: q :: p :: pat) (join [p; q] lines ++ p :: q :: p :: pat ++ rest)
  = Some (length (join [p; q] lines)).
Proof.
  intros Hne Hall. induction Hall as [|line lines [Hl Hp] Hall IH]; [done|].
  destruct lines as [|line' lines].
  - cbn [join]. rewrite (find_skip p _ line _ Hp).
    change (p :: q :: p :: pat ++ rest) with ((p :: q :: p :: pat) ++ rest).
    assert (find (p :: q :: p :: pat) ((p :: q :: p :: pat) ++ rest)
            = Some 0%nat) as ->.
    { destruct ((p :: q :: p :: pat) ++ rest) eqn:E; cbn [find];
        rewrite <- E, startswith_app; done. }
    cbn. f_equal. lia.
  - specialize (IH ltac:(done)).
    change (join [p; q] (line :: line' :: lines))
      with (line ++ [p; q] ++ join [p; q] (line' :: lines)).
    rewrite <- !app_assoc. rewrite (find_skip p _ line _ Hp).
    inversion Hall as [|? ? [Hl' Hp'] _]; subst.
    set (tail := join [p; q] (line' :: lines)) in *.
    assert (exists c tail', tail = c :: tail' /\ c <> p) as (c & tail' & Ht & Hc).
    { subst tail. destruct line' as [|c line'']; [done|].
      apply Forall_cons in Hp' as [Hc _].
      destruct lines; cbn [join app]; eauto. }
    rewrite Ht in *. cbn [app].
    rewrite find_cons_miss.
    2:{ cbn [startswith]. rewrite (bool_decide_eq_false_2 (p = c)) by done.
        by rewrite !andb_false_r. }
    rewrite find_cons_miss.
    2:{ destruct (decide (p = q)) as [<-|Hpq].
        - cbn [startswith]. rewrite (bool_decide_eq_false_2 (p = c)) by done.
          by rewrite !andb_false_r.
        - by apply startswith_cons_ne. }
    cbn [app] in IH. rewrite IH. cbn. f_equal.
    rewrite !length_app. cbn [length]. lia.
Qed.

(** Splitting what was joined gives back the lines, when no line holds the
    first element of the separator. *)
Lemma split_join (p q : A) lines :
  lines <> [] ->
  Forall (Forall (fun x => x <> p)) lines ->
  split [p; q] (join [p; q] lines) = lines.
Proof.
  intros Hne Hall. induction Hall as [|line lines Hp Hall IH]; [done|].
  destruct lines as [|line' lines].
  - cbn [join]. rewrite <- (app_nil_r line) at 1.
    rewrite (split_skip p [q] line [] Hp). cbn. by rewrite app_nil_r.
  - specialize (IH ltac:(done)).
    change (join [p; q] (line :: line' :: lines))
      with (line ++ [p; q] ++ join [p; q] (line' :: lines)).
    rewrite (split_skip p [q] line _ Hp).
    unfold split at 1. cbn [app split_go startswith].
    rewrite !bool_decide_eq_true_2 by done. cbn [andb length Nat.sub].
    set (tail := join [p; q] (line' :: lines)) in *.
    destruct tail as [|c tail'] eqn:Ht.
    + cbn [split_go map_head]. rewrite app_nil_r.
      unfold split in IH. cbn [split_go] in IH. by rewrite <- IH.
    + cbn [split_go map_head]. rewrite app_nil_r. f_equal. exact IH.
Qed.

Lemma join_map {B} (f : A -> B) (sep : list A) lines :
  map f (join sep lines) = join (map f sep) (map (map f) lines).
Proof.
  induction lines as [|line lines IH]; [done|].
  destruct lines as [|line' lines]; [done|].
  change (join sep (line :: line' :: lines))
    with (line ++ sep ++ join sep (line' :: lines)).
  rewrite !map_app, IH. done.
Qed.
End Lines.

Lemma forallb_join {A} (f : A -> bool) (sep : list A) (lines : list (list A)) :
  forallb f sep = true -> Forall (fun line => forallb f line = true) lines ->
  forallb f (join sep lines) = true.
Proof.
  intros Hsep Hall. induction Hall as [|line lines Hl Hall IH]; [done|].
  destruct lines as [|line' lines]; [done|].
  change (join sep (line :: line' :: lines))
    with (line ++ sep ++ join sep (line' :: lines)).
  by rewrite !forallb_app, Hl, Hsep, IH.
Qed.

Lemma plain_text_ascii s : plain_text s = true -> forallb is_asciib s = true.
Proof. intros Hs. by destruct (plain_text_inv s Hs). Qed.

Lemma plain_text_str_of_nat n : plain_text (str_of_nat n) = true.
Proof.
  apply str_of_Z_forallb; [|done].
  intros c Hc. unfold in_range in Hc.
  apply andb_true_iff in Hc as [Hlo%N.leb_le Hhi%N.leb_le].
  apply andb_true_iff. split.
  - apply N.ltb_lt. lia.
  - apply negb_true_iff, N.eqb_neq. unfold CR. lia.
Qed.

Lemma ascii_encodable s : forallb is_asciib s = true -> encodable s = true.
Proof.
  unfold encodable. induction s as [|c s IH]; cbn [forallb]; [done|].
  intros [Hc Hs]%andb_true_iff. rewrite (IH Hs), andb_true_r.
  apply scalarb_intro. left. apply N.ltb_lt in Hc. lia.
Qed.

Section ClientUpload.
Context `{PyRuntime} `{FileSystem}.
Hypothesis rlaws : PyRuntimeLaws _.
Hypothesis lower : lower_ascii _.

(** What a header line adds to the dictionary. *)
Lemma parse_header_line (key value : str) (headers : gmap str str) :
  COLON ∉ key ->
  match find [COLON] (header_line key value) with
  | Some i =>
      <[str_lower (strip (take i (header_line key value)))
        := strip (drop (S i) (header_line key value))]> headers
  | None => headers
  end
  = <[str_lower (strip key) := strip value]> headers.
Proof.
  intros Hk. unfold header_line. rewrite (find_first_colon _ _ Hk).
  rewrite take_app_length.
  replace (drop (S (length key)) (key ++ COLON :: SPACE :: value))
    with (SPACE :: value)
    by (rewrite drop_app_ge by lia;
        by replace (S (length key) - length key)%nat with 1%nat by lia).
  done.
Qed.

(** An upload whose source names a file and whose write succeeds is
    answered 201. *)
Lemma handle_upload_stores self now body headers s s' f P :
  encodable (now_strftime now) = true -> encodable f = true -> f <> [] ->
  upload_source now body headers = Ok (inr (Some f, P)) ->
  write_file s (os_path_join (storage_directory self) (safe_filename now f)) P
  = (s', Ok tt) ->
  exists r, handle_upload self now body headers s = (s', Ok r)
            /\ responds now 201 r.
Proof.
  intros Hdate Hf Hne Hsrc Hw.
  pose proof (safe_filename_encodable now f Hf) as Hsafe.
  destruct (build_response_responds now 201 (st "Created")
              (Str (st "File " ++ safe_filename now f
                    ++ st " uploaded successfully ("
                    ++ str_of_nat (length P) ++ st " bytes)")) [])
    as (r & Hr & Hresp); [done|done|cbn [encodable_content]; enc|done|].
  exists r. split; [|done]. unfold handle_upload. rewrite Hsrc.
  destruct f as [|c f]; [done|]. cbn [falsy]. cbv zeta.
  change (default [] (Some (c :: f))) with (c :: f). rewrite Hw.
  unfold try_except. by rewrite Hr.
Qed.
End ClientUpload.

Lemma plain_header_line key value :
  plain_text key = true -> plain_text value = true ->
  plain_text (header_line key value) = true.
Proof.
  unfold plain_text, header_line. intros Hk Hv.
  rewrite forallb_app. cbn [forallb]. by rewrite Hk, Hv.
Qed.


